(** * memvid-mind: observation capture, compression and context assembly

    A shallow embedding of the hooks' pure core (classifier, extractors,
    compressor, summary generator, session synthesizer, context assembler)
    together with the properties the specification states about them.

    JavaScript strings are sequences of UTF-16 code units; [length],
    [slice], [split], [includes] all count code units, and so does this
    development. *)

From Stdlib Require Import NArith ZArith String Ascii.
From stdpp Require Import base numbers option list gmap.

Set Default Proof Using "Type".
Local Open Scope nat_scope.

(** ** JavaScript strings *)

Module JS.

Definition code_unit := N.
Definition jsstring := list code_unit.

#[global] Instance jsstring_eq_dec : EqDecision jsstring := _.

(** A Basic Latin literal, one code unit per character. *)
Fixpoint lit (s : string) : jsstring :=
  match s with
  | EmptyString => []
  | String a s' => N_of_ascii a :: lit s'
  end.

(** A code point beyond the Basic Multilingual Plane is a surrogate pair. *)
Definition astral (cp : N) : jsstring :=
  [(0xD800 + (cp - 0x10000) / 0x400)%N; (0xDC00 + (cp - 0x10000) mod 0x400)%N].

Definition LF : code_unit := 10%N.
Definition dquote : code_unit := 34%N.
Definition squote : code_unit := 39%N.
Definition slash : code_unit := 47%N.
Definition comma : code_unit := 44%N.

(** [a || b] on values that are strings or undefined: the empty string
    and undefined are falsy. *)
Definition truthy (v : option jsstring) : bool :=
  match v with
  | Some (_ :: _) => true
  | _ => false
  end.

Definition or_else (v : option jsstring) (d : jsstring) : jsstring :=
  match v with
  | Some (c :: s) => c :: s
  | _ => d
  end.

(** [a || b] when [b] may itself be undefined. *)
Definition or_undef (v w : option jsstring) : option jsstring :=
  if truthy v then v else w.

(** String conversion of a template-literal hole. *)
Definition template (v : option jsstring) : jsstring :=
  default (lit "undefined") v.

(** [s.startsWith(p)] *)
Fixpoint startsWith (s p : jsstring) : bool :=
  match p, s with
  | [], _ => true
  | _ :: _, [] => false
  | a :: p', c :: s' => if (a =? c)%N then startsWith s' p' else false
  end.

(** [s.includes(needle)] *)
Fixpoint includes (s needle : jsstring) : bool :=
  startsWith s needle ||
  match s with
  | [] => false
  | _ :: s' => includes s' needle
  end.

(** [s.split(sep)] for a one-unit separator; never the empty array. *)
Fixpoint split (sep : code_unit) (s : jsstring) : list jsstring :=
  match s with
  | [] => [[]]
  | c :: s' =>
      if (c =? sep)%N then [] :: split sep s'
      else match split sep s' with
           | h :: t => (c :: h) :: t
           | [] => [[c]]
           end
  end.

(** [parts.join(sep)] *)
Fixpoint join (sep : jsstring) (parts : list jsstring) : jsstring :=
  match parts with
  | [] => []
  | [p] => p
  | p :: rest => p ++ sep ++ join sep rest
  end.

(** [parts.join(sep)] on an array whose elements may be undefined, which
    [join] prints as the empty string. *)
Definition join_values (sep : jsstring) (parts : list (option jsstring)) : jsstring :=
  join sep (default [] <$> parts).

(** [x.slice(0, n)] for [n >= 0], on strings and arrays alike. *)
Definition slice0 {A} (n : nat) (x : list A) : list A := take n x.

(** [x.slice(-n)]: the last [n] elements. *)
Definition slice_last {A} (n : nat) (x : list A) : list A :=
  drop (length x - n) x.

(** [x.slice(0, -n)]: all but the last [n] elements. *)
Definition slice_but_last {A} (n : nat) (x : list A) : list A :=
  take (length x - n) x.

(** [arr.filter(Boolean)] on an array of strings. *)
Definition filter_Boolean (l : list jsstring) : list jsstring :=
  filter (λ s, s ≠ []) l.

(** [s.split(sep).pop()] *)
Definition split_pop (sep : code_unit) (s : jsstring) : jsstring :=
  default [] (last (split sep s)).

(** WhiteSpace and LineTerminator code units: what [trim] strips and what
    [\s] matches. *)
Definition is_line_terminator (c : code_unit) : bool :=
  ((c =? 10) || (c =? 13) || (c =? 0x2028) || (c =? 0x2029))%N.

Definition is_space (c : code_unit) : bool :=
  ((c =? 9) || (c =? 11) || (c =? 12) || (c =? 32) || (c =? 0xA0) ||
   (c =? 0x1680) || ((0x2000 <=? c) && (c <=? 0x200A)) || (c =? 0x202F) ||
   (c =? 0x205F) || (c =? 0x3000) || (c =? 0xFEFF))%N
  || is_line_terminator c.

(** [\w] without the [i] and [u] flags. *)
Definition is_word (c : code_unit) : bool :=
  (((0x41 <=? c) && (c <=? 0x5A)) || ((0x61 <=? c) && (c <=? 0x7A)) ||
   ((0x30 <=? c) && (c <=? 0x39)) || (c =? 0x5F))%N.

Fixpoint trimStart (s : jsstring) : jsstring :=
  match s with
  | c :: s' => if is_space c then trimStart s' else s
  | [] => []
  end.

Definition trim (s : jsstring) : jsstring :=
  reverse (trimStart (reverse (trimStart s))).

(** Decimal rendering of an array or string length. *)
Definition digit (d : nat) : code_unit := (48 + N.of_nat d)%N.

Fixpoint digits_aux (fuel n : nat) (acc : jsstring) : jsstring :=
  match fuel with
  | 0 => acc
  | S fuel' =>
      let acc' := digit (n mod 10) :: acc in
      if n / 10 =? 0 then acc' else digits_aux fuel' (n / 10) acc'
  end.

Definition Number_toString (n : nat) : jsstring := digits_aux (S n) n [].

End JS.
Export JS.

(** ** Regular expressions

    The patterns of the source, as syntax trees, and the backtracking
    matcher that runs them: greedy and lazy repetition, ordered
    alternation, capture groups, [^] without the [m] flag.  None of the
    source's patterns has the [i], [m], [s] or [u] flag, so matching is
    by code unit and case-sensitive; and none repeats a capture group,
    so the captures a repetition would clear between iterations never
    exist. *)

Module RegExp.

Inductive regex :=
  | Chars (s : jsstring)                 (* literal text *)
  | Class (p : code_unit → bool)         (* one unit of a class *)
  | Seq (r1 r2 : regex)
  | Alt (r1 r2 : regex)                  (* r1|r2 *)
  | Opt (r : regex)                      (* r? *)
  | Rep (greedy : bool) (min : nat) (r : regex)  (* r* r+ r*? *)
  | Group (i : nat) (r : regex)          (* i-th capturing group *)
  | Bos.                                 (* ^ *)

Definition Star := Rep true 0.
Definition Plus := Rep true 1.
Definition LazyStar := Rep false 0.

Fixpoint sequence (rs : list regex) : regex :=
  match rs with
  | [] => Chars []
  | [r] => r
  | r :: rs' => Seq r (sequence rs')
  end.

Definition ws := Class is_space.                         (* \s *)
Definition word := Class is_word.                        (* \w *)
Definition dot := Class (λ c, negb (is_line_terminator c)).  (* . *)
Definition one_of (l : jsstring) := Class (λ c, bool_decide (c ∈ l)).
Definition none_of (l : jsstring) := Class (λ c, bool_decide (c ∉ l)).
Definition none_of_or_space (l : jsstring) : regex :=
  let outside c := negb (is_space c) && bool_decide (c ∉ l) in Class outside.

(** Captures, indexed from 1; index 0 is the whole match. *)
Definition captures := list (option jsstring).

Definition set_capture (i : nat) (v : jsstring) (caps : captures) : captures :=
  <[i := Some v]> (caps ++ replicate (S i - length caps) None).

Fixpoint strip_prefix (p s : jsstring) : option jsstring :=
  match p, s with
  | [], _ => Some s
  | _ :: _, [] => None
  | a :: p', c :: s' => if (a =? c)%N then strip_prefix p' s' else None
  end.

Section Matcher.
Context {R : Type}.

(** A continuation receives the position reached, the input left and
    the captures so far. *)
Definition cont := nat → jsstring → captures → option R.

Definition first_of (a b : option R) : option R :=
  match a with Some x => Some x | None => b end.

(** Repetition of [body], the matcher of the repeated expression:
    [need] iterations are still owed; past them an iteration has to
    consume input, and a greedy loop tries one before it tries the
    continuation.  [fuel] bounds the iterations, and as many as there
    are code units left, beyond those owed, always suffice. *)
Fixpoint rep_loop (body : cont → nat → jsstring → captures → option R)
    (greedy : bool) (k : cont) (fuel need : nat) (pos : nat) (s : jsstring)
    (caps : captures) {struct fuel} : option R :=
  let again :=
    match fuel with
    | 0 => None
    | S fuel' =>
        body (λ pos' s' caps',
                if (0 <? need) || (pos <? pos')
                then rep_loop body greedy k fuel' (pred need) pos' s' caps'
                else None)
             pos s caps
    end in
  if 0 <? need then again
  else if greedy then first_of again (k pos s caps)
  else first_of (k pos s caps) again.

Fixpoint run (r : regex) (k : cont) (pos : nat) (s : jsstring)
    (caps : captures) {struct r} : option R :=
  match r with
  | Chars l =>
      match strip_prefix l s with
      | Some s' => k (pos + length l) s' caps
      | None => None
      end
  | Class p =>
      match s with
      | c :: s' => if p c then k (S pos) s' caps else None
      | [] => None
      end
  | Seq r1 r2 => run r1 (λ pos' s' caps', run r2 k pos' s' caps') pos s caps
  | Alt r1 r2 => first_of (run r1 k pos s caps) (run r2 k pos s caps)
  | Opt r1 =>
      first_of
        (run r1 (λ pos' s' caps', if pos <? pos' then k pos' s' caps' else None)
             pos s caps)
        (k pos s caps)
  | Rep greedy min r1 => rep_loop (run r1) greedy k (min + length s) min pos s caps
  | Group i r1 =>
      run r1 (λ pos' s' caps', k pos' s' (set_capture i (take (pos' - pos) s) caps'))
          pos s caps
  | Bos => if pos =? 0 then k pos s caps else None
  end.
End Matcher.

(** A lower bound on the length of what an expression matches. *)
Fixpoint min_length (r : regex) : nat :=
  match r with
  | Chars l => length l
  | Class _ => 1
  | Seq r1 r2 => min_length r1 + min_length r2
  | Alt r1 r2 => min_length r1 `min` min_length r2
  | Opt _ => 0
  | Rep _ min r1 => if min =? 0 then 0 else min_length r1
  | Group _ r1 => min_length r1
  | Bos => 0
  end.

(** The result array of [exec]: where the match starts and ends, and
    [groups !! i] for [match[i]]. *)
Record MatchResult := {
  index : nat;
  lastIndex : nat;
  groups : captures;
}.

Definition group (m : MatchResult) (i : nat) : option jsstring :=
  mjoin (groups m !! i).

Definition match_at (r : regex) (pos : nat) (s : jsstring) : option MatchResult :=
  run r (λ pos' _ caps,
           Some {| index := pos; lastIndex := pos';
                   groups := set_capture 0 (take (pos' - pos) s) caps |})
      pos s [].

(** [r.exec(s)] with [r.lastIndex = from]: the leftmost match starting at
    or after [from]. *)
Fixpoint search (r : regex) (pos : nat) (s : jsstring) : option MatchResult :=
  match match_at r pos s with
  | Some m => Some m
  | None =>
      match s with
      | [] => None
      | _ :: s' => search r (S pos) s'
      end
  end.

Definition exec (r : regex) (s : jsstring) (from : nat) : option MatchResult :=
  if from <=? length s then search r from (drop from s) else None.

(** [while ((match = pattern.exec(code)) !== null) body(match)] for a
    pattern with the [g] flag: the matches in the order the loop sees
    them.  A [g] pattern resumes at the end of the previous match; the
    fuel is the number of resumptions a pattern that cannot match the
    empty string can need. *)
Fixpoint exec_loop (fuel : nat) (r : regex) (s : jsstring) (from : nat)
    : list MatchResult :=
  match fuel with
  | 0 => []
  | S fuel' =>
      match exec r s from with
      | None => []
      | Some m => m :: exec_loop fuel' r s (lastIndex m)
      end
  end.

Definition exec_all (r : regex) (s : jsstring) : list MatchResult :=
  exec_loop (S (length s)) r s 0.

(** [s.match(r)] for a pattern without the [g] flag. *)
Definition match_ (s : jsstring) (r : regex) : option MatchResult := exec r s 0.

(** [s.replace(r, '')] for a pattern without the [g] flag. *)
Definition replace_empty (s : jsstring) (r : regex) : jsstring :=
  match exec r s 0 with
  | Some m => take (index m) s ++ drop (lastIndex m) s
  | None => s
  end.

End RegExp.
Export RegExp.

(** ** The rest of the runtime *)

(** [String.prototype.toLowerCase] follows the Unicode case tables, which
    are not part of this development: the definitions below take the
    mapping as given, and what is proved about them holds for every
    mapping. *)
Class CaseMapping := toLowerCase : jsstring → jsstring.

(** The mapping restricted to Basic Latin, where it agrees with the
    runtime's on every string of Basic Latin code units. *)
Definition basic_latin_lower (c : code_unit) : code_unit :=
  if ((0x41 <=? c) && (c <=? 0x5A))%N then (c + 32)%N else c.

Definition basic_latin : CaseMapping := fmap basic_latin_lower.

(** The values [JSON.parse] produces. *)
#[warnings="-register-all"]
Inductive JSON :=
  | JNull
  | JBool (b : bool)
  | JNumber (mantissa exponent : Z)      (* mantissa * 10 ^ exponent *)
  | JString (s : jsstring)
  | JArray (elements : list JSON)
  | JObject (properties : list (jsstring * JSON)).

(** [JSON.parse], [None] when it throws a SyntaxError.  An object lists
    its properties in source order.  What is proved below holds for every
    parser; [JSONText.parse] further down is the one the examples run. *)
Class JSONParser := JSON_parse : jsstring → option JSON.

(** A number literal whose value rounds to the double zero: at most half
    the smallest subnormal, 2^-1075. *)
Definition rounds_to_zero (mantissa exponent : Z) : bool :=
  ((mantissa =? 0) ||
   (exponent <? 0) && (Z.abs mantissa * 2 ^ 1075 <=? 10 ^ (- exponent)))%Z.

(** [v.name] on a parsed value that is not null: an own property of an
    object (a later duplicate wins), undefined on anything else. *)
Definition JSON_property (v : JSON) (name : jsstring) : option JSON :=
  match v with
  | JObject properties =>
      (λ found, found.2.2) <$> list_find (λ kv, kv.1 = name) (reverse properties)
  | _ => None
  end.

Definition JSON_truthy (v : option JSON) : bool :=
  match v with
  | None | Some JNull | Some (JBool false) | Some (JString []) => false
  | Some (JNumber mantissa exponent) => negb (rounds_to_zero mantissa exponent)
  | Some _ => true
  end.

(** A [Set] of values, in insertion order. *)
Section JSSet.
Context {A : Type} `{EqDecision A}.

Definition Set_add (s : list A) (x : A) : list A :=
  if decide (x ∈ s) then s else s ++ [x].

(** [new Set(l)], then [Array.from] or spread *)
Definition Set_of (l : list A) : list A := foldl Set_add [] l.
End JSSet.

(** The names every object inherits from [Object.prototype]. *)
Definition Object_prototype_names : list jsstring :=
  lit <$> ["constructor"; "__defineGetter__"; "__defineSetter__";
           "hasOwnProperty"; "__lookupGetter__"; "__lookupSetter__";
           "isPrototypeOf"; "propertyIsEnumerable"; "toString"; "valueOf";
           "__proto__"; "toLocaleString"]%string.

(** A property key that is an array index: the canonical decimal form of
    an integer below 2^32 - 1.  [Object.keys] lists these first, in
    ascending order. *)
Definition is_digit (c : code_unit) : bool := ((0x30 <=? c) && (c <=? 0x39))%N.

Definition digits_value (s : jsstring) : N :=
  foldl (λ acc c, acc * 10 + (c - 0x30))%N 0%N s.

Definition is_array_index (s : jsstring) : bool :=
  match s with
  | [] => false
  | c :: rest =>
      forallb is_digit s && (negb (c =? 0x30)%N || bool_decide (rest = []))
      && bool_decide (length s ≤ 10) && (digits_value s <? 4294967295)%N
  end.

(** ** JSON text

    [JSON.parse] as a recursive-descent reader of the JSON grammar.  A
    number keeps its decimal value [mantissa * 10 ^ exponent]. *)
Module JSONText.

Definition is_json_space (c : code_unit) : bool :=
  ((c =? 9) || (c =? 10) || (c =? 13) || (c =? 32))%N.

Fixpoint skip_space (s : jsstring) : jsstring :=
  match s with
  | c :: s' => if is_json_space c then skip_space s' else s
  | [] => []
  end.

Definition hex_value (c : code_unit) : option N :=
  if is_digit c then Some (c - 0x30)%N
  else if ((0x41 <=? c) && (c <=? 0x46))%N then Some (c - 0x41 + 10)%N
  else if ((0x61 <=? c) && (c <=? 0x66))%N then Some (c - 0x61 + 10)%N
  else None.

(** The characters of a string after its opening quote. *)
Fixpoint read_string (s : jsstring) (acc : jsstring) : option (jsstring * jsstring) :=
  match s with
  | [] => None
  | 34%N :: rest => Some (reverse acc, rest)
  | 92%N :: 117%N :: a :: b :: c :: d :: rest =>
      a ← hex_value a; b ← hex_value b; c ← hex_value c; d ← hex_value d;
      read_string rest ((((a * 16 + b) * 16 + c) * 16 + d)%N :: acc)
  | 92%N :: e :: rest =>
      unit ← (if (e =? 34)%N then Some 34 else if (e =? 92)%N then Some 92
              else if (e =? 47)%N then Some 47 else if (e =? 98)%N then Some 8
              else if (e =? 102)%N then Some 12 else if (e =? 110)%N then Some 10
              else if (e =? 114)%N then Some 13 else if (e =? 116)%N then Some 9
              else None)%N;
      read_string rest (unit :: acc)
  | c :: rest => if (c <? 0x20)%N then None else read_string rest (c :: acc)
  end.

Fixpoint span_digits (s : jsstring) : jsstring * jsstring :=
  match s with
  | c :: s' => if is_digit c then let '(d, r) := span_digits s' in (c :: d, r) else ([], s)
  | [] => ([], [])
  end.

(** [-? (0 | [1-9][0-9]* ) (. [0-9]+)? ([eE] [+-]? [0-9]+)?] *)
Definition read_number (s : jsstring) : option (Z * Z * jsstring) :=
  let '(negative, s) := match s with 45%N :: s' => (true, s') | _ => (false, s) end in
  let '(int, s) := span_digits s in
  match int with
  | [] => None
  | 48%N :: _ :: _ => None
  | _ =>
      '(frac, s) ← match s with
                   | 46%N :: s' =>
                       let '(frac, s'') := span_digits s' in
                       if bool_decide (frac = []) then None else Some (frac, s'')
                   | _ => Some ([], s)
                   end;
      '(exp, s) ← match s with
                  | 69%N :: s' | 101%N :: s' =>
                      let '(minus, s'') :=
                        match s' with
                        | 45%N :: t => (true, t)
                        | 43%N :: t => (false, t)
                        | _ => (false, s')
                        end in
                      let '(digits, s''') := span_digits s'' in
                      if bool_decide (digits = []) then None
                      else let e := Z.of_N (digits_value digits) in
                           Some (if minus then (- e)%Z else e, s''')
                  | _ => Some (0%Z, s)
                  end;
      let mantissa := Z.of_N (digits_value (int ++ frac)) in
      Some (if negative then (- mantissa)%Z else mantissa,
            (exp - Z.of_nat (length frac))%Z, s)
  end.

(** Every call consumes a character of the text within two steps, which
    bounds the fuel a text needs by twice its length. *)
Fixpoint read_value (fuel : nat) (s : jsstring) : option (JSON * jsstring) :=
  match fuel with
  | 0 => None
  | S fuel' =>
      match skip_space s with
      | 123%N :: rest =>
          match skip_space rest with
          | 125%N :: rest' => Some (JObject [], rest')
          | _ => '(properties, rest') ← read_members fuel' rest; Some (JObject properties, rest')
          end
      | 91%N :: rest =>
          match skip_space rest with
          | 93%N :: rest' => Some (JArray [], rest')
          | _ => '(elements, rest') ← read_elements fuel' rest; Some (JArray elements, rest')
          end
      | 34%N :: rest => '(str, rest') ← read_string rest []; Some (JString str, rest')
      | 116%N :: 114%N :: 117%N :: 101%N :: rest => Some (JBool true, rest)
      | 102%N :: 97%N :: 108%N :: 115%N :: 101%N :: rest => Some (JBool false, rest)
      | 110%N :: 117%N :: 108%N :: 108%N :: rest => Some (JNull, rest)
      | s' => '(mantissa, exponent, rest) ← read_number s'; Some (JNumber mantissa exponent, rest)
      end
  end
with read_elements (fuel : nat) (s : jsstring) : option (list JSON * jsstring) :=
  match fuel with
  | 0 => None
  | S fuel' =>
      '(v, rest) ← read_value fuel' s;
      match skip_space rest with
      | 44%N :: rest' => '(vs, rest'') ← read_elements fuel' rest'; Some (v :: vs, rest'')
      | 93%N :: rest' => Some ([v], rest')
      | _ => None
      end
  end
with read_members (fuel : nat) (s : jsstring) : option (list (jsstring * JSON) * jsstring) :=
  match fuel with
  | 0 => None
  | S fuel' =>
      match skip_space s with
      | 34%N :: rest =>
          '(key, rest) ← read_string rest [];
          match skip_space rest with
          | 58%N :: rest =>
              '(v, rest) ← read_value fuel' rest;
              match skip_space rest with
              | 44%N :: rest' => '(kvs, rest'') ← read_members fuel' rest'; Some ((key, v) :: kvs, rest'')
              | 125%N :: rest' => Some ([(key, v)], rest')
              | _ => None
              end
          | _ => None
          end
      | _ => None
      end
  end.

Definition parse (text : jsstring) : option JSON :=
  '(v, rest) ← read_value (2 * length text + 2) text;
  if bool_decide (skip_space rest = []) then Some v else None.

End JSONText.

(** Stable insertion sort: [le a b] says [a] may stay before [b]. *)
Section Sort.
Context {A : Type} (le : A → A → bool).

Fixpoint insert_sorted (x : A) (l : list A) : list A :=
  match l with
  | [] => [x]
  | y :: l' => if le y x then y :: insert_sorted x l' else x :: l
  end.

Definition stable_sort (l : list A) : list A :=
  foldl (λ acc x, insert_sorted x acc) [] l.
End Sort.

(** [Object.entries(o)] for an object whose own properties were created
    in the order of [o]. *)
Definition Object_entries {V} (o : list (jsstring * V)) : list (jsstring * V) :=
  stable_sort (λ a b, (digits_value a.1 <=? digits_value b.1)%N)
    (filter (λ kv, is_array_index kv.1) o)
  ++ filter (λ kv, ¬ is_array_index kv.1) o.

(** ** src/types.ts *)

Inductive ObservationType :=
  | Discovery | Decision | Problem | Solution | Pattern
  | Warning | Success | Refactor | Bugfix | Feature.

#[global] Instance ObservationType_eq_dec : EqDecision ObservationType.
Proof. solve_decision. Defined.

(** The string a category is at run time. *)
Definition type_name (t : ObservationType) : jsstring :=
  lit match t with
      | Discovery => "discovery" | Decision => "decision"
      | Problem => "problem" | Solution => "solution"
      | Pattern => "pattern" | Warning => "warning"
      | Success => "success" | Refactor => "refactor"
      | Bugfix => "bugfix" | Feature => "feature"
      end.

(** The ten categories of the [ObservationType] union. *)
Definition observation_types : list ObservationType :=
  [Discovery; Decision; Problem; Solution; Pattern;
   Warning; Success; Refactor; Bugfix; Feature].

(** [tool_input]: the fields the hooks read, each a string when present. *)
Module ToolInput.
Record t := {
  file_path : option jsstring;
  command : option jsstring;
  pattern : option jsstring;
  path : option jsstring;
  url : option jsstring;
  query : option jsstring;
}.
Definition empty : t :=
  {| file_path := None; command := None; pattern := None;
     path := None; url := None; query := None |}.
End ToolInput.

(** The metadata of an observation and of the frame that stores it: the
    keys the hooks write or read. *)
Module Metadata.
Record t := {
  files : option (list jsstring);
  command : option jsstring;
  pattern : option jsstring;
  searchPath : option jsstring;
  compressed : option bool;
  originalSize : option nat;
  compressedSize : option nat;
  sessionId : option jsstring;
  observationId : option jsstring;
  timestamp : option Z;
  tool : option jsstring;
  type : option jsstring;
}.
Definition empty : t :=
  {| files := None; command := None; pattern := None; searchPath := None;
     compressed := None; originalSize := None; compressedSize := None;
     sessionId := None; observationId := None; timestamp := None;
     tool := None; type := None |}.
Definition set_files (v : list jsstring) (m : t) : t :=
  {| files := Some v; command := command m; pattern := pattern m;
     searchPath := searchPath m; compressed := compressed m;
     originalSize := originalSize m; compressedSize := compressedSize m;
     sessionId := sessionId m; observationId := observationId m;
     timestamp := timestamp m; tool := tool m; type := type m |}.
Definition set_command (v : jsstring) (m : t) : t :=
  {| files := files m; command := Some v; pattern := pattern m;
     searchPath := searchPath m; compressed := compressed m;
     originalSize := originalSize m; compressedSize := compressedSize m;
     sessionId := sessionId m; observationId := observationId m;
     timestamp := timestamp m; tool := tool m; type := type m |}.
Definition set_pattern (v : jsstring) (m : t) : t :=
  {| files := files m; command := command m; pattern := Some v;
     searchPath := searchPath m; compressed := compressed m;
     originalSize := originalSize m; compressedSize := compressedSize m;
     sessionId := sessionId m; observationId := observationId m;
     timestamp := timestamp m; tool := tool m; type := type m |}.
Definition set_searchPath (v : jsstring) (m : t) : t :=
  {| files := files m; command := command m; pattern := pattern m;
     searchPath := Some v; compressed := compressed m;
     originalSize := originalSize m; compressedSize := compressedSize m;
     sessionId := sessionId m; observationId := observationId m;
     timestamp := timestamp m; tool := tool m; type := type m |}.
Definition set_compression (original size : nat) (m : t) : t :=
  {| files := files m; command := command m; pattern := pattern m;
     searchPath := searchPath m; compressed := Some true;
     originalSize := Some original; compressedSize := Some size;
     sessionId := sessionId m; observationId := observationId m;
     timestamp := timestamp m; tool := tool m; type := type m |}.
End Metadata.

(** An [Observation] as the hooks see it once read back from the store:
    [type] is whatever label the frame carried, if any. *)
Module Observation.
Record t := {
  id : option jsstring;
  timestamp : Z;
  type : option jsstring;
  tool : option jsstring;
  summary : jsstring;
  content : jsstring;
  metadata : option Metadata.t;
}.
End Observation.

Module InjectedContext.
Record t := {
  recentObservations : list Observation.t;
  relevantMemories : list Observation.t;
  sessionSummaries : list unit;
  tokenCount : Z;
}.
End InjectedContext.

Module MindConfig.
Record t := {
  maxContextObservations : Z;
  maxContextTokens : Z;
}.
End MindConfig.

Definition DEFAULT_CONFIG : MindConfig.t :=
  {| MindConfig.maxContextObservations := 20;
     MindConfig.maxContextTokens := 2000 |}.

(** ** src/utils/helpers.ts *)

(** [Math.ceil(text.length / 4)] *)
Definition estimateTokens (text : jsstring) : Z :=
  Z.of_nat ((length text + 3) / 4).

Section Helpers.
Context `{CaseMapping}.

Definition classifyObservationType (toolName output : jsstring) : ObservationType :=
  let lowerOutput := toLowerCase output in
  if includes lowerOutput (lit "error") || includes lowerOutput (lit "failed")
     || includes lowerOutput (lit "exception")
  then Problem
  else if includes lowerOutput (lit "success") || includes lowerOutput (lit "passed")
          || includes lowerOutput (lit "completed")
  then Success
  else if includes lowerOutput (lit "warning") || includes lowerOutput (lit "deprecated")
  then Warning
  else if bool_decide (toolName ∈ [lit "Read"; lit "Glob"; lit "Grep"]) then Discovery
  else if bool_decide (toolName = lit "Edit") then
    if includes lowerOutput (lit "fix") || includes lowerOutput (lit "bug")
    then Bugfix else Refactor
  else if bool_decide (toolName = lit "Write") then Feature
  else Discovery.
End Helpers.

(** ** src/utils/compression.ts *)

Definition TARGET_COMPRESSED_SIZE : nat := 2000.
Definition COMPRESSION_THRESHOLD : nat := 3000.

Module CompressionResult.
Record t := {
  compressed : jsstring;
  wasCompressed : bool;
  originalSize : nat;
}.
End CompressionResult.

Definition quote := one_of [squote; dquote].          (* ['\x22] *)
Definition unquoted := none_of [squote; dquote].      (* [^'\x22] *)
Definition alt (rs : list regex) : regex :=
  match rs with
  | [] => Chars []
  | r :: rs' => foldl Alt r rs'
  end.
Definition keyword (ws_ : list string) : regex := alt ((λ w, Chars (lit w)) <$> ws_).

(** The pattern tables of the four code extractors, in source order.
    Each pattern is quoted above its tree; there [\x22] is written for
    the double quote, and a blank separates a star from a closing
    parenthesis that follows it. *)
Definition import_patterns : list regex := [
  (* /import\s+(?:{\s*([^}]+)\s*}|(\w+))\s+from\s+['\x22]([^'\x22]+)['\x22]/g *)
  sequence [Chars (lit "import"); Plus ws;
            Alt (sequence [Chars (lit "{"); Star ws; Group 1 (Plus (none_of (lit "}")));
                      Star ws; Chars (lit "}")])
                (Group 2 (Plus word));
            Plus ws; Chars (lit "from"); Plus ws; quote; Group 3 (Plus unquoted); quote];
  (* /from\s+['\x22]([^'\x22]+)['\x22]\s+import/g *)
  sequence [Chars (lit "from"); Plus ws; quote; Group 1 (Plus unquoted); quote;
            Plus ws; Chars (lit "import")];
  (* /require\s*\(['\x22]([^'\x22]+)['\x22]\)/g *)
  sequence [Chars (lit "require"); Star ws; Chars (lit "("); quote;
            Group 1 (Plus unquoted); quote; Chars (lit ")")];
  (* /use\s+(\w+(?:::\w+)* )/g *)
  sequence [Chars (lit "use"); Plus ws;
            Group 1 (Seq (Plus word) (Star (Seq (Chars (lit "::")) (Plus word))))]
].

Definition export_patterns : list regex := [
  (* /export\s+(?:default\s+)?(?:function|class|const|let|var)\s+(\w+)/g *)
  sequence [Chars (lit "export"); Plus ws; Opt (Seq (Chars (lit "default")) (Plus ws));
            keyword ["function"; "class"; "const"; "let"; "var"]%string;
            Plus ws; Group 1 (Plus word)];
  (* /export\s*{\s*([^}]+)\s*}/g *)
  sequence [Chars (lit "export"); Star ws; Chars (lit "{"); Star ws;
            Group 1 (Plus (none_of (lit "}"))); Star ws; Chars (lit "}")];
  (* /pub\s+(?:fn|struct|enum|trait|mod)\s+(\w+)/g *)
  sequence [Chars (lit "pub"); Plus ws;
            keyword ["fn"; "struct"; "enum"; "trait"; "mod"]%string;
            Plus ws; Group 1 (Plus word)]
].

Definition arrow_head : regex :=
  (* (?:async\s+)?\([^)]*\)\s*=> *)
  sequence [Opt (Seq (Chars (lit "async")) (Plus ws)); Chars (lit "(");
            Star (none_of (lit ")")); Chars (lit ")"); Star ws; Chars (lit "=>")].

Definition function_patterns : list regex := [
  (* /(?:async\s+)?function\s+(\w+)/g *)
  sequence [Opt (Seq (Chars (lit "async")) (Plus ws)); Chars (lit "function");
            Plus ws; Group 1 (Plus word)];
  (* /(\w+)\s*:\s*(?:async\s+)?\([^)]*\)\s*=>/g *)
  sequence [Group 1 (Plus word); Star ws; Chars (lit ":"); Star ws; arrow_head];
  (* /(?:const|let)\s+(\w+)\s*=\s*(?:async\s+)?\([^)]*\)\s*=>/g *)
  sequence [keyword ["const"; "let"]%string; Plus ws; Group 1 (Plus word); Star ws;
            Chars (lit "="); Star ws; arrow_head];
  (* /fn\s+(\w+)/g *)
  sequence [Chars (lit "fn"); Plus ws; Group 1 (Plus word)];
  (* /def\s+(\w+)/g *)
  sequence [Chars (lit "def"); Plus ws; Group 1 (Plus word)]
].

Definition class_patterns : list regex := [
  (* /class\s+(\w+)/g *)
  sequence [Chars (lit "class"); Plus ws; Group 1 (Plus word)];
  (* /struct\s+(\w+)/g *)
  sequence [Chars (lit "struct"); Plus ws; Group 1 (Plus word)];
  (* /interface\s+(\w+)/g *)
  sequence [Chars (lit "interface"); Plus ws; Group 1 (Plus word)];
  (* /type\s+(\w+)\s*=/g *)
  sequence [Chars (lit "type"); Plus ws; Group 1 (Plus word); Star ws; Chars (lit "=")]
].

(** What the [patterns.forEach] loop of an extractor pushes, in order:
    for every pattern in turn, [pushed m] for every match [m]. *)
Definition pushed_by {A} (patterns : list regex) (pushed : MatchResult → list A)
    (code : jsstring) : list A :=
  pattern ← patterns; m ← exec_all pattern code; pushed m.

(** [match[3] || match[1] || match[2] || match[0]] *)
Definition import_of (m : MatchResult) : option jsstring :=
  or_undef (group m 3) (or_undef (group m 1) (or_undef (group m 2) (group m 0))).

Definition import_matches : jsstring → list (option jsstring) :=
  pushed_by import_patterns (λ m, [import_of m]).

Definition extractImports (code : jsstring) : list (option jsstring) :=
  Set_of (import_matches code).

(** [(match[1] || '').split(",").map((s) => s.trim())], then
    [names.filter(Boolean)] *)
Definition export_names (m : MatchResult) : list jsstring :=
  filter_Boolean (trim <$> split comma (or_else (group m 1) [])).

Definition export_matches : jsstring → list jsstring :=
  pushed_by export_patterns export_names.

Definition extractExports (code : jsstring) : list jsstring :=
  Set_of (export_matches code).

Definition function_matches : jsstring → list (option jsstring) :=
  pushed_by function_patterns (λ m, [group m 1]).

Definition extractFunctionSignatures (code : jsstring) : list (option jsstring) :=
  Set_of (function_matches code).

Definition class_matches : jsstring → list (option jsstring) :=
  pushed_by class_patterns (λ m, [group m 1]).

Definition extractClassNames (code : jsstring) : list (option jsstring) :=
  Set_of (class_matches code).

Definition has_marker (line : jsstring) : bool :=
  includes line (lit "TODO") || includes line (lit "FIXME") ||
  includes line (lit "HACK") || includes line (lit "XXX") ||
  includes line (lit "BUG").

(** The [errors] array before the final [slice]. *)
Definition marker_lines (code : jsstring) : list jsstring :=
  (λ line, slice0 100 (trim line)) <$> filter (λ line, has_marker line) (split LF code).

Definition extractErrorPatterns (code : jsstring) : list jsstring :=
  slice0 10 (marker_lines code).

Definition truncateToTarget (text : jsstring) : jsstring :=
  if bool_decide (length text ≤ TARGET_COMPRESSED_SIZE) then text
  else slice0 (TARGET_COMPRESSED_SIZE - 20) text ++ [LF] ++ lit "... (compressed)".

(** The "(+N more)" suffix of a list capped for display. *)
Definition more_suffix (cap n : nat) : jsstring :=
  if bool_decide (cap < n)
  then lit " (+" ++ Number_toString (n - cap) ++ lit " more)"
  else [].

Definition compressFileRead (toolInput : option ToolInput.t) (output : jsstring) : jsstring :=
  let filePath := or_else (toolInput ≫= ToolInput.file_path) (lit "unknown") in
  let fileName := or_else (Some (split_pop slash filePath)) (lit "file") in
  let lines := split LF output in
  let totalLines := length lines in
  let imports := extractImports output in
  let exports := extractExports output in
  let functions := extractFunctionSignatures output in
  let classes := extractClassNames output in
  let errors := extractErrorPatterns output in
  let parts :=
    [astral 0x1F4C4 ++ lit " File: " ++ fileName ++ lit " (" ++
       Number_toString totalLines ++ lit " lines)"]
    ++ (if bool_decide (0 < length imports)
        then [[LF] ++ astral 0x1F4E6 ++ lit " Imports: " ++
                join_values (lit ", ") (slice0 10 imports) ++
                more_suffix 10 (length imports)]
        else [])
    ++ (if bool_decide (0 < length exports)
        then [[LF] ++ astral 0x1F4E4 ++ lit " Exports: " ++
                join (lit ", ") (slice0 10 exports) ++
                more_suffix 10 (length exports)]
        else [])
    ++ (if bool_decide (0 < length functions)
        then [[LF; 0x26A1%N] ++ lit " Functions: " ++
                join_values (lit ", ") (slice0 10 functions) ++
                more_suffix 10 (length functions)]
        else [])
    ++ (if bool_decide (0 < length classes)
        then [[LF] ++ astral 0x1F3D7 ++ [0xFE0F%N] ++ lit " Classes: " ++
                join_values (lit ", ") classes]
        else [])
    ++ (if bool_decide (0 < length errors)
        then [[LF; 0x26A0%N; 0xFE0F%N] ++ lit " Errors/TODOs: " ++
                join (lit "; ") (slice0 5 errors)]
        else []) in
  let contextLines :=
    [[LF] ++ lit "--- First 10 lines ---"] ++ slice0 10 lines ++
    [[LF] ++ lit "--- Last 5 lines ---"] ++ slice_last 5 lines in
  join [] (parts ++ [join [LF] contextLines]).

Definition compressEditOutput (toolInput : option ToolInput.t) (output : jsstring) : jsstring :=
  let filePath := or_else (toolInput ≫= ToolInput.file_path) (lit "unknown") in
  let fileName := or_else (Some (split_pop slash filePath)) (lit "file") in
  join [LF] [
    [0x270F%N; 0xFE0F%N] ++ lit " Edited: " ++ fileName;
    astral 0x1F4DD ++ lit " Changes applied successfully";
    slice0 500 output
  ].

Definition compressGeneric (output : jsstring) : jsstring :=
  let lines := split LF output in
  if bool_decide (length lines ≤ 30) then output
  else join [LF]
         ([astral 0x1F4CA ++ lit " Output: " ++ Number_toString (length lines) ++ lit " lines";
           lit "--- First 15 lines ---"]
          ++ slice0 15 lines
          ++ [lit "--- Last 10 lines ---"]
          ++ slice_last 10 lines).

(** [/^([^:]+):/] *)
Definition grep_file_pattern : regex :=
  sequence [Bos; Group 1 (Plus (none_of (lit ":"))); Chars (lit ":")].

Definition compressGrepOutput (toolInput : option ToolInput.t) (output : jsstring) : jsstring :=
  let pattern := or_else (toolInput ≫= ToolInput.pattern) (lit "pattern") in
  let lines := filter_Boolean (split LF output) in
  let files :=
    Set_of (line ← lines;
            match match_ line grep_file_pattern with
            | Some m => [group m 1]
            | None => []
            end) in
  let parts :=
    [astral 0x1F50D ++ lit " Grep: " ++ [dquote] ++ slice0 50 pattern ++ [dquote];
     astral 0x1F4C1 ++ lit " Found in " ++ Number_toString (length files) ++
       lit " files, " ++ Number_toString (length lines) ++ lit " matches"]
    ++ (if bool_decide (0 < length files)
        then [[LF] ++ astral 0x1F4C2 ++ lit " Files: " ++
                join_values (lit ", ") (slice0 15 files) ++
                more_suffix 15 (length files)]
        else [])
    ++ [[LF] ++ lit "--- Top matches ---"]
    ++ [join [LF] (slice0 10 lines)]
    ++ (if bool_decide (10 < length lines)
        then [[LF] ++ lit "... and " ++ Number_toString (length lines - 10) ++
                lit " more matches"]
        else []) in
  join [] parts.

Section Compression.
Context `{CaseMapping} `{JSONParser}.

Definition is_error_line (l : jsstring) : bool :=
  includes (toLowerCase l) (lit "error") || includes (toLowerCase l) (lit "failed") ||
  includes (toLowerCase l) (lit "exception") || includes (toLowerCase l) (lit "warning").

Definition is_success_line (l : jsstring) : bool :=
  includes (toLowerCase l) (lit "success") || includes (toLowerCase l) (lit "passed") ||
  includes (toLowerCase l) (lit "completed") || includes (toLowerCase l) (lit "done").

Definition compressBashOutput (toolInput : option ToolInput.t) (output : jsstring) : jsstring :=
  let command := or_else (toolInput ≫= ToolInput.command) (lit "command") in
  let shortCmd := slice0 100 (default [] (head (split LF command))) in
  let lines := split LF output in
  let errorLines := filter (λ l, is_error_line l) lines in
  let successLines := filter (λ l, is_success_line l) lines in
  let parts :=
    [astral 0x1F5A5 ++ [0xFE0F%N] ++ lit " Command: " ++ shortCmd]
    ++ (if bool_decide (0 < length errorLines)
        then [[LF; 0x274C%N] ++ lit " Errors (" ++
                Number_toString (length errorLines) ++ lit "):";
              join [LF] (slice0 10 errorLines)]
        else [])
    ++ (if bool_decide (0 < length successLines)
        then [[LF; 0x2705%N] ++ lit " Success indicators:";
              join [LF] (slice0 5 successLines)]
        else [])
    ++ [[LF] ++ astral 0x1F4CA ++ lit " Output: " ++
          Number_toString (length lines) ++ lit " lines total"]
    ++ (if bool_decide (20 < length lines)
        then [[LF] ++ lit "--- First 10 lines ---";
              join [LF] (slice0 10 lines);
              [LF] ++ lit "--- Last 5 lines ---";
              join [LF] (slice_last 5 lines)]
        else [[LF] ++ lit "--- Full output ---";
              join [LF] lines]) in
  join [] parts.
End Compression.

Section Glob.
Context `{JSONParser}.

(** The value [files] holds after the [try]/[catch]: the parsed
    [filenames] property (or an empty array when it is falsy), and the
    non-empty lines of the raw output when [JSON.parse] throws or
    yields null, whose property cannot be read. *)
Definition glob_files (output : jsstring) : JSON :=
  match JSON_parse output with
  | None | Some JNull => JArray (JString <$> filter_Boolean (split LF output))
  | Some parsed =>
      let filenames := JSON_property parsed (lit "filenames") in
      if JSON_truthy filenames then default (JArray []) filenames else JArray []
  end.

(** [files.forEach((f) => ... f.split("/") ...)] needs an array of
    strings; anything else raises a TypeError, here [None]. *)
Definition string_elements (files : JSON) : option (list jsstring) :=
  match files with
  | JArray elements =>
      mapM (λ e, match e with JString s => Some s | _ => None end) elements
  | _ => None
  end.

(** One step of the loop that fills [byDir].  [byDir[dir]] on a fresh
    object finds the inherited members too: they are truthy and have no
    [push], so a directory with such a name raises. *)
Definition byDir_push (byDir : list (jsstring * list jsstring)) (f : jsstring)
    : option (list (jsstring * list jsstring)) :=
  let dir := or_else (Some (join [slash] (slice_but_last 1 (split slash f)))) [slash] in
  let file := or_else (Some (split_pop slash f)) f in
  if bool_decide (dir ∈ byDir.*1)
  then Some ((λ kv, if bool_decide (kv.1 = dir) then (kv.1, kv.2 ++ [file]) else kv) <$> byDir)
  else if bool_decide (dir ∈ Object_prototype_names) then None
  else Some (byDir ++ [(dir, [file])]).

Definition compressGlobOutput (toolInput : option ToolInput.t) (output : jsstring)
    : option jsstring :=
  let pattern := or_else (toolInput ≫= ToolInput.pattern) (lit "pattern") in
  files ← string_elements (glob_files output);
  byDir ← foldl (λ acc f, acc ≫= λ byDir, byDir_push byDir f) (Some []) files;
  let topDirs :=
    slice0 5 (stable_sort (λ a b, bool_decide (length b.2 ≤ length a.2))
                (Object_entries byDir)) in
  let parts :=
    [astral 0x1F4C2 ++ lit " Glob: " ++ [dquote] ++ slice0 50 pattern ++ [dquote];
     astral 0x1F4C1 ++ lit " Found " ++ Number_toString (length files) ++
       lit " files in " ++ Number_toString (length byDir) ++ lit " directories"]
    ++ [[LF] ++ lit "--- Top directories ---"]
    ++ ((λ entry : jsstring * list jsstring,
           let shortDir := join [slash] (slice_last 3 (split slash entry.1)) in
           shortDir ++ lit "/ (" ++ Number_toString (length entry.2) ++ lit " files)")
        <$> topDirs)
    ++ [[LF] ++ lit "--- Sample files ---"]
    ++ [join (lit ", ") (split_pop slash <$> slice0 15 files)] in
  Some (join [] parts).
End Glob.

Section CompressToolOutput.
Context `{CaseMapping} `{JSONParser}.

(** The [switch] of [compressToolOutput]; [None] when the renderer
    raises. *)
Definition render (toolName : jsstring) (toolInput : option ToolInput.t)
    (output : jsstring) : option jsstring :=
  if bool_decide (toolName = lit "Read") then Some (compressFileRead toolInput output)
  else if bool_decide (toolName = lit "Bash") then Some (compressBashOutput toolInput output)
  else if bool_decide (toolName = lit "Grep") then Some (compressGrepOutput toolInput output)
  else if bool_decide (toolName = lit "Glob") then compressGlobOutput toolInput output
  else if bool_decide (toolName ∈ [lit "Edit"; lit "Write"])
  then Some (compressEditOutput toolInput output)
  else Some (compressGeneric output).

Definition compressToolOutput (toolName : jsstring) (toolInput : option ToolInput.t)
    (output : jsstring) : option CompressionResult.t :=
  let originalSize := length output in
  if bool_decide (originalSize ≤ COMPRESSION_THRESHOLD)
  then Some {| CompressionResult.compressed := output;
               CompressionResult.wasCompressed := false;
               CompressionResult.originalSize := originalSize |}
  else
    compressed ← render toolName toolInput output;
    Some {| CompressionResult.compressed := truncateToTarget compressed;
            CompressionResult.wasCompressed := true;
            CompressionResult.originalSize := originalSize |}.
End CompressToolOutput.

(** ** src/hooks/post-tool-use.ts *)

Definition OBSERVED_TOOLS : list jsstring :=
  lit <$> ["Read"; "Edit"; "Write"; "Update"; "Bash"; "Grep"; "Glob";
           "WebFetch"; "WebSearch"; "Task"; "NotebookEdit"]%string.
Definition MIN_OUTPUT_LENGTH : nat := 50.
Definition ALWAYS_CAPTURE_TOOLS : list jsstring :=
  lit <$> ["Edit"; "Write"; "Update"; "NotebookEdit"]%string.
Definition MAX_OUTPUT_LENGTH : nat := 2500.

(** [tool_response]: a string, or any other value, of which the hook only
    uses [JSON.stringify(tool_response, null, 2)], undefined when the
    response is. *)
Inductive ToolResponse :=
  | ResponseString (s : jsstring)
  | ResponseOther (stringified : option jsstring).

Module HookInput.
Record t := {
  tool_name : option jsstring;
  tool_input : option ToolInput.t;
  tool_response : ToolResponse;
}.
End HookInput.

Module HookOutput.
Record t := { continue : bool }.
End HookOutput.

(** The argument of [mind.remember]. *)
Module Remembered.
Record t := {
  type : ObservationType;
  summary : jsstring;
  content : jsstring;
  tool : jsstring;
  metadata : Metadata.t;
}.
End Remembered.

Section PostToolUse.
Context `{CaseMapping} `{JSONParser}.

Definition generateSummary (toolName : jsstring) (toolInput : option ToolInput.t)
    (toolOutput : jsstring) : jsstring :=
  let fileName :=
    or_else (split_pop slash <$> (toolInput ≫= ToolInput.file_path)) (lit "file") in
  if bool_decide (toolName = lit "Read") then
    let lines := length (split LF toolOutput) in
    lit "Read " ++ fileName ++ lit " (" ++ Number_toString lines ++ lit " lines)"
  else if bool_decide (toolName = lit "Edit") then lit "Edited " ++ fileName
  else if bool_decide (toolName = lit "Write") then lit "Created " ++ fileName
  else if bool_decide (toolName = lit "Bash") then
    let cmd := toolInput ≫= ToolInput.command in
    let shortCmd :=
      or_else ((λ c, slice0 50 (default [] (head (split LF c)))) <$> cmd)
              (lit "command") in
    let hasError :=
      includes (toLowerCase toolOutput) (lit "error") ||
      includes (toLowerCase toolOutput) (lit "failed") in
    if hasError then lit "Command failed: " ++ shortCmd else lit "Ran: " ++ shortCmd
  else if bool_decide (toolName = lit "Grep") then
    let pattern := toolInput ≫= ToolInput.pattern in
    let matches := length (filter_Boolean (split LF toolOutput)) in
    lit "Found " ++ Number_toString matches ++ lit " matches for " ++
      [dquote] ++ template (slice0 30 <$> pattern) ++ [dquote]
  else if bool_decide (toolName = lit "Glob") then
    let pattern := toolInput ≫= ToolInput.pattern in
    let matches := length (filter_Boolean (split LF toolOutput)) in
    lit "Found " ++ Number_toString matches ++ lit " files matching " ++
      [dquote] ++ template (slice0 30 <$> pattern) ++ [dquote]
  else if bool_decide (toolName ∈ [lit "WebFetch"; lit "WebSearch"]) then
    let url := or_undef (toolInput ≫= ToolInput.url) (toolInput ≫= ToolInput.query) in
    lit "Fetched: " ++ template (slice0 50 <$> url)
  else toolName ++ lit " completed".

Definition extractMetadata (toolName : jsstring) (toolInput : option ToolInput.t)
    : Metadata.t :=
  let metadata := Metadata.empty in
  match toolInput with
  | None => metadata
  | Some toolInput =>
      if bool_decide (toolName ∈ [lit "Read"; lit "Edit"; lit "Write"]) then
        match ToolInput.file_path toolInput with
        | Some (c :: p) => Metadata.set_files [c :: p] metadata
        | _ => metadata
        end
      else if bool_decide (toolName = lit "Bash") then
        match ToolInput.command toolInput with
        | Some (c :: cmd) => Metadata.set_command (slice0 200 (c :: cmd)) metadata
        | _ => metadata
        end
      else if bool_decide (toolName ∈ [lit "Grep"; lit "Glob"]) then
        let metadata :=
          match ToolInput.pattern toolInput with
          | Some (c :: p) => Metadata.set_pattern (c :: p) metadata
          | _ => metadata
          end in
        match ToolInput.path toolInput with
        | Some (c :: p) => Metadata.set_searchPath (c :: p) metadata
        | _ => metadata
        end
      else metadata
  end.

(** [tool_output]: the response if it is a string, else its JSON text. *)
Definition tool_output_of (r : ToolResponse) : option jsstring :=
  match r with
  | ResponseString s => Some s
  | ResponseOther stringified => stringified
  end.

(** [effectiveOutput]: the output, or for an always-captured tool with
    a short output the synthetic body. *)
Definition effectiveOutput_of (tool_name : jsstring) (tool_input : option ToolInput.t)
    (tool_output : option jsstring) : jsstring :=
  let alwaysCapture := bool_decide (tool_name ∈ ALWAYS_CAPTURE_TOOLS) in
  let effectiveOutput := or_else tool_output [] in
  if alwaysCapture && bool_decide (length effectiveOutput < MIN_OUTPUT_LENGTH) then
    let filePath := or_else (tool_input ≫= ToolInput.file_path) (lit "unknown file") in
    let fileName := or_else (Some (split_pop slash filePath)) (lit "file") in
    lit "File modified: " ++ fileName ++ [LF] ++
    lit "Path: " ++ filePath ++ [LF] ++
    lit "Tool: " ++ tool_name
  else effectiveOutput.

(** The [content] handed to [mind.remember]. *)
Definition content_of (compressed : jsstring) : jsstring :=
  if bool_decide (MAX_OUTPUT_LENGTH < length compressed)
  then slice0 MAX_OUTPUT_LENGTH compressed ++ [LF] ++ lit "... (compressed)"
  else compressed.

(** The record the hook would remember for an event that passed the
    gates; [None] when compression raises, which [main] catches. *)
Definition observe (tool_name : jsstring) (tool_input : option ToolInput.t)
    (effectiveOutput : jsstring) : option Remembered.t :=
  result ← compressToolOutput tool_name tool_input effectiveOutput;
  let compressed := CompressionResult.compressed result in
  let wasCompressed := CompressionResult.wasCompressed result in
  let originalSize := CompressionResult.originalSize result in
  let observationType := classifyObservationType tool_name compressed in
  let summary := generateSummary tool_name tool_input effectiveOutput in
  let content := content_of compressed in
  let metadata := extractMetadata tool_name tool_input in
  let metadata :=
    if wasCompressed
    then Metadata.set_compression originalSize (length compressed) metadata
    else metadata in
  Some {| Remembered.type := observationType;
          Remembered.summary := summary;
          Remembered.content := content;
          Remembered.tool := tool_name;
          Remembered.metadata := metadata |}.

(** The hook, run on the parsed event ([None] when standard input is
    not JSON) against the records remembered so far.  Every path ends
    in [writeOutput({ continue: true })]; the store is taken to accept
    what it is given. *)
Definition main (hookInput : option HookInput.t) (memory : list Remembered.t)
    : list Remembered.t * HookOutput.t :=
  let done := {| HookOutput.continue := true |} in
  match hookInput with
  | None => (memory, done)
  | Some hookInput =>
      match HookInput.tool_name hookInput with
      | None => (memory, done)
      | Some tool_name =>
          if negb (truthy (Some tool_name)) ||
             negb (bool_decide (tool_name ∈ OBSERVED_TOOLS))
          then (memory, done)
          else
            let tool_input := HookInput.tool_input hookInput in
            let tool_output := tool_output_of (HookInput.tool_response hookInput) in
            let alwaysCapture := bool_decide (tool_name ∈ ALWAYS_CAPTURE_TOOLS) in
            if negb alwaysCapture &&
               (negb (truthy tool_output) ||
                bool_decide (length (default [] tool_output) < MIN_OUTPUT_LENGTH))
            then (memory, done)
            else
              let effectiveOutput := effectiveOutput_of tool_name tool_input tool_output in
              if includes effectiveOutput (lit "<system-reminder>") ||
                 includes effectiveOutput (lit "<memvid-mind-context>")
              then (memory, done)
              else
                match observe tool_name tool_input effectiveOutput with
                | Some observation => (memory ++ [observation], done)
                | None => (memory, done)
                end
      end
  end.
End PostToolUse.

(** ** src/core/mind.ts *)

(** A frame as the store returns it. *)
Module Frame.
Record t := {
  metadata : option Metadata.t;
  frame_id : option jsstring;
  timestamp : option Z;
  label : option jsstring;
  title : option jsstring;
  preview : option jsstring;
  text : option jsstring;
}.
End Frame.

(** The store answers [timeline] with an array or with an object that
    may carry [frames]; [find] answers with the latter. *)
Inductive Frames :=
  | FramesArray (frames : list Frame.t)
  | FramesObject (frames : option (list Frame.t)).

Module Memvid.
Record t := {
  timeline : Z → bool → Frames;     (* timeline({ limit, reverse }) *)
  find : jsstring → Z → Frames;     (* find(query, { k, mode: "lex" }) *)
}.
End Memvid.

Module Mind.
Record t := {
  memvid : Memvid.t;
  config : MindConfig.t;
  sessionId : jsstring;
}.
End Mind.

(** [a || b || 0] on numbers. *)
Definition first_nonzero (a b : option Z) : Z :=
  match a with
  | Some (Zpos _ as x) | Some (Zneg _ as x) => x
  | _ => default 0%Z b
  end.

(** [/^\[.*?\]\s*/] *)
Definition title_tag : regex :=
  sequence [Bos; Chars (lit "["); LazyStar dot; Chars (lit "]"); Star ws].

(** The frame-to-observation mapping of [getContext]. *)
Definition observation_of_frame (frame : Frame.t) : Observation.t :=
  let ts := first_nonzero (Frame.metadata frame ≫= Metadata.timestamp)
                          (Frame.timestamp frame) in
  let ts := if bool_decide (0 < ts ∧ ts < 4102444800)%Z then (ts * 1000)%Z else ts in
  {| Observation.id :=
       or_undef (Frame.metadata frame ≫= Metadata.observationId) (Frame.frame_id frame);
     Observation.timestamp := ts;
     Observation.type :=
       Some (or_else (or_undef (Frame.label frame)
                               (Frame.metadata frame ≫= Metadata.type))
                     (lit "observation"));
     Observation.tool := Frame.metadata frame ≫= Metadata.tool;
     Observation.summary :=
       or_else (or_undef ((λ t, replace_empty t title_tag) <$> Frame.title frame)
                         (slice0 100 <$> Frame.preview frame)) [];
     Observation.content :=
       or_else (or_undef (Frame.text frame) (Frame.preview frame)) [];
     Observation.metadata := Frame.metadata frame |}.

(** The observation inside a hit of [search]. *)
Definition observation_of_hit (frame : Frame.t) : Observation.t :=
  {| Observation.id :=
       or_undef (Frame.metadata frame ≫= Metadata.observationId) (Frame.frame_id frame);
     Observation.timestamp :=
       first_nonzero (Frame.metadata frame ≫= Metadata.timestamp) None;
     Observation.type := Frame.label frame;
     Observation.tool := Frame.metadata frame ≫= Metadata.tool;
     Observation.summary :=
       or_else ((λ t, replace_empty t title_tag) <$> Frame.title frame) [];
     Observation.content := or_else (Frame.text frame) [];
     Observation.metadata := Frame.metadata frame |}.

(** [Array.isArray(x) ? x : x.frames || []] *)
Definition frames_of (answer : Frames) : list Frame.t :=
  match answer with
  | FramesArray frames => frames
  | FramesObject frames => default [] frames
  end.

Definition search (mind : Mind.t) (query : jsstring) (limit : Z) : list Observation.t :=
  observation_of_hit <$> frames_of (Memvid.find (Mind.memvid mind) query limit).

(** [`[${obs.type}] ${obs.summary}`] *)
Definition context_line (obs : Observation.t) : jsstring :=
  lit "[" ++ template (Observation.type obs) ++ lit "] " ++ Observation.summary obs.

(** The budget loop: [contextParts] and [tokenCount] after walking the
    observations until the first one that does not fit. *)
Fixpoint within_budget (maxContextTokens : Z) (recentObservations : list Observation.t)
    (contextParts : list jsstring) (tokenCount : Z) : list jsstring * Z :=
  match recentObservations with
  | [] => (contextParts, tokenCount)
  | obs :: rest =>
      let text := context_line obs in
      let tokens := estimateTokens text in
      if (maxContextTokens <? tokenCount + tokens)%Z
      then (contextParts, tokenCount)
      else within_budget maxContextTokens rest (contextParts ++ [text]) (tokenCount + tokens)%Z
  end.

Definition getContext (mind : Mind.t) (query : option jsstring) : InjectedContext.t :=
  let timeline :=
    Memvid.timeline (Mind.memvid mind)
      (MindConfig.maxContextObservations (Mind.config mind)) true in
  let frames := frames_of timeline in
  let recentObservations := observation_of_frame <$> frames in
  let relevantMemories :=
    match query with
    | Some (c :: q) => search mind (c :: q) 10
    | _ => []
    end in
  let '(contextParts, tokenCount) :=
    within_budget (MindConfig.maxContextTokens (Mind.config mind))
                  recentObservations [] 0%Z in
  {| InjectedContext.recentObservations := recentObservations;
     InjectedContext.relevantMemories := relevantMemories;
     InjectedContext.sessionSummaries := [];
     InjectedContext.tokenCount := tokenCount |}.

(** ** src/hooks/stop.ts *)

Module SessionSummaryDraft.
Record t := {
  keyDecisions : list jsstring;
  filesModified : list jsstring;
  summary : jsstring;
}.
End SessionSummaryDraft.

(** The pattern table of the transcript scan.
    /(?:Read|Edit|Write)[^\x22]*\x22([^\x22]+)\x22/g
    /file_path[\x22\s:]+([^\s\x22]+)/g *)
Definition transcript_patterns : list regex := [
  sequence [keyword ["Read"; "Edit"; "Write"]%string; Star (none_of [dquote]); Chars [dquote];
            Group 1 (Plus (none_of [dquote])); Chars [dquote]];
  sequence [Chars (lit "file_path");
            Plus (Class (λ c, is_space c || bool_decide (c ∈ [dquote; 58%N])));
            Group 1 (Plus (none_of_or_space [dquote]))]
].

Section Stop.
Context `{CaseMapping}.

Definition is_key_decision (obs : Observation.t) : bool :=
  bool_decide (Observation.type obs = Some (lit "decision")) ||
  includes (toLowerCase (Observation.summary obs)) (lit "chose") ||
  includes (toLowerCase (Observation.summary obs)) (lit "decided").

(** The paths the transcript scan adds, in the order it adds them. *)
Definition transcript_paths (transcript : option jsstring) : list jsstring :=
  match transcript with
  | Some (c :: t) =>
      pushed_by transcript_patterns
        (λ m, match group m 1 with
              | Some (c :: path) =>
                  if negb (includes (c :: path) (lit "node_modules")) &&
                     negb (startsWith (c :: path) (lit "."))
                  then [c :: path] else []
              | _ => []
              end)
        (c :: t)
  | _ => []
  end.

(** [typeCounts], keyed by the type as a property name.  Only the six
    keys below are ever read back. *)
Definition typeCounts_of (observations : list Observation.t) : gmap jsstring nat :=
  foldl (λ typeCounts obs,
           let key := template (Observation.type obs) in
           <[key := default 0 (typeCounts !! key) + 1]> typeCounts)
        ∅ observations.

(** [if (typeCounts.key) summaryParts.push(`before${typeCounts.key}after`)] *)
Definition clause (typeCounts : gmap jsstring nat) (before key after : string)
    : list jsstring :=
  match typeCounts !! lit key with
  | Some (S n) => [lit before ++ Number_toString (S n) ++ lit after]
  | _ => []
  end.

(** [keyDecisions] and [filesModified] as the scans leave them, before
    the final [slice]s. *)
Definition keyDecisions_of (observations : list Observation.t) : list jsstring :=
  Observation.summary <$> filter (λ obs, is_key_decision obs) observations.

Definition observed_files (observations : list Observation.t) : list jsstring :=
  obs ← observations; default [] (Observation.metadata obs ≫= Metadata.files).

Definition filesModified_of (observations : list Observation.t)
    (transcript : option jsstring) : list jsstring :=
  Set_of (observed_files observations ++ transcript_paths transcript).

Definition generateSessionSummary (observations : list Observation.t)
    (transcript : option jsstring) : SessionSummaryDraft.t :=
  let keyDecisions := keyDecisions_of observations in
  let filesModified := filesModified_of observations transcript in
  let typeCounts := typeCounts_of observations in
  let summaryParts :=
    clause typeCounts "Added " "feature" " feature(s)" ++
    clause typeCounts "Fixed " "bugfix" " bug(s)" ++
    clause typeCounts "Refactored " "refactor" " item(s)" ++
    clause typeCounts "Made " "discovery" " discovery(ies)" ++
    clause typeCounts "Encountered " "problem" " problem(s)" ++
    clause typeCounts "Found " "solution" " solution(s)" in
  let summary :=
    if bool_decide (0 < length summaryParts)
    then join (lit ". ") summaryParts ++ lit "."
    else lit "Session with " ++ Number_toString (length observations) ++
         lit " observations." in
  {| SessionSummaryDraft.keyDecisions := slice0 10 keyDecisions;
     SessionSummaryDraft.filesModified := slice0 20 filesModified;
     SessionSummaryDraft.summary := summary |}.
End Stop.

(** ** More of src/utils/helpers.ts *)

(** [x.slice(0, end)] for any integer [end]: a negative one counts from
    the end of [x]. *)
Definition slice_to {A} (e : Z) (x : list A) : list A :=
  if (e <? 0)%Z then take (Z.to_nat (Z.of_nat (length x) + e)) x
  else take (Z.to_nat e) x.

Definition truncateToTokens (text : jsstring) (maxTokens : Z) : jsstring :=
  let maxChars := (maxTokens * 4)%Z in
  if (Z.of_nat (length text) <=? maxChars)%Z then text
  else slice_to (maxChars - 3) text ++ lit "...".

Definition extractFileReadSummary (output : jsstring) : jsstring :=
  let lines := split LF output in
  if bool_decide (length lines ≤ 20) then output
  else join [LF] (slice0 10 lines) ++ [LF] ++ lit "... (" ++
       Number_toString (length lines) ++ lit " lines total)".

Definition extractBashSummary (output : jsstring) : jsstring :=
  let lines := split LF output in
  if bool_decide (length lines ≤ 30) then output
  else join [LF]
         (slice0 10 lines
          ++ [lit "... (" ++ Number_toString (length lines - 20) ++ lit " lines omitted)"]
          ++ slice_last 10 lines).

Definition extractEditSummary (output : jsstring) : jsstring := output.

Definition extractSearchSummary (output : jsstring) : jsstring :=
  let lines := filter_Boolean (split LF output) in
  if bool_decide (length lines ≤ 20) then output
  else join [LF]
         (slice0 15 lines
          ++ [lit "... and " ++ Number_toString (length lines - 15) ++ lit " more results"]).

Definition extractKeyInfo (toolName output : jsstring) : jsstring :=
  let maxLength := 2000 in
  let truncated :=
    if bool_decide (maxLength < length output)
    then slice0 maxLength output ++ [LF] ++ lit "... (truncated)"
    else output in
  if bool_decide (toolName = lit "Read") then extractFileReadSummary truncated
  else if bool_decide (toolName = lit "Bash") then extractBashSummary truncated
  else if bool_decide (toolName = lit "Edit") then extractEditSummary truncated
  else if bool_decide (toolName ∈ [lit "Grep"; lit "Glob"])
  then extractSearchSummary truncated
  else truncated.



(** ** More of src/core/mind.ts *)

(** The record [mind.remember] and [mind.saveSessionSummary] hand to
    [memvid.put]. *)
Module PutRequest.
Record t := {
  title : jsstring;
  label : jsstring;
  text : jsstring;
  metadata : Metadata.t;
  tags : list jsstring;
}.
End PutRequest.

(** [{ ...base, ...over }] on the keys of a metadata record: a key of
    [over] wins. *)
Definition spread_metadata (base over : Metadata.t) : Metadata.t :=
  let pick {A} (key : Metadata.t → option A) : option A :=
    match key over with Some v => Some v | None => key base end in
  {| Metadata.files := pick Metadata.files;
     Metadata.command := pick Metadata.command;
     Metadata.pattern := pick Metadata.pattern;
     Metadata.searchPath := pick Metadata.searchPath;
     Metadata.compressed := pick Metadata.compressed;
     Metadata.originalSize := pick Metadata.originalSize;
     Metadata.compressedSize := pick Metadata.compressedSize;
     Metadata.sessionId := pick Metadata.sessionId;
     Metadata.observationId := pick Metadata.observationId;
     Metadata.timestamp := pick Metadata.timestamp;
     Metadata.tool := pick Metadata.tool;
     Metadata.type := pick Metadata.type |}.

(** The request of [mind.remember(input)], for the identifier [id] that
    [generateId()] drew and the instant [now] that [Date.now()] read. *)
Definition remember_request (mind : Mind.t) (id : jsstring) (now : Z)
    (input : Remembered.t) : PutRequest.t :=
  let type := type_name (Remembered.type input) in
  let observation_metadata :=
    spread_metadata (Remembered.metadata input)
      {| Metadata.files := None; Metadata.command := None; Metadata.pattern := None;
         Metadata.searchPath := None; Metadata.compressed := None;
         Metadata.originalSize := None; Metadata.compressedSize := None;
         Metadata.sessionId := Some (Mind.sessionId mind);
         Metadata.observationId := None; Metadata.timestamp := None;
         Metadata.tool := None; Metadata.type := None |} in
  {| PutRequest.title := lit "[" ++ type ++ lit "] " ++ Remembered.summary input;
     PutRequest.label := type;
     PutRequest.text := Remembered.content input;
     PutRequest.metadata :=
       spread_metadata
         {| Metadata.files := None; Metadata.command := None; Metadata.pattern := None;
            Metadata.searchPath := None; Metadata.compressed := None;
            Metadata.originalSize := None; Metadata.compressedSize := None;
            Metadata.sessionId := Some (Mind.sessionId mind);
            Metadata.observationId := Some id; Metadata.timestamp := Some now;
            Metadata.tool := Some (Remembered.tool input); Metadata.type := None |}
         observation_metadata;
     PutRequest.tags := filter_Boolean [type; Remembered.tool input] |}.

(** The request of [mind.saveSessionSummary(summary)].  [isoNow] is
    [new Date().toISOString()] and [text] is
    [JSON.stringify(sessionSummary, null, 2)], both taken as given.  The
    metadata is the session summary itself: its keys ([id], [startTime],
    [endTime], [observationCount], [keyDecisions], [filesModified],
    [summary]) are none of those the code ever reads back from a frame's
    metadata. *)
Definition saveSessionSummary_request (isoNow text : jsstring) : PutRequest.t :=
  {| PutRequest.title :=
       lit "Session Summary: " ++ template (head (split 84%N isoNow));
     PutRequest.label := lit "session";
     PutRequest.text := text;
     PutRequest.metadata := Metadata.empty;
     PutRequest.tags := [lit "session"; lit "summary"] |}.

(** ** More of src/hooks/stop.ts *)

Definition MIN_OBSERVATIONS_FOR_SUMMARY : nat := 3.

Module StopHook.
Section Main.
Context `{CaseMapping}.

(** [context.recentObservations.filter((obs) =>
      obs.metadata?.sessionId === mind.getSessionId())] *)
Definition sessionObservations (mind : Mind.t) (context : InjectedContext.t)
    : list Observation.t :=
  filter (λ obs, Observation.metadata obs ≫= Metadata.sessionId
                 = Some (Mind.sessionId mind))
         (InjectedContext.recentObservations context).

(** What [main] hands to [mind.saveSessionSummary], if anything, once
    the file changes are captured and the transcript is read
    ([transcriptContent] is empty when there is none). *)
Definition main (mind : Mind.t) (transcriptContent : jsstring)
    : option SessionSummaryDraft.t :=
  let context := getContext mind None in
  let sessionObservations := sessionObservations mind context in
  if bool_decide (MIN_OBSERVATIONS_FOR_SUMMARY ≤ length sessionObservations)
  then Some (generateSessionSummary sessionObservations (Some transcriptContent))
  else None.
End Main.
End StopHook.

(** ** src/hooks/session-start.ts *)

Definition MAX_RECENT_MEMORIES : Z := 8.
Definition MAX_RELEVANT_MEMORIES : nat := 5.

Module SessionStart.

(** [obs.tool === "FileEdit" || obs.tool === "FileChanges" ||
     obs.tool === "Edit" || obs.tool === "Write"] *)
Definition is_file_edit (obs : Observation.t) : bool :=
  bool_decide (Observation.tool obs = Some (lit "FileEdit")) ||
  bool_decide (Observation.tool obs = Some (lit "FileChanges")) ||
  bool_decide (Observation.tool obs = Some (lit "Edit")) ||
  bool_decide (Observation.tool obs = Some (lit "Write")).

(** [obs.tool !== "FileEdit" && obs.tool !== "FileChanges" &&
     obs.tool !== "Bash" && !obs.summary.includes("Command:")] *)
Definition is_other (obs : Observation.t) : bool :=
  negb (bool_decide (Observation.tool obs = Some (lit "FileEdit"))) &&
  negb (bool_decide (Observation.tool obs = Some (lit "FileChanges"))) &&
  negb (bool_decide (Observation.tool obs = Some (lit "Bash"))) &&
  negb (includes (Observation.summary obs) (lit "Command:")).

Definition fileEdits (recentObservations : list Observation.t) : list Observation.t :=
  filter (λ obs, is_file_edit obs) recentObservations.

Definition otherObs (recentObservations : list Observation.t) : list Observation.t :=
  filter (λ obs, is_other obs) recentObservations.

(** The observations the two loops of "Recent Activity" print a line
    for: [fileEdits.slice(0, 5)] under "Files Edited" and
    [otherObs.slice(0, MAX_RECENT_MEMORIES - fileEdits.length)] under
    "Other Activity". *)
Definition shown_file_edits (recentObservations : list Observation.t)
    : list Observation.t :=
  slice0 5 (fileEdits recentObservations).

Definition shown_other (recentObservations : list Observation.t)
    : list Observation.t :=
  slice_to (MAX_RECENT_MEMORIES - Z.of_nat (length (fileEdits recentObservations)))
           (otherObs recentObservations).

(** [context.relevantMemories.slice(0, MAX_RELEVANT_MEMORIES)] *)
Definition shown_relevant (context : InjectedContext.t) : list Observation.t :=
  slice0 MAX_RELEVANT_MEMORIES (InjectedContext.relevantMemories context).

(** [x.toFixed(1)] for [x = units / unit] with [unit] a power of two,
    which the division computes exactly: the tenths nearest to [x], the
    larger ones on a tie, then the decimal point ahead of the last
    digit. *)
Definition toFixed1 (units unit : nat) : jsstring :=
  let tenths := (10 * units + unit / 2) / unit in
  Number_toString (tenths / 10) ++ lit "." ++ Number_toString (tenths mod 10).

Definition formatFileSize (bytes : nat) : jsstring :=
  if bool_decide (bytes < 1024) then Number_toString bytes ++ lit " B"
  else if bool_decide (bytes < 1024 * 1024)
  then toFixed1 bytes 1024 ++ lit " KB"
  else toFixed1 bytes (1024 * 1024) ++ lit " MB".

End SessionStart.

(** ** Statements of the specification *)

(** The gates an event has to pass before the post-tool-use hook stores
    it, as the specification words them. *)
Definition passes_gates (event : HookInput.t) : Prop :=
  ∃ tool_name,
    HookInput.tool_name event = Some tool_name ∧
    tool_name ∈ OBSERVED_TOOLS ∧
    let output := default [] (tool_output_of (HookInput.tool_response event)) in
    (tool_name ∈ ALWAYS_CAPTURE_TOOLS ∨ 50 ≤ length output) ∧
    let effectiveOutput :=
      effectiveOutput_of tool_name (HookInput.tool_input event)
        (tool_output_of (HookInput.tool_response event)) in
    includes effectiveOutput (lit "<system-reminder>") = false ∧
    includes effectiveOutput (lit "<memvid-mind-context>") = false.

(** [result] lists the distinct values of [raw] in the order of their
    first occurrence: no value twice, none left out, and ahead of a value
    exactly the values that occur before it in [raw]. *)
Definition first_occurrences {A} (raw result : list A) : Prop :=
  NoDup result ∧
  (∀ x, x ∈ result ↔ x ∈ raw) ∧
  ∀ before y after, raw = before ++ y :: after → y ∉ before →
    ∃ front rest, result = front ++ y :: rest ∧ ∀ x, x ∈ front ↔ x ∈ before.

(** The estimated tokens of a list of observations. *)
Definition tokens_of (observations : list Observation.t) : Z :=
  foldr (λ obs total, estimateTokens (context_line obs) + total)%Z 0%Z observations.

(** How many observations the budget loop counted. *)
Definition counted (maxContextTokens : Z) (recentObservations : list Observation.t) : nat :=
  length (within_budget maxContextTokens recentObservations [] 0%Z).1.

(** The same mind under another token budget. *)
Definition with_budget (maxContextTokens : Z) (mind : Mind.t) : Mind.t :=
  {| Mind.memvid := Mind.memvid mind;
     Mind.config :=
       {| MindConfig.maxContextObservations :=
            MindConfig.maxContextObservations (Mind.config mind);
          MindConfig.maxContextTokens := maxContextTokens |};
     Mind.sessionId := Mind.sessionId mind |}.

(** A matcher progresses by [n] when every result it produces comes
    from its continuation, called at least [n] code units further on,
    with the input that is left there. *)
Definition progresses {R : Type} (n : nat)
    (matcher : cont (R:=R) → nat → jsstring → captures → option R) : Prop :=
  ∀ k pos s caps res, matcher k pos s caps = Some res →
    ∃ pos' s' caps', k pos' s' caps' = Some res ∧
      pos + n ≤ pos' ∧ pos' + length s' = pos + length s.

(** The runs of a scanning loop
    [while ((match = pattern.exec(code)) !== null) ...] that come to an
    end, with the matches they go through: the loop stops when [exec]
    finds nothing, and otherwise resumes where the match ended. *)
Inductive scans (r : regex) (s : jsstring) : nat → list MatchResult → Prop :=
  | scans_done from :
      exec r s from = None → scans r s from []
  | scans_step from m ms :
      exec r s from = Some m → scans r s (lastIndex m) ms → scans r s from (m :: ms).

(** ** Sample inputs *)

(** [prefix0], [prefix1], ... *)
Definition numbered (prefix : string) (n : nat) : list jsstring :=
  (λ i, lit prefix ++ Number_toString i) <$> seq 0 n.

(** A tool event with a string response and an input without fields. *)
Definition event (tool_name : string) (output : jsstring) : HookInput.t :=
  {| HookInput.tool_name := Some (lit tool_name);
     HookInput.tool_input := Some ToolInput.empty;
     HookInput.tool_response := ResponseString output |}.

Definition short_output : jsstring := lit "ok".
Definition output_60 : jsstring := replicate 60 97%N.
Definition output_2600 : jsstring := replicate 2600 97%N.
Definition output_3001 : jsstring := replicate 3001 97%N.
Definition mixed_output : jsstring := lit "Build SUCCESS, then Error: exit 1".
Definition grep_output : jsstring := lit "src/a.ts:1:const a = 1".

(** A raw glob listing of 200 files under a directory called
    "constructor". *)
Definition constructor_listing : jsstring :=
  join [LF] (numbered "constructor/file" 200).

(** Texts for the extractors. *)
Definition two_todos : jsstring := lit "// TODO" ++ [LF] ++ lit "// TODO".
Definition eleven_todos : jsstring := join [LF] (numbered "// TODO " 11).
Definition twelve_functions : jsstring := join [LF] (numbered "function f" 12).

(** A store whose timeline holds thirty frames of fifty tokens each: the
    line "[discovery] " and 188 more code units. *)
Definition frame_50 : Frame.t :=
  {| Frame.metadata := None; Frame.frame_id := None; Frame.timestamp := None;
     Frame.label := Some (lit "discovery");
     Frame.title := Some (replicate 188 120%N);
     Frame.preview := None; Frame.text := None |}.

Definition thirty_of_50 : list Observation.t :=
  replicate 30 (observation_of_frame frame_50).

Definition mind_30 : Mind.t :=
  {| Mind.memvid :=
       {| Memvid.timeline := λ _ _, FramesArray (replicate 30 frame_50);
          Memvid.find := λ _ _, FramesObject None |};
     Mind.config :=
       {| MindConfig.maxContextObservations := 30;
          MindConfig.maxContextTokens := 220 |};
     Mind.sessionId := lit "0123456789abcdef" |}.

(** The observations of a session. *)
Definition observation (type summary : string) (files : option (list jsstring))
    : Observation.t :=
  {| Observation.id := None; Observation.timestamp := 0;
     Observation.type := Some (lit type);
     Observation.tool := None;
     Observation.summary := lit summary;
     Observation.content := [];
     Observation.metadata :=
       Some match files with
            | Some files => Metadata.set_files files Metadata.empty
            | None => Metadata.empty
            end |}.

Definition chose_postgres : Observation.t :=
  observation "decision" "Chose Postgres over MySQL" None.
Definition edited_a : Observation.t :=
  observation "refactor" "Edited a.ts" (Some [lit "a.ts"]).
Definition created_b : Observation.t :=
  observation "feature" "Created b.ts" (Some [lit "b.ts"]).
Definition read_schema : Observation.t :=
  observation "discovery" "Read schema.sql (40 lines)" None.

Definition session_of_four : list Observation.t :=
  [chose_postgres; edited_a; created_b; read_schema].

(** ** Further statements and samples *)

(** The directory the glob renderer files [f] under: what is ahead of
    the last slash, or "/" when that is empty. *)
Definition directory_of (f : jsstring) : jsstring :=
  or_else (Some (join [slash] (slice_but_last 1 (split slash f)))) [slash].

(** The loop that fills [byDir], from the empty object. *)
Definition grouped (files : list jsstring) : option (list (jsstring * list jsstring)) :=
  foldl (λ acc f, acc ≫= λ byDir, byDir_push byDir f) (Some []) files.

(** The number of files [byDir] holds. *)
Definition entries_total (byDir : list (jsstring * list jsstring)) : nat :=
  sum_list ((λ entry, length entry.2) <$> byDir).

(** What the loop keeps true of [byDir] after [n] files: no directory
    twice, [n] files in all, none of the lists empty and none of the
    directories named like an inherited member. *)
Definition grouping_of (n : nat) (byDir : list (jsstring * list jsstring)) : Prop :=
  NoDup byDir.*1 ∧ entries_total byDir = n ∧
  ∀ entry, entry ∈ byDir → entry.2 ≠ [] ∧ entry.1 ∉ Object_prototype_names.

(** A listing of three files in two directories. *)
Definition three_files : list jsstring :=
  [lit "src/a.ts"; lit "test/a.test.ts"; lit "src/b.ts"].

(** A frame that carries what a request put: the store is taken to
    hand back the title, the label, the text and the metadata as they
    were given to it. *)
Definition carries (request : PutRequest.t) (frame : Frame.t) : Prop :=
  Frame.title frame = Some (PutRequest.title request) ∧
  Frame.label frame = Some (PutRequest.label request) ∧
  Frame.text frame = Some (PutRequest.text request) ∧
  Frame.metadata frame = Some (PutRequest.metadata request).

(** The frame of a request, as a store that keeps nothing else would
    return it. *)
Definition frame_of (request : PutRequest.t) : Frame.t :=
  {| Frame.metadata := Some (PutRequest.metadata request);
     Frame.frame_id := None; Frame.timestamp := None;
     Frame.label := Some (PutRequest.label request);
     Frame.title := Some (PutRequest.title request);
     Frame.preview := None;
     Frame.text := Some (PutRequest.text request) |}.

(** A mind over an empty store. *)
Definition fresh_mind (sessionId : string) : Mind.t :=
  {| Mind.memvid :=
       {| Memvid.timeline := λ _ _, FramesArray [];
          Memvid.find := λ _ _, FramesObject None |};
     Mind.config := DEFAULT_CONFIG;
     Mind.sessionId := lit sessionId |}.

(** A record to remember whose summary starts with two blanks. *)
Definition indented_note : Remembered.t :=
  {| Remembered.type := Decision;
     Remembered.summary := lit "  Chose Postgres";
     Remembered.content := lit "Postgres has the extensions we need.";
     Remembered.tool := lit "Note";
     Remembered.metadata := Metadata.empty |}.

(** How many observations have the type [key]. *)
Definition count_type (key : jsstring) (observations : list Observation.t) : nat :=
  length (filter (λ obs, template (Observation.type obs) = key) observations).

(** A clause of the narrative for a count of [n]. *)
Definition narrative_clause (before : string) (n : nat) (after : string)
    : list jsstring :=
  match n with
  | 0 => []
  | S _ => [lit before ++ Number_toString n ++ lit after]
  end.

(** The clauses of the narrative for the given counts, in order. *)
Definition narrative_clauses (count : string → nat) : list jsstring :=
  narrative_clause "Added " (count "feature"%string) " feature(s)" ++
  narrative_clause "Fixed " (count "bugfix"%string) " bug(s)" ++
  narrative_clause "Refactored " (count "refactor"%string) " item(s)" ++
  narrative_clause "Made " (count "discovery"%string) " discovery(ies)" ++
  narrative_clause "Encountered " (count "problem"%string) " problem(s)" ++
  narrative_clause "Found " (count "solution"%string) " solution(s)".

(** The types the narrative has a clause for. *)
Definition narrated_types : list jsstring :=
  lit <$> ["feature"; "bugfix"; "refactor"; "discovery"; "problem"; "solution"]%string.

(** A mind whose timeline returns the given frames. *)
Definition mind_over (sessionId : string) (frames : list Frame.t) : Mind.t :=
  {| Mind.memvid :=
       {| Memvid.timeline := λ _ _, FramesArray frames;
          Memvid.find := λ _ _, FramesObject None |};
     Mind.config := DEFAULT_CONFIG;
     Mind.sessionId := lit sessionId |}.

(** A record as the post-tool-use hook would store it. *)
Definition remembered (type : ObservationType) (summary : string) (file : string)
    : Remembered.t :=
  {| Remembered.type := type;
     Remembered.summary := lit summary;
     Remembered.content := lit "File modified";
     Remembered.tool := lit "Edit";
     Remembered.metadata := Metadata.set_files [lit file] Metadata.empty |}.

(** Three records remembered by the session "aaaa" and one by the
    session "bbbb", as their frames. *)
Definition four_frames : list Frame.t :=
  [frame_of (remember_request (fresh_mind "aaaa") (lit "01") 1762128000000
               (remembered Feature "Created a.ts" "a.ts"));
   frame_of (remember_request (fresh_mind "bbbb") (lit "02") 1762128000001
               (remembered Bugfix "Edited b.ts" "b.ts"));
   frame_of (remember_request (fresh_mind "aaaa") (lit "03") 1762128000002
               (remembered Refactor "Edited c.ts" "c.ts"));
   frame_of (remember_request (fresh_mind "aaaa") (lit "04") 1762128000003
               (remembered Feature "Created d.ts" "d.ts"))].

(** An observation of a file edit, as read back from the store. *)
Definition edit_observation (summary : string) : Observation.t :=
  {| Observation.id := None; Observation.timestamp := 0;
     Observation.type := Some (lit "refactor");
     Observation.tool := Some (lit "Edit");
     Observation.summary := lit summary;
     Observation.content := [];
     Observation.metadata := None |}.

Definition twenty_edits : list Observation.t :=
  replicate 20 (edit_observation "Edited a.ts").

(** Capture [i] holds a non-empty string. *)
Definition filled (i : nat) (caps : captures) : Prop :=
  ∃ v, caps !! i = Some (Some v) ∧ v ≠ [].

(** Every capture group of [r] matches at least one code unit. *)
Fixpoint solid (r : regex) : bool :=
  match r with
  | Chars _ | Class _ | Bos => true
  | Seq r1 r2 | Alt r1 r2 => solid r1 && solid r2
  | Opt r1 | Rep _ _ r1 => solid r1
  | Group _ r1 => (1 <=? min_length r1) && solid r1
  end.

(** Group [i] takes part in every match of [r]. *)
Fixpoint captures_group (i : nat) (r : regex) : bool :=
  match r with
  | Chars _ | Class _ | Bos | Opt _ => false
  | Seq r1 r2 => captures_group i r1 || captures_group i r2
  | Alt r1 r2 => captures_group i r1 && captures_group i r2
  | Rep _ min r1 => (1 <=? min) && captures_group i r1
  | Group j r1 => (i =? j) || captures_group i r1
  end.

(** A matcher tracks its captures when, besides progressing by [n], it
    hands its continuation every capture that was filled before and
    those that [sets] names. *)
Definition tracks {R : Type} (n : nat) (sets : nat → bool)
    (matcher : cont (R:=R) → nat → jsstring → captures → option R) : Prop :=
  ∀ k pos s caps res, matcher k pos s caps = Some res →
    ∃ pos' s' caps', k pos' s' caps' = Some res ∧
      pos + n ≤ pos' ∧ pos' + length s' = pos + length s ∧
      (∀ i, filled i caps → filled i caps') ∧
      ∀ i, sets i = true → filled i caps'.

(** The files the grep renderer collects from the lines of a listing,
    in the order of the set. *)
Definition grep_files (output : jsstring) : list (option jsstring) :=
  Set_of (line ← filter_Boolean (split LF output);
          match match_ line grep_file_pattern with
          | Some m => [group m 1]
          | None => []
          end).

(** A listing of grep with two matches in one file, a line without a
    colon and a line that starts with one. *)
Definition grep_listing : jsstring :=
  join [LF] [lit "src/a.ts:1:const a = 1"; lit "src/a.ts:7:a + 1";
             lit "Binary file matches"; lit ":memory:"].

(** A case mapping keeps a text when lowering a string that contains
    the text gives a string that contains it.  The runtime's mapping
    keeps every text of lower-case Basic Latin letters. *)
Definition keeps_text `{CaseMapping} (text : jsstring) : Prop :=
  ∀ s, includes s text = true → includes (toLowerCase s) text = true.

(** A case mapping lowers [text] to [lowered] when lowering a string
    that contains the one gives a string that contains the other.  The
    runtime's mapping lowers every text of Basic Latin letters to its
    lower-case form. *)
Definition lowers `{CaseMapping} (text lowered : jsstring) : Prop :=
  ∀ s, includes s text = true → includes (toLowerCase s) lowered = true.

(** A long build log with one warning in it. *)
Definition warning_log : jsstring :=
  lit "warning: unused variable" ++ [LF] ++ replicate 3000 97%N.

(** * Properties *)

(** ** Strings *)

Lemma lit_length (s : string) : length (lit s) = String.length s.
Proof. induction s; simpl; congruence. Qed.

(** ** The matcher: every scan of the extractors ends *)

Section MatcherFacts.
Context {R : Type}.

Lemma strip_prefix_length p s s' :
  strip_prefix p s = Some s' → length s = length p + length s'.
Proof.
  revert s. induction p as [|a p IH]; intros s; simpl.
  - by intros [= <-].
  - destruct s as [|c s]; [done|].
    destruct (a =? c)%N; [|done]. intros Hs. simpl. by rewrite (IH _ Hs).
Qed.

Lemma first_of_Some (a b : option R) res :
  first_of a b = Some res → a = Some res ∨ b = Some res.
Proof. destruct a; simpl; auto. Qed.

Lemma rep_loop_progresses n
    (body : cont (R:=R) → nat → jsstring → captures → option R) greedy :
  progresses n body →
  ∀ k fuel need pos s caps res,
    rep_loop body greedy k fuel need pos s caps = Some res →
    ∃ pos' s' caps', k pos' s' caps' = Some res ∧
      pos + (if need =? 0 then 0 else n) ≤ pos' ∧
      pos' + length s' = pos + length s.
Proof.
  intros Hbody k fuel.
  induction fuel as [|fuel IH]; intros need pos s caps res Hres.
  - simpl in Hres. destruct need as [|need]; simpl in Hres; [|done].
    exists pos, s, caps. simpl. split; [|lia].
    by destruct greedy, (k pos s caps).
  - simpl in Hres.
    assert (Hagain : ∀ res',
      body (λ pos' s' caps',
              if (0 <? need) || (pos <? pos')
              then rep_loop body greedy k fuel (pred need) pos' s' caps'
              else None) pos s caps = Some res' →
      ∃ pos' s' caps', k pos' s' caps' = Some res' ∧
        pos + n ≤ pos' ∧ pos' + length s' = pos + length s).
    { intros res' Hb. apply Hbody in Hb as (pos1 & s1 & caps1 & Hk & Hpos & Hlen).
      destruct ((0 <? need) || (pos <? pos1)); [|done].
      apply IH in Hk as (pos' & s' & caps' & Hk & Hpos' & Hlen').
      exists pos', s', caps'. split; [done|]. lia. }
    destruct need as [|need]; simpl in Hres.
    + destruct greedy; apply first_of_Some in Hres as [Hres|Hres];
        try (exists pos, s, caps; simpl; split; [done|lia]);
        apply Hagain in Hres as (pos' & s' & caps' & ? & ? & ?);
        exists pos', s', caps'; simpl; (split; [done|lia]).
    + apply Hagain in Hres as (pos' & s' & caps' & ? & ? & ?).
      exists pos', s', caps'. simpl. split; [done|lia].
Qed.

Lemma run_progresses r : progresses (R:=R) (min_length r) (run r).
Proof.
  induction r as [l|p|r1 IH1 r2 IH2|r1 IH1 r2 IH2|r1 IH1|greedy min r1 IH1|i r1 IH1|];
    intros k pos s caps res Hres; simpl in Hres.
  - destruct (strip_prefix l s) as [s'|] eqn:Hs; [|done].
    apply strip_prefix_length in Hs. exists (pos + length l), s', caps.
    simpl. split; [done|lia].
  - destruct s as [|c s]; [done|]. destruct (p c); [|done].
    exists (S pos), s, caps. simpl. split; [done|lia].
  - apply IH1 in Hres as (pos1 & s1 & caps1 & Hres & ? & ?).
    apply IH2 in Hres as (pos2 & s2 & caps2 & Hres & ? & ?).
    exists pos2, s2, caps2. simpl. split; [done|lia].
  - apply first_of_Some in Hres as [Hres|Hres];
      [apply IH1 in Hres | apply IH2 in Hres];
      destruct Hres as (pos' & s' & caps' & ? & ? & ?);
      exists pos', s', caps'; simpl; (split; [done|lia]).
  - apply first_of_Some in Hres as [Hres|Hres].
    + apply IH1 in Hres as (pos' & s' & caps' & Hres & ? & ?).
      destruct (pos <? pos'); [|done].
      exists pos', s', caps'. simpl. split; [done|lia].
    + exists pos, s, caps. simpl. split; [done|lia].
  - apply (rep_loop_progresses _ _ _ IH1) in Hres as (pos' & s' & caps' & ? & ? & ?).
    exists pos', s', caps'. simpl. split; [done|]. destruct (min =? 0); lia.
  - apply IH1 in Hres as (pos' & s' & caps' & Hres & ? & ?).
    eexists pos', s', _. simpl. split; [done|lia].
  - destruct (pos =? 0); [|done]. exists pos, s, caps. simpl. split; [done|lia].
Qed.
End MatcherFacts.

Lemma match_at_bounds r pos s m :
  match_at r pos s = Some m →
  index m = pos ∧ pos + min_length r ≤ lastIndex m ∧ lastIndex m ≤ pos + length s.
Proof.
  intros Hm. apply run_progresses in Hm as (pos' & s' & caps' & [= <-] & ? & ?).
  simpl. lia.
Qed.

Lemma search_bounds r pos s m :
  RegExp.search r pos s = Some m →
  pos ≤ index m ∧ index m + min_length r ≤ lastIndex m ∧ lastIndex m ≤ pos + length s.
Proof.
  revert pos. induction s as [|c s IH]; intros pos; simpl.
  - destruct (match_at r pos []) eqn:Hm; [|done]. intros [= ->].
    apply match_at_bounds in Hm. simpl in Hm. lia.
  - destruct (match_at r pos (c :: s)) eqn:Hm.
    + intros [= ->]. apply match_at_bounds in Hm. simpl in Hm. lia.
    + intros Hs. apply IH in Hs. lia.
Qed.

Lemma exec_bounds r s from m :
  exec r s from = Some m →
  from ≤ index m ∧ index m + min_length r ≤ lastIndex m ∧ lastIndex m ≤ length s.
Proof.
  unfold exec. destruct (from <=? length s) eqn:Hle; [|done].
  apply Nat.leb_le in Hle. intros Hs. apply search_bounds in Hs.
  rewrite length_drop in Hs. lia.
Qed.

Lemma exec_loop_scans r s :
  1 ≤ min_length r →
  ∀ fuel from, length s < fuel + from → scans r s from (exec_loop fuel r s from).
Proof.
  intros Hmin fuel. induction fuel as [|fuel IH]; intros from Hfuel; simpl.
  - apply scans_done. unfold exec.
    destruct (from <=? length s) eqn:Hle; [|done]. apply Nat.leb_le in Hle. lia.
  - destruct (exec r s from) as [m|] eqn:Hm; [|by apply scans_done].
    apply scans_step; [done|]. apply IH. apply exec_bounds in Hm. lia.
Qed.

(** A pattern that cannot match the empty string is scanned to the end:
    the loop stops because [exec] finds nothing more, and [exec_all] is
    the list of the matches it went through. *)
Lemma exec_all_scans r s : 1 ≤ min_length r → scans r s 0 (exec_all r s).
Proof. intros Hmin. apply exec_loop_scans; [done|lia]. Qed.

(** None of the patterns of the source matches the empty string. *)
Lemma patterns_consume :
  Forall (λ r, 1 ≤ min_length r)
    (import_patterns ++ export_patterns ++ function_patterns ++ class_patterns ++
     transcript_patterns).
Proof. compute_done. Qed.

(** So every scan of an extractor or of the transcript ends, having gone
    through the matches of [exec_all]. *)
Lemma source_scans_end r code :
  r ∈ import_patterns ++ export_patterns ++ function_patterns ++ class_patterns ++
      transcript_patterns →
  scans r code 0 (exec_all r code).
Proof.
  intros Hr. apply exec_all_scans.
  by apply (proj1 (Forall_forall _ _) patterns_consume).
Qed.

(** ** The compressor *)

Section CompressorFacts.
Context `{CaseMapping} `{JSONParser}.

Lemma truncateToTarget_length text :
  length (truncateToTarget text) ≤ TARGET_COMPRESSED_SIZE.
Proof.
  unfold truncateToTarget, slice0. case_bool_decide; [done|].
  rewrite !length_app, length_take, lit_length.
  cbn [length String.length]. unfold TARGET_COMPRESSED_SIZE. lia.
Qed.

Lemma truncateToTarget_fits text :
  length text ≤ TARGET_COMPRESSED_SIZE → truncateToTarget text = text.
Proof. intros. unfold truncateToTarget. by rewrite bool_decide_eq_true_2. Qed.

Lemma truncateToTarget_cut text :
  TARGET_COMPRESSED_SIZE < length text →
  truncateToTarget text = take 1980 text ++ [LF] ++ lit "... (compressed)".
Proof.
  intros. unfold truncateToTarget. rewrite bool_decide_eq_false_2 by lia. done.
Qed.

(** Every renderer but the glob one returns. *)
Lemma render_returns toolName toolInput output :
  toolName ≠ lit "Glob" → is_Some (render toolName toolInput output).
Proof.
  intros. unfold render. repeat case_bool_decide; try done; by eexists.
Qed.
End CompressorFacts.

(** The glob renderer does raise: a listing with a directory named like
    a member of [Object.prototype] is not JSON, so its lines are taken as
    the files, and grouping them by directory calls [push] on the
    inherited member. *)
Lemma compressToolOutput_glob_raises :
  3000 < length constructor_listing ∧
  @compressToolOutput basic_latin JSONText.parse (lit "Glob") None constructor_listing
    = None ∧
  (@main basic_latin JSONText.parse (Some (event "Glob" constructor_listing)) []).1 = [].
Proof. repeat split; vm_compute; reflexivity || lia. Qed.

(** C2. An output of at most 3000 code units comes back unchanged, flagged
    as not compressed, with its own length as the original size. *)
Theorem compressToolOutput_below_threshold `{CaseMapping} `{JSONParser}
    (toolName : jsstring) (toolInput : option ToolInput.t) (output : jsstring) :
  length output ≤ 3000 →
  compressToolOutput toolName toolInput output =
    Some {| CompressionResult.compressed := output;
            CompressionResult.wasCompressed := false;
            CompressionResult.originalSize := length output |}.
Proof.
  intros Hle. unfold compressToolOutput, COMPRESSION_THRESHOLD.
  by rewrite bool_decide_eq_true_2.
Qed.

Lemma compressToolOutput_below_threshold_witness :
  length (lit "src/index.ts") ≤ 3000 ∧
  @compressToolOutput basic_latin JSONText.parse (lit "Glob") None (lit "src/index.ts") =
    Some {| CompressionResult.compressed := lit "src/index.ts";
            CompressionResult.wasCompressed := false;
            CompressionResult.originalSize := 12 |}.
Proof.
  split; [vm_compute; lia|].
  apply (@compressToolOutput_below_threshold basic_latin JSONText.parse).
  vm_compute. lia.
Defined.

(** C3. Above the threshold, whatever [compressToolOutput] returns is at
    most 2000 code units long and flagged as compressed: it is the
    rendered text itself when that fits, and otherwise its first 1980
    code units followed by the marker.  The call returns for every tool
    but Glob, whose renderer can raise. *)
Theorem compressToolOutput_ceiling `{CaseMapping} `{JSONParser}
    (toolName : jsstring) (toolInput : option ToolInput.t) (output : jsstring) :
  3000 < length output →
  (toolName ≠ lit "Glob" → is_Some (compressToolOutput toolName toolInput output)) ∧
  ∀ result, compressToolOutput toolName toolInput output = Some result →
    length (CompressionResult.compressed result) ≤ 2000 ∧
    CompressionResult.wasCompressed result = true ∧
    CompressionResult.originalSize result = length output ∧
    ∃ rendered, render toolName toolInput output = Some rendered ∧
      (length rendered ≤ 2000 → CompressionResult.compressed result = rendered) ∧
      (2000 < length rendered →
         CompressionResult.compressed result =
           take 1980 rendered ++ [LF] ++ lit "... (compressed)").
Proof.
  intros Hgt. unfold compressToolOutput, COMPRESSION_THRESHOLD.
  rewrite bool_decide_eq_false_2 by lia. split.
  - intros Hglob. destruct (render_returns toolName toolInput output Hglob) as [r ->].
    by eexists.
  - intros result Hres.
    destruct (render toolName toolInput output) as [rendered|] eqn:Hr; [|done].
    simpl in Hres. injection Hres as <-. simpl.
    split; [apply truncateToTarget_length|]. do 2 (split; [done|]).
    exists rendered. split; [done|].
    split; [apply truncateToTarget_fits | apply truncateToTarget_cut].
Qed.

Lemma compressToolOutput_ceiling_witness :
  3000 < length output_3001 ∧
  ∃ result,
    @compressToolOutput basic_latin JSONText.parse (lit "Bash") None output_3001 =
      Some result ∧
    length (CompressionResult.compressed result) ≤ 2000 ∧
    CompressionResult.wasCompressed result = true.
Proof.
  assert (Hlen : 3000 < length output_3001)
    by (unfold output_3001; rewrite length_replicate; lia).
  split; [exact Hlen|].
  destruct (@compressToolOutput_ceiling basic_latin JSONText.parse (lit "Bash") None
              output_3001 Hlen) as [Hreturns Hceiling].
  destruct Hreturns as [result Hresult]; [discriminate|].
  exists result. split; [exact Hresult|].
  destruct (Hceiling result Hresult) as (Hlength & Hflag & _).
  split; [exact Hlength | exact Hflag].
Defined.

(** ** The classifier *)

(** C5. An output whose lower-cased text contains both "error" and
    "success" is a problem, whatever the tool; and on every input the
    classifier yields one of the ten categories, each with a name of its
    own. *)
Theorem classifyObservationType_priority `{CaseMapping} (toolName output : jsstring) :
  (includes (toLowerCase output) (lit "error") = true →
   includes (toLowerCase output) (lit "success") = true →
   classifyObservationType toolName output = Problem) ∧
  classifyObservationType toolName output ∈ observation_types ∧
  type_name (classifyObservationType toolName output) ∈
    (lit <$> ["discovery"; "decision"; "problem"; "solution"; "pattern";
              "warning"; "success"; "refactor"; "bugfix"; "feature"]%string) ∧
  length observation_types = 10 ∧ NoDup (type_name <$> observation_types).
Proof.
  split; [|split; [|split; [|split]]].
  - intros Herr _. unfold classifyObservationType. by rewrite Herr.
  - destruct (classifyObservationType toolName output); compute_done.
  - destruct (classifyObservationType toolName output); compute_done.
  - done.
  - compute_done.
Qed.

Lemma classifyObservationType_priority_witness :
  includes (@toLowerCase basic_latin mixed_output) (lit "error") = true ∧
  includes (@toLowerCase basic_latin mixed_output) (lit "success") = true ∧
  @classifyObservationType basic_latin (lit "Write") mixed_output = Problem.
Proof.
  assert (He : includes (@toLowerCase basic_latin mixed_output) (lit "error") = true)
    by (vm_compute; reflexivity).
  assert (Hs : includes (@toLowerCase basic_latin mixed_output) (lit "success") = true)
    by (vm_compute; reflexivity).
  split; [exact He|]. split; [exact Hs|].
  exact (proj1 (@classifyObservationType_priority basic_latin (lit "Write") mixed_output)
           He Hs).
Defined.

(** ** The post-tool-use hook *)

Section HookFacts.
Context `{CaseMapping} `{JSONParser}.

Lemma or_else_default (v : option jsstring) : or_else v [] = default [] v.
Proof. by destruct v as [[|]|]. Qed.

Lemma truthy_length (v : option jsstring) : truthy v = false → length (default [] v) = 0.
Proof. by destruct v as [[|]|]. Qed.

(** What [effectiveOutput] is: the synthetic body for an always-captured
    tool whose output is shorter than 50 code units, the output itself
    in every other case. *)
Lemma effectiveOutput_of_cases tool_name tool_input tool_output :
  let output := default [] tool_output in
  (tool_name ∈ ALWAYS_CAPTURE_TOOLS → length output < 50 →
   ∃ fileName filePath,
     effectiveOutput_of tool_name tool_input tool_output =
       lit "File modified: " ++ fileName ++ [LF] ++ lit "Path: " ++ filePath ++
       [LF] ++ lit "Tool: " ++ tool_name) ∧
  (tool_name ∉ ALWAYS_CAPTURE_TOOLS ∨ 50 ≤ length output →
   effectiveOutput_of tool_name tool_input tool_output = output).
Proof.
  unfold effectiveOutput_of, MIN_OUTPUT_LENGTH. rewrite or_else_default. split.
  - intros Hin Hlt. rewrite !bool_decide_eq_true_2 by done. cbn [andb].
    by eexists _, _.
  - intros [Hnot|Hge].
    + by rewrite (bool_decide_eq_false_2 _ Hnot).
    + rewrite (bool_decide_eq_false_2 (_ < _)) by lia. by rewrite andb_false_r.
Qed.

(** The stored content: the compressed text when it has at most 2500 code
    units, and otherwise its first 2500 followed by the 17 of the marker. *)
Lemma content_of_length compressed :
  length (content_of compressed) =
    if bool_decide (MAX_OUTPUT_LENGTH < length compressed)
    then MAX_OUTPUT_LENGTH + 17 else length compressed.
Proof.
  unfold content_of, slice0. case_bool_decide as Hlong; [|done].
  rewrite !length_app, length_take, lit_length. cbn [length String.length]. lia.
Qed.

Lemma main_continue hookInput memory :
  (main hookInput memory).2 = {| HookOutput.continue := true |}.
Proof.
  unfold main. repeat (case_match; try done).
Qed.

Lemma main_stored hookInput memory :
  (main hookInput memory).1 = memory ∨
  ∃ event tool_name observation,
    hookInput = Some event ∧ passes_gates event ∧
    HookInput.tool_name event = Some tool_name ∧
    observe tool_name (HookInput.tool_input event)
      (effectiveOutput_of tool_name (HookInput.tool_input event)
         (tool_output_of (HookInput.tool_response event))) = Some observation ∧
    (main hookInput memory).1 = memory ++ [observation].
Proof.
  unfold main. destruct hookInput as [event|]; [|by left].
  destruct (HookInput.tool_name event) as [tool_name|] eqn:Hname; [|by left].
  destruct (negb (truthy (Some tool_name)) || _) eqn:Hobserved; [by left|].
  apply orb_false_elim in Hobserved as [_ Hobserved].
  apply negb_false_iff, bool_decide_eq_true in Hobserved.
  set (tool_output := tool_output_of (HookInput.tool_response event)).
  destruct (negb (bool_decide (tool_name ∈ ALWAYS_CAPTURE_TOOLS)) && _) eqn:Hshort;
    [by left|].
  destruct (includes _ (lit "<system-reminder>") || _) eqn:Hmarkers; [by left|].
  apply orb_false_elim in Hmarkers as [Hreminder Hcontext].
  destruct (observe _ _ _) as [observation|] eqn:Hobserve; [|by left].
  right. exists event, tool_name, observation. repeat split; try done.
  exists tool_name. repeat split; try done.
  apply andb_false_iff in Hshort as [Halways|Hlong].
  - left. by apply negb_false_iff, bool_decide_eq_true in Halways.
  - right. apply orb_false_elim in Hlong as [_ Hlong].
    apply bool_decide_eq_false in Hlong. unfold MIN_OUTPUT_LENGTH in Hlong.
    fold tool_output. lia.
Qed.

Lemma observe_returns tool_name tool_input effectiveOutput :
  tool_name ≠ lit "Glob" → is_Some (observe tool_name tool_input effectiveOutput).
Proof.
  intros Hglob. unfold observe, compressToolOutput.
  case_bool_decide; [by eexists|].
  destruct (render_returns tool_name tool_input effectiveOutput Hglob) as [r ->].
  by eexists.
Qed.

(** An output of 2501 to 3000 code units is below the compression
    threshold and above the content limit: what is remembered for it has
    2517 code units, whatever the tool. *)
Lemma observe_content_length tool_name tool_input effectiveOutput :
  MAX_OUTPUT_LENGTH < length effectiveOutput ≤ COMPRESSION_THRESHOLD →
  ∃ observation,
    observe tool_name tool_input effectiveOutput = Some observation ∧
    length (Remembered.content observation) = MAX_OUTPUT_LENGTH + 17.
Proof.
  intros [Hlong Hshort]. unfold observe, compressToolOutput.
  rewrite (bool_decide_eq_true_2 _ Hshort). simpl.
  eexists. split; [done|]. simpl.
  by rewrite content_of_length, (bool_decide_eq_true_2 _ Hlong).
Qed.

Lemma main_stores_gated event memory :
  passes_gates event →
  (∀ tool_name, HookInput.tool_name event = Some tool_name → tool_name ≠ lit "Glob") →
  ∃ observation, (main (Some event) memory).1 = memory ++ [observation].
Proof.
  intros (tool_name & Hname & Hobserved & Hlong & Hreminder & Hcontext) Hglob.
  specialize (Hglob _ Hname). unfold main. rewrite Hname.
  assert (truthy (Some tool_name) = true) as ->.
  { destruct tool_name; [|done]. by apply (bool_decide_pack _) in Hobserved. }
  rewrite (bool_decide_eq_true_2 _ Hobserved). cbn [negb orb].
  set (tool_output := tool_output_of (HookInput.tool_response event)) in *.
  assert (negb (bool_decide (tool_name ∈ ALWAYS_CAPTURE_TOOLS)) &&
          (negb (truthy tool_output) ||
           bool_decide (length (default [] tool_output) < MIN_OUTPUT_LENGTH)) = false) as ->.
  { destruct Hlong as [Halways|Hlong].
    - by rewrite (bool_decide_eq_true_2 _ Halways).
    - apply andb_false_iff. right. apply orb_false_intro.
      + destruct (truthy tool_output) eqn:Ht; [done|].
        apply truthy_length in Ht. lia.
      + apply bool_decide_eq_false. unfold MIN_OUTPUT_LENGTH. lia. }
  rewrite Hreminder, Hcontext. cbn [orb].
  destruct (observe_returns tool_name (HookInput.tool_input event)
              (effectiveOutput_of tool_name (HookInput.tool_input event) tool_output)
              Hglob) as [observation ->].
  by exists observation.
Qed.
End HookFacts.

(** C10. The hook always reports continue.  It either leaves the memory as
    it was or appends one observation, and it appends only for an event
    that passes the gates: an observed tool, an output of at least 50
    code units unless the tool is always captured, and an effective
    output free of both context markers, where the effective output is
    the synthetic "File modified" body for an always-captured tool with a
    shorter output and the output itself otherwise.  An event that fails
    a gate stores nothing; one that passes them is stored, unless the
    Glob renderer raises. *)
Theorem main_stores_only_gated `{CaseMapping} `{JSONParser}
    (hookInput : option HookInput.t) (memory : list Remembered.t) :
  (main hookInput memory).2 = {| HookOutput.continue := true |} ∧
  ((main hookInput memory).1 = memory ∨
   ∃ event observation,
     hookInput = Some event ∧ passes_gates event ∧
     (main hookInput memory).1 = memory ++ [observation]) ∧
  ((∀ event, hookInput = Some event → ¬ passes_gates event) →
   (main hookInput memory).1 = memory) ∧
  (∀ event, hookInput = Some event → passes_gates event →
   HookInput.tool_name event ≠ Some (lit "Glob") →
   ∃ observation, (main hookInput memory).1 = memory ++ [observation]) ∧
  (∀ tool_name tool_input tool_output,
     (tool_name ∈ ALWAYS_CAPTURE_TOOLS → length (default [] tool_output) < 50 →
      ∃ fileName filePath,
        effectiveOutput_of tool_name tool_input tool_output =
          lit "File modified: " ++ fileName ++ [LF] ++ lit "Path: " ++ filePath ++
          [LF] ++ lit "Tool: " ++ tool_name) ∧
     (tool_name ∉ ALWAYS_CAPTURE_TOOLS ∨ 50 ≤ length (default [] tool_output) →
      effectiveOutput_of tool_name tool_input tool_output = default [] tool_output)).
Proof.
  split; [apply main_continue|]. split; [|split; [|split]].
  - destruct (main_stored hookInput memory) as [?|(event & ? & obs & ? & ? & ? & ? & ?)];
      [by left|right]. by exists event, obs.
  - intros Hfail.
    destruct (main_stored hookInput memory) as [?|(event & ? & obs & ? & ? & ? & ? & ?)];
      [done|]. by destruct (Hfail event).
  - intros event -> Hgates Hglob. apply main_stores_gated; [done|].
    intros tool_name Hname ->. by rewrite Hname in Hglob.
  - intros tool_name tool_input tool_output.
    apply effectiveOutput_of_cases.
Qed.

Lemma main_stores_only_gated_witness :
  (* a Bash event with 60 code units of output passes the gates and is stored *)
  (passes_gates (event "Bash" output_60) ∧
   ∃ observation,
     (@main basic_latin JSONText.parse (Some (event "Bash" output_60)) []).1 =
       [] ++ [observation]) ∧
  (* a Bash event with a short output fails one and is not *)
  (¬ passes_gates (event "Bash" short_output) ∧
   (@main basic_latin JSONText.parse (Some (event "Bash" short_output)) []).1 = []).
Proof.
  split.
  - assert (Hgates : passes_gates (event "Bash" output_60)).
    { exists (lit "Bash"). split; [reflexivity|]. split; [compute_done|].
      split; [right; vm_compute; lia|]. split; vm_compute; reflexivity. }
    split; [exact Hgates|].
    destruct (@main_stores_only_gated basic_latin JSONText.parse
                (Some (event "Bash" output_60)) []) as (_ & _ & _ & Hstored & _).
    apply (Hstored (event "Bash" output_60)); [reflexivity | exact Hgates | discriminate].
  - assert (Hfails : ¬ passes_gates (event "Bash" short_output)).
    { intros (tool_name & Hname & _ & [Halways|Hlong] & _).
      - injection Hname as <-. revert Halways. compute_done.
      - vm_compute in Hlong. lia. }
    split; [exact Hfails|].
    destruct (@main_stores_only_gated basic_latin JSONText.parse
                (Some (event "Bash" short_output)) []) as (_ & _ & Hnothing & _ & _).
    apply Hnothing. intros ev Hev. injection Hev as <-. exact Hfails.
Defined.

(** C1 (the code departs from the claim).  A Bash event whose output has
    2600 code units is below the compression threshold, so the text is
    kept whole, cut at 2500 code units and then given the 17 code units
    of the marker: the stored content has 2517. *)
Theorem main_content_exceeds_maximum :
  ∃ observation,
    (@main basic_latin JSONText.parse (Some (event "Bash" output_2600)) []).1 =
      [observation] ∧
    length (Remembered.content observation) = 2517 ∧
    MAX_OUTPUT_LENGTH < length (Remembered.content observation).
Proof.
  eexists. split; [vm_compute; reflexivity|]. split; [vm_compute; reflexivity|].
  vm_compute. lia.
Qed.

(** C8 (the code departs from the claim).  With no [pattern] in the input
    the Grep caption prints the word undefined between the quotes; the
    placeholder "pattern" does not occur in it. *)
Theorem generateSummary_missing_pattern `{CaseMapping} :
  generateSummary (lit "Grep") (Some ToolInput.empty) grep_output =
    lit "Found 1 matches for " ++ [dquote] ++ lit "undefined" ++ [dquote] ∧
  includes (generateSummary (lit "Grep") (Some ToolInput.empty) grep_output)
    (lit "pattern") = false ∧
  generateSummary (lit "Grep") None grep_output =
    generateSummary (lit "Grep") (Some ToolInput.empty) grep_output.
Proof.
  split; [reflexivity|]. split; [|reflexivity].
  vm_compute. reflexivity.
Qed.

(** The rest of what the specification says of the captions does hold:
    an unrecognized tool gets "{toolName} completed", and a missing
    [file_path] or [command] is replaced by "file" or "command". *)
Lemma generateSummary_fallbacks `{CaseMapping} (toolName output : jsstring)
    (toolInput : option ToolInput.t) :
  (toolName ∉ (lit <$> ["Read"; "Edit"; "Write"; "Bash"; "Grep"; "Glob";
                         "WebFetch"; "WebSearch"]%string) →
   generateSummary toolName toolInput output = toolName ++ lit " completed") ∧
  (toolInput ≫= ToolInput.file_path = None →
   generateSummary (lit "Read") toolInput output =
     lit "Read file (" ++ Number_toString (length (split LF output)) ++ lit " lines)" ∧
   generateSummary (lit "Edit") toolInput output = lit "Edited file" ∧
   generateSummary (lit "Write") toolInput output = lit "Created file") ∧
  (toolInput ≫= ToolInput.command = None →
   generateSummary (lit "Bash") toolInput output = lit "Command failed: command" ∨
   generateSummary (lit "Bash") toolInput output = lit "Ran: command").
Proof.
  split; [|split].
  - intros Hother. unfold generateSummary.
    rewrite !bool_decide_eq_false_2; [done|..];
      intros Heq; apply Hother; try subst toolName; try compute_done.
    + revert Heq. rewrite !elem_of_cons, elem_of_nil. intros [->|[->|[]]]; compute_done.
  - intros Hpath. unfold generateSummary. rewrite Hpath. done.
  - intros Hcommand. unfold generateSummary. rewrite Hcommand. simpl.
    destruct (_ || _); [by left|by right].
Qed.

(** ** The extractors *)

Section SetFacts.
Context {A : Type} `{EqDecision A}.
Implicit Types (s l : list A) (x y : A).

Lemma elem_of_Set_add s x y : y ∈ Set_add s x ↔ y ∈ s ∨ y = x.
Proof.
  unfold Set_add. case_decide.
  - split; [auto|]. intros [?| ->]; done.
  - rewrite elem_of_app, list_elem_of_singleton. done.
Qed.

Lemma NoDup_Set_add s x : NoDup s → NoDup (Set_add s x).
Proof.
  intros Hs. unfold Set_add. case_decide; [done|].
  apply NoDup_app. split; [done|]. split; [|apply NoDup_singleton].
  intros y Hy ->%list_elem_of_singleton. done.
Qed.

Lemma foldl_Set_add_spec l s :
  NoDup s →
  NoDup (foldl Set_add s l) ∧
  (∀ y, y ∈ foldl Set_add s l ↔ y ∈ s ∨ y ∈ l) ∧
  ∃ rest, foldl Set_add s l = s ++ rest.
Proof.
  revert s. induction l as [|x l IH]; intros s Hs; simpl.
  - split; [done|]. split; [|exists []; by rewrite app_nil_r].
    intros y. rewrite elem_of_nil. tauto.
  - destruct (IH (Set_add s x) (NoDup_Set_add s x Hs)) as (Hnd & Hin & rest & Hrest).
    split; [done|]. split.
    + intros y. rewrite Hin, elem_of_Set_add, elem_of_cons. tauto.
    + rewrite Hrest. unfold Set_add. case_decide; [by exists rest|].
      exists (x :: rest). by rewrite <-app_assoc.
Qed.

Lemma Set_of_first_occurrences l : first_occurrences l (Set_of l).
Proof.
  unfold Set_of.
  destruct (foldl_Set_add_spec l [] (NoDup_nil_2)) as (Hnd & Hin & _).
  split; [done|]. split.
  - intros x. rewrite Hin, elem_of_nil. tauto.
  - intros before y after -> Hfresh. rewrite foldl_app. simpl.
    destruct (foldl_Set_add_spec before [] (NoDup_nil_2)) as (Hnd' & Hin' & _).
    assert (Hy : y ∉ foldl Set_add [] before).
    { rewrite Hin', elem_of_nil. tauto. }
    unfold Set_add at 2. rewrite decide_False by done.
    destruct (foldl_Set_add_spec after (foldl Set_add [] before ++ [y])) as (_ & _ & rest & ->).
    { apply NoDup_app. split; [done|]. split; [|apply NoDup_singleton].
      intros x Hx ->%list_elem_of_singleton. done. }
    exists (foldl Set_add [] before), rest. rewrite <-app_assoc. split; [done|].
    intros x. rewrite Hin', elem_of_nil. tauto.
Qed.
End SetFacts.

Lemma extractErrorPatterns_lines code :
  extractErrorPatterns code =
    (λ line, take 100 (trim line)) <$> take 10 (filter (λ line, has_marker line) (split LF code)).
Proof. unfold extractErrorPatterns, marker_lines, slice0. by rewrite fmap_take. Qed.

(** C9 (as the code has it).  The four pattern-based extractors return
    the distinct values their scans push, in the order of first
    occurrence and without a cap.  The marker extractor is different: it
    returns one entry per marker line, trimmed and cut to 100 code units,
    for the first ten marker lines only, and keeps duplicates. *)
Theorem extractors_results (code : jsstring) :
  first_occurrences (import_matches code) (extractImports code) ∧
  first_occurrences (export_matches code) (extractExports code) ∧
  first_occurrences (function_matches code) (extractFunctionSignatures code) ∧
  first_occurrences (class_matches code) (extractClassNames code) ∧
  extractErrorPatterns code =
    (λ line, take 100 (trim line)) <$>
      take 10 (filter (λ line, has_marker line) (split LF code)) ∧
  length (extractErrorPatterns code) ≤ 10.
Proof.
  repeat (split; [apply Set_of_first_occurrences|]).
  split; [apply extractErrorPatterns_lines|].
  unfold extractErrorPatterns, slice0. rewrite length_take. lia.
Qed.

(** The claim as stated fails on the marker extractor: a marker line that
    occurs twice is returned twice, and of eleven marker lines the
    eleventh is dropped. *)
Lemma extractErrorPatterns_duplicates_and_cap :
  (¬ NoDup (extractErrorPatterns two_todos)) ∧
  lit "// TODO 10" ∈ marker_lines eleven_todos ∧
  (lit "// TODO 10" ∉ extractErrorPatterns eleven_todos) ∧
  length (extractErrorPatterns eleven_todos) = 10.
Proof.
  split; [|split; [|split]].
  - assert (extractErrorPatterns two_todos = [lit "// TODO"; lit "// TODO"]) as ->
      by (vm_compute; reflexivity).
    intros Hnd. apply NoDup_cons in Hnd as [Hnotin _]. apply Hnotin. left.
  - compute_done.
  - compute_done.
  - vm_compute. reflexivity.
Qed.

(** The pattern-based extractors do go beyond ten results. *)
Lemma extractFunctionSignatures_uncapped :
  length (extractFunctionSignatures twelve_functions) = 12.
Proof. vm_compute. reflexivity. Qed.

(** ** The context assembler *)

Lemma tokens_of_app l1 l2 : tokens_of (l1 ++ l2) = (tokens_of l1 + tokens_of l2)%Z.
Proof. unfold tokens_of. induction l1 as [|o l1 IH]; simpl; [done|]. rewrite IH. lia. Qed.

Lemma tokens_of_uniform (t : Z) l :
  Forall (λ obs, estimateTokens (context_line obs) = t) l →
  tokens_of l = (t * Z.of_nat (length l))%Z.
Proof.
  unfold tokens_of. induction 1 as [|o l Ho _ IH]; simpl; [lia|]. rewrite IH, Ho. lia.
Qed.

(** The loop stops at the first observation that does not fit: it has
    counted a prefix of the list, the count is the prefix's estimate,
    within the budget, and the next observation would go over. *)
Lemma within_budget_spec maxTokens l parts count :
  (count ≤ maxTokens)%Z →
  ∃ n, n ≤ length l ∧
    within_budget maxTokens l parts count =
      (parts ++ (context_line <$> take n l), (count + tokens_of (take n l))%Z) ∧
    (count + tokens_of (take n l) ≤ maxTokens)%Z ∧
    ∀ next, l !! n = Some next →
      (maxTokens < count + tokens_of (take n l) + estimateTokens (context_line next))%Z.
Proof.
  revert parts count. induction l as [|obs l IH]; intros parts count Hcount; simpl.
  - exists 0. simpl. rewrite app_nil_r, Z.add_0_r. repeat split; [lia|done|done].
  - destruct (maxTokens <? count + estimateTokens (context_line obs))%Z eqn:Hover.
    + apply Z.ltb_lt in Hover. exists 0. simpl. rewrite app_nil_r, Z.add_0_r.
      repeat split; [lia|done|]. intros next [= <-]. lia.
    + apply Z.ltb_ge in Hover.
      destruct (IH (parts ++ [context_line obs])
                  (count + estimateTokens (context_line obs))%Z Hover)
        as (n & Hn & Heq & Hle & Hnext).
      exists (S n). simpl. rewrite Heq, <-app_assoc. simpl.
      unfold tokens_of in *. simpl.
      repeat split; [lia| f_equal; lia | lia |].
      intros next Hlook. specialize (Hnext next Hlook). lia.
Qed.

Lemma getContext_fields mind query :
  let recent :=
    observation_of_frame <$>
      frames_of (Memvid.timeline (Mind.memvid mind)
                   (MindConfig.maxContextObservations (Mind.config mind)) true) in
  InjectedContext.recentObservations (getContext mind query) = recent ∧
  InjectedContext.sessionSummaries (getContext mind query) = [] ∧
  InjectedContext.tokenCount (getContext mind query) =
    (within_budget (MindConfig.maxContextTokens (Mind.config mind)) recent [] 0%Z).2.
Proof.
  intros recent. unfold getContext. fold recent.
  by destruct (within_budget _ recent [] 0%Z).
Qed.

(** C4. Under a non-negative budget the [tokenCount] the assembler
    reports for a list of recent observations is the estimate of the
    observations counted, a prefix of the list; it stays within the
    budget, and the observation right after the prefix would have gone
    over it.  Thirty observations of 50 tokens under a budget of 220:
    four are counted, for 200 tokens. *)
Theorem getContext_token_budget (recent : list Observation.t) (maxTokens : Z) :
  (0 ≤ maxTokens)%Z →
  (∀ mind query,
     MindConfig.maxContextTokens (Mind.config mind) = maxTokens →
     InjectedContext.recentObservations (getContext mind query) = recent →
     (InjectedContext.tokenCount (getContext mind query) ≤ maxTokens)%Z ∧
     InjectedContext.tokenCount (getContext mind query) =
       tokens_of (take (counted maxTokens recent) recent)) ∧
  counted maxTokens recent ≤ length recent ∧
  (tokens_of (take (counted maxTokens recent) recent) ≤ maxTokens)%Z ∧
  (∀ next, recent !! counted maxTokens recent = Some next →
     (maxTokens <
        tokens_of (take (counted maxTokens recent) recent) +
        estimateTokens (context_line next))%Z) ∧
  (maxTokens = 220%Z → length recent = 30 →
   Forall (λ obs, estimateTokens (context_line obs) = 50%Z) recent →
   counted maxTokens recent = 4 ∧
   tokens_of (take (counted maxTokens recent) recent) = 200%Z).
Proof.
  intros Hbudget.
  destruct (within_budget_spec maxTokens recent [] 0%Z Hbudget)
    as (n & Hn & Heq & Hle & Hnext).
  assert (Hcounted : counted maxTokens recent = n).
  { unfold counted. rewrite Heq. simpl. rewrite length_fmap, length_take. lia. }
  rewrite Hcounted. split; [|split; [done|split; [lia|split]]].
  - intros mind query Hmax Hrecent.
    destruct (getContext_fields mind query) as (Hfetched & _ & Htokens).
    rewrite <-Hfetched, Hrecent, Hmax, Heq in Htokens. simpl in Htokens.
    rewrite Htokens. lia.
  - intros next Hlook. specialize (Hnext next Hlook). lia.
  - intros Hmax Hlen Hall.
    assert (Htake : tokens_of (take n recent) = (50 * Z.of_nat n)%Z).
    { rewrite (tokens_of_uniform 50); [|by apply Forall_take].
      rewrite length_take. lia. }
    assert (n = 4) as ->; [|by rewrite Htake].
    destruct (lookup_lt_is_Some_2 recent n) as [next Hlook].
    { rewrite Htake in Hle. lia. }
    pose proof (Hnext next Hlook) as Hover.
    assert (estimateTokens (context_line next) = 50%Z) as Hfifty.
    { exact (Forall_lookup_1 _ recent n next Hall Hlook). }
    rewrite Htake in Hle, Hover. lia.
Qed.

Lemma getContext_token_budget_witness :
  (0 ≤ 220)%Z ∧
  MindConfig.maxContextTokens (Mind.config mind_30) = 220%Z ∧
  InjectedContext.recentObservations (getContext mind_30 None) = thirty_of_50 ∧
  length thirty_of_50 = 30 ∧
  Forall (λ obs, estimateTokens (context_line obs) = 50%Z) thirty_of_50 ∧
  counted 220 thirty_of_50 = 4 ∧
  InjectedContext.tokenCount (getContext mind_30 None) = 200%Z.
Proof.
  assert (Hbudget : (0 ≤ 220)%Z) by lia.
  assert (Hrecent : InjectedContext.recentObservations (getContext mind_30 None) =
                    thirty_of_50) by (vm_compute; reflexivity).
  assert (Hlength : length thirty_of_50 = 30) by (vm_compute; reflexivity).
  assert (Hall : Forall (λ obs, estimateTokens (context_line obs) = 50%Z) thirty_of_50).
  { apply Forall_forall. intros obs Hobs.
    apply elem_of_replicate in Hobs as [-> _]. vm_compute. reflexivity. }
  destruct (getContext_token_budget thirty_of_50 220 Hbudget)
    as (Hreported & _ & _ & _ & Hthirty).
  destruct (Hthirty eq_refl Hlength Hall) as [Hfour Htwo_hundred].
  destruct (Hreported mind_30 None eq_refl Hrecent) as [_ Htokens].
  split; [exact Hbudget|]. split; [reflexivity|]. split; [exact Hrecent|].
  split; [exact Hlength|]. split; [exact Hall|]. split; [exact Hfour|].
  rewrite Htokens. exact Htwo_hundred.
Defined.

(** C7. The context carries every fetched observation, in order and as
    mapped from its frame, whatever the budget; the budget only decides
    [tokenCount]; and [sessionSummaries] is empty. *)
Theorem getContext_returns_all_fetched (mind : Mind.t) (query : option jsstring) :
  let fetched :=
    frames_of (Memvid.timeline (Mind.memvid mind)
                 (MindConfig.maxContextObservations (Mind.config mind)) true) in
  InjectedContext.recentObservations (getContext mind query) =
    observation_of_frame <$> fetched ∧
  length (InjectedContext.recentObservations (getContext mind query)) = length fetched ∧
  InjectedContext.sessionSummaries (getContext mind query) = [] ∧
  ∀ budget,
    InjectedContext.recentObservations (getContext (with_budget budget mind) query) =
      InjectedContext.recentObservations (getContext mind query) ∧
    InjectedContext.relevantMemories (getContext (with_budget budget mind) query) =
      InjectedContext.relevantMemories (getContext mind query) ∧
    InjectedContext.sessionSummaries (getContext (with_budget budget mind) query) = [] ∧
    InjectedContext.tokenCount (getContext (with_budget budget mind) query) =
      (within_budget budget (observation_of_frame <$> fetched) [] 0%Z).2.
Proof.
  intros fetched.
  destruct (getContext_fields mind query) as (Hrecent & Hsummaries & _).
  split; [done|]. split; [by rewrite Hrecent, length_fmap|]. split; [done|].
  intros budget.
  destruct (getContext_fields (with_budget budget mind) query) as (Hrecent' & Hsummaries' & Htokens').
  split; [by rewrite Hrecent, Hrecent'|]. split; [|done].
  unfold getContext. simpl.
  by do 2 destruct (within_budget _ _ [] 0%Z).
Qed.

(** ** The session synthesizer *)

Section SessionFacts.
Context `{CaseMapping}.

Lemma keyDecisions_of_cons obs rest :
  keyDecisions_of (obs :: rest) =
    (if bool_decide (Observation.type obs = Some (lit "decision")) ||
        includes (toLowerCase (Observation.summary obs)) (lit "chose") ||
        includes (toLowerCase (Observation.summary obs)) (lit "decided")
     then [Observation.summary obs] else [])
    ++ keyDecisions_of rest.
Proof.
  unfold keyDecisions_of. rewrite filter_cons.
  change (bool_decide (Observation.type obs = Some (lit "decision")) ||
          includes (toLowerCase (Observation.summary obs)) (lit "chose") ||
          includes (toLowerCase (Observation.summary obs)) (lit "decided"))
    with (is_key_decision obs).
  case_decide as Hkey.
  - apply Is_true_true in Hkey. by rewrite Hkey.
  - apply Is_true_false in Hkey. by rewrite Hkey.
Qed.

Lemma keyDecisions_of_step obs rest :
  keyDecisions_of (obs :: rest) =
    (if is_key_decision obs then [Observation.summary obs] else [])
    ++ keyDecisions_of rest.
Proof. apply keyDecisions_of_cons. Qed.

Lemma elem_of_observed_files observations f :
  f ∈ observed_files observations ↔
  ∃ obs files, obs ∈ observations ∧
    Observation.metadata obs ≫= Metadata.files = Some files ∧ f ∈ files.
Proof.
  unfold observed_files. rewrite list_elem_of_bind. split.
  - intros (obs & Hf & Hobs).
    destruct (Observation.metadata obs ≫= Metadata.files) as [files|] eqn:Hfiles;
      [|by apply elem_of_nil in Hf].
    by exists obs, files.
  - intros (obs & files & Hobs & Hfiles & Hf). exists obs. by rewrite Hfiles.
Qed.

Lemma observed_files_cons obs rest :
  observed_files (obs :: rest) =
    default [] (Observation.metadata obs ≫= Metadata.files) ++ observed_files rest.
Proof. done. Qed.
End SessionFacts.

(** C6. An observation contributes its summary to the key decisions
    exactly when its type is "decision" or its lower-cased summary
    contains "chose" or "decided"; the files of every observation go into
    the set of modified files, which lists each file once, in the order
    of first appearance, ahead of those found in the transcript; the
    result keeps the first 10 decisions and the first 20 files.  For the
    four observations of the example the decisions are
    ["Chose Postgres over MySQL"] and the files ["a.ts"; "b.ts"]. *)
Theorem generateSessionSummary_scan `{CaseMapping}
    (observations : list Observation.t) (transcript : option jsstring) :
  let draft := generateSessionSummary observations transcript in
  (keyDecisions_of [] = [] ∧
   ∀ obs rest,
     keyDecisions_of (obs :: rest) =
       (if bool_decide (Observation.type obs = Some (lit "decision")) ||
           includes (toLowerCase (Observation.summary obs)) (lit "chose") ||
           includes (toLowerCase (Observation.summary obs)) (lit "decided")
        then [Observation.summary obs] else [])
       ++ keyDecisions_of rest) ∧
  SessionSummaryDraft.keyDecisions draft = take 10 (keyDecisions_of observations) ∧
  length (SessionSummaryDraft.keyDecisions draft) ≤ 10 ∧
  (∀ f, f ∈ observed_files observations ↔
     ∃ obs files, obs ∈ observations ∧
       Observation.metadata obs ≫= Metadata.files = Some files ∧ f ∈ files) ∧
  first_occurrences (observed_files observations ++ transcript_paths transcript)
    (filesModified_of observations transcript) ∧
  SessionSummaryDraft.filesModified draft =
    take 20 (filesModified_of observations transcript) ∧
  length (SessionSummaryDraft.filesModified draft) ≤ 20 ∧
  (∀ o1 o2 o3 o4,
     observations = [o1; o2; o3; o4] → transcript = None →
     Observation.type o1 = Some (lit "decision") →
     Observation.summary o1 = lit "Chose Postgres over MySQL" →
     is_key_decision o2 = false → is_key_decision o3 = false →
     is_key_decision o4 = false →
     Observation.metadata o1 ≫= Metadata.files = None →
     Observation.metadata o2 ≫= Metadata.files = Some [lit "a.ts"] →
     Observation.metadata o3 ≫= Metadata.files = Some [lit "b.ts"] →
     Observation.metadata o4 ≫= Metadata.files = None →
     SessionSummaryDraft.keyDecisions draft = [lit "Chose Postgres over MySQL"] ∧
     SessionSummaryDraft.filesModified draft = [lit "a.ts"; lit "b.ts"]).
Proof.
  intros draft. split; [split; [done|apply keyDecisions_of_cons]|].
  split; [done|]. split.
  { unfold draft, generateSessionSummary, slice0. simpl. rewrite length_take. lia. }
  split; [apply elem_of_observed_files|].
  split; [apply Set_of_first_occurrences|]. split; [done|]. split.
  { unfold draft, generateSessionSummary, slice0. simpl. rewrite length_take. lia. }
  intros o1 o2 o3 o4 -> -> Htype Hsummary Hk2 Hk3 Hk4 Hf1 Hf2 Hf3 Hf4.
  unfold draft, generateSessionSummary, slice0. cbn [SessionSummaryDraft.keyDecisions
    SessionSummaryDraft.filesModified]. split.
  - assert (Hk1 : is_key_decision o1 = true).
    { unfold is_key_decision. by rewrite (bool_decide_eq_true_2 _ Htype). }
    rewrite !keyDecisions_of_step, Hk1, Hk2, Hk3, Hk4, Hsummary. done.
  - unfold filesModified_of. rewrite !observed_files_cons, Hf1, Hf2, Hf3, Hf4. done.
Qed.

Lemma generateSessionSummary_scan_witness :
  (Observation.type chose_postgres = Some (lit "decision") ∧
   Observation.summary chose_postgres = lit "Chose Postgres over MySQL" ∧
   @is_key_decision basic_latin edited_a = false ∧
   @is_key_decision basic_latin created_b = false ∧
   @is_key_decision basic_latin read_schema = false ∧
   Observation.metadata chose_postgres ≫= Metadata.files = None ∧
   Observation.metadata edited_a ≫= Metadata.files = Some [lit "a.ts"] ∧
   Observation.metadata created_b ≫= Metadata.files = Some [lit "b.ts"] ∧
   Observation.metadata read_schema ≫= Metadata.files = None) ∧
  SessionSummaryDraft.keyDecisions (@generateSessionSummary basic_latin session_of_four None)
    = [lit "Chose Postgres over MySQL"] ∧
  SessionSummaryDraft.filesModified (@generateSessionSummary basic_latin session_of_four None)
    = [lit "a.ts"; lit "b.ts"].
Proof.
  assert (Hk2 : @is_key_decision basic_latin edited_a = false) by (vm_compute; reflexivity).
  assert (Hk3 : @is_key_decision basic_latin created_b = false) by (vm_compute; reflexivity).
  assert (Hk4 : @is_key_decision basic_latin read_schema = false) by (vm_compute; reflexivity).
  split; [repeat split; assumption || reflexivity|].
  destruct (@generateSessionSummary_scan basic_latin session_of_four None)
    as (_ & _ & _ & _ & _ & _ & _ & Hexample).
  exact (Hexample chose_postgres edited_a created_b read_schema eq_refl eq_refl
           eq_refl eq_refl Hk2 Hk3 Hk4 eq_refl eq_refl eq_refl eq_refl).
Defined.

(** ** More of the helpers *)

Lemma estimateTokens_le (text : jsstring) (n : Z) :
  (estimateTokens text ≤ n ↔ Z.of_nat (length text) ≤ 4 * n)%Z.
Proof.
  unfold estimateTokens.
  pose proof (Nat.div_mod_eq (length text + 3) 4) as Hdiv.
  pose proof (Nat.mod_upper_bound (length text + 3) 4) as Hmod. lia.
Qed.

Lemma join_split (s : jsstring) : join [LF] (split LF s) = s.
Proof.
  induction s as [|c s IH]; [done|]. simpl.
  destruct (c =? LF)%N eqn:Hc.
  - apply N.eqb_eq in Hc as ->.
    destruct (split LF s) as [|h t] eqn:Hs; simpl in *; [by subst|].
    by rewrite IH.
  - destruct (split LF s) as [|h t] eqn:Hs; simpl in *; [by subst|].
    destruct t; simpl in *; by subst.
Qed.

Lemma split_length (sep : code_unit) (s : jsstring) :
  1 ≤ length (split sep s) ≤ S (length s).
Proof.
  induction s as [|c s IH]; simpl; [lia|].
  destruct (c =? sep)%N; simpl; [lia|].
  destruct (split sep s); simpl in *; lia.
Qed.

Lemma length_join (sep : jsstring) (parts : list jsstring) :
  length (join sep parts) =
    sum_list (length <$> parts) + (length parts - 1) * length sep.
Proof.
  induction parts as [|p rest IH]; [done|].
  destruct rest as [|q rest]; [simpl; lia|].
  change (join sep (p :: q :: rest)) with (p ++ sep ++ join sep (q :: rest)).
  rewrite !length_app, IH. simpl. lia.
Qed.

Lemma sum_list_take_drop (l : list nat) (a b : nat) :
  a ≤ b → sum_list (take a l) + sum_list (drop b l) ≤ sum_list l.
Proof.
  intros Hab. rewrite <- (take_drop a l) at 3. rewrite sum_list_with_app.
  enough (sum_list (drop b l) ≤ sum_list (drop a l)) by lia.
  replace b with (a + (b - a)) by lia. rewrite <- drop_drop.
  rewrite <- (take_drop (b - a) (drop a l)) at 2. rewrite sum_list_with_app. lia.
Qed.

Lemma sum_list_filter_Boolean (l : list jsstring) :
  sum_list (length <$> filter_Boolean l) = sum_list (length <$> l).
Proof.
  unfold filter_Boolean. induction l as [|x l IH]; [done|].
  destruct (decide (x ≠ [])) as [Hx|Hx].
  - rewrite filter_cons_True by done. rewrite !fmap_cons. simpl. f_equal. apply IH.
  - rewrite filter_cons_False by done. apply dec_stable in Hx as ->.
    rewrite fmap_cons. apply IH.
Qed.

Lemma digits_aux_length (k fuel n : nat) (acc : jsstring) :
  1 ≤ k → n < 10 ^ k → length (digits_aux fuel n acc) ≤ length acc + k.
Proof.
  revert fuel n acc. induction k as [|k IH]; [lia|].
  intros [|fuel] n acc _ Hn; [simpl; lia|].
  cbn [digits_aux]. destruct (n / 10 =? 0) eqn:Hq; [cbn [length]; lia|].
  apply Nat.eqb_neq in Hq.
  assert (n / 10 < 10 ^ k).
  { apply Nat.Div0.div_lt_upper_bound. by rewrite Nat.pow_succ_r' in Hn. }
  assert (1 ≤ k) by (destruct k; [change (10 ^ 0) with 1 in *; lia | lia]).
  etrans; [apply IH; done|]. cbn [length]. lia.
Qed.

Lemma Number_toString_length (k n : nat) :
  1 ≤ k → n < 10 ^ k → length (Number_toString n) ≤ k.
Proof. intros. by apply (digits_aux_length k (S n) n []). Qed.
Lemma head_tail_length (lines : list jsstring) (a b : nat) (marker : jsstring) :
  a + b ≤ length lines →
  length (join [LF] (take a lines ++ [marker] ++ drop (length lines - b) lines))
    + length lines
  ≤ length (join [LF] lines) + length marker + a + b + 1.
Proof.
  intros Hab. rewrite !length_join, !fmap_app, !sum_list_with_app, !length_app.
  rewrite length_take, length_drop, !fmap_take, !fmap_drop. cbn [length fmap list_fmap sum_list sum_list_with].
  pose proof (sum_list_take_drop (length <$> lines) a (length lines - b)).
  unfold id in *. lia.
Qed.

(** X1. [truncateToTokens] keeps a text within a budget of at least one
    token: the result is estimated at no more than [maxTokens]; a text
    that fits comes back unchanged, and a longer one is cut to exactly
    [4 * maxTokens] code units, the last three of them the dots. *)
Theorem truncateToTokens_budget (text : jsstring) (maxTokens : Z) :
  (1 ≤ maxTokens)%Z →
  (estimateTokens (truncateToTokens text maxTokens) ≤ maxTokens)%Z ∧
  ((estimateTokens text ≤ maxTokens)%Z → truncateToTokens text maxTokens = text) ∧
  ((maxTokens < estimateTokens text)%Z →
     truncateToTokens text maxTokens =
       take (Z.to_nat (4 * maxTokens - 3)) text ++ lit "..." ∧
     Z.of_nat (length (truncateToTokens text maxTokens)) = (4 * maxTokens)%Z).
Proof.
  intros Hpos. unfold truncateToTokens, slice_to.
  pose proof (estimateTokens_le text maxTokens) as Hfit.
  destruct (Z.leb_spec (Z.of_nat (length text)) (maxTokens * 4)) as [Hle|Hgt].
  - split; [lia|]. split; [done|lia].
  - destruct (Z.ltb_spec (maxTokens * 4 - 3) 0) as [?|_]; [lia|].
    replace (maxTokens * 4 - 3)%Z with (4 * maxTokens - 3)%Z by lia.
    assert (Hlen : Z.of_nat (length (take (Z.to_nat (4 * maxTokens - 3)) text ++ lit "..."))
                   = (4 * maxTokens)%Z).
    { rewrite length_app, length_take, lit_length. cbn [String.length]. lia. }
    split; [apply estimateTokens_le; lia|]. split; [lia|done].
Qed.

Lemma truncateToTokens_budget_witness :
  (1 ≤ 2)%Z ∧ (estimateTokens (truncateToTokens (lit "0123456789") 2) ≤ 2)%Z.
Proof. split; [lia | apply truncateToTokens_budget; lia]. Defined.

(** X2. Without a budget the cut does not hold: for [maxTokens <= 0] a text
    that does not fit loses its last [3 - 4 * maxTokens] code units, as
    far as it has them, and gains the three dots, so the result is never
    empty and always over the budget. *)
Theorem truncateToTokens_no_budget (text : jsstring) (maxTokens : Z) :
  (maxTokens ≤ 0)%Z → (4 * maxTokens < Z.of_nat (length text))%Z →
  truncateToTokens text maxTokens =
    take (length text - Z.to_nat (3 - 4 * maxTokens)) text ++ lit "..." ∧
  (maxTokens < estimateTokens (truncateToTokens text maxTokens))%Z.
Proof.
  intros Hneg Hlong. unfold truncateToTokens, slice_to.
  destruct (Z.leb_spec (Z.of_nat (length text)) (maxTokens * 4)) as [?|_]; [lia|].
  destruct (Z.ltb_spec (maxTokens * 4 - 3) 0) as [_|?]; [|lia].
  replace (Z.to_nat (Z.of_nat (length text) + (maxTokens * 4 - 3)))
    with (length text - Z.to_nat (3 - 4 * maxTokens)) by lia.
  split; [done|].
  apply Z.nle_gt. rewrite estimateTokens_le, length_app, lit_length.
  cbn [String.length]. lia.
Qed.

Lemma truncateToTokens_no_budget_witness :
  (0 ≤ 0)%Z ∧ (4 * 0 < Z.of_nat (length (lit "abcdef")))%Z ∧
  truncateToTokens (lit "abcdef") 0 = lit "abc...".
Proof.
  split; [lia|]. split; [vm_compute; reflexivity|].
  destruct (truncateToTokens_no_budget (lit "abcdef") 0) as [Hcut _];
    [lia | vm_compute; reflexivity | exact Hcut].
Defined.

(** X3. [extractKeyInfo] never returns more than 2036 code units, and
    returns an output of at most 2000 code units and 20 lines as it is,
    whatever the tool. *)
Theorem extractKeyInfo_bounded (toolName output : jsstring) :
  length (extractKeyInfo toolName output) ≤ 2036 ∧
  (length output ≤ 2000 → length (split LF output) ≤ 20 →
   extractKeyInfo toolName output = output).
Proof.
  unfold extractKeyInfo. split.
  - set (truncated := if bool_decide (2000 < length output) then _ else _).
    assert (Hcut : length truncated ≤ 2016).
    { subst truncated. case_bool_decide; [|lia].
      unfold slice0. rewrite !length_app, length_take, lit_length.
      cbn [length String.length]. lia. }
    pose proof (split_length LF truncated) as Hlines.
    pose proof (f_equal length (join_split truncated)) as Hjoin.
    assert (Hdigits : ∀ n, n ≤ length (split LF truncated) →
              length (Number_toString n) ≤ 4).
    { intros n Hn. apply Number_toString_length; [lia|].
      change (10 ^ 4) with (10 * (10 * (10 * (10 * 1)))). lia. }
    clearbody truncated.
    case_bool_decide; [|case_bool_decide; [|case_bool_decide; [|case_bool_decide]]];
      [| | | |lia].
    + unfold extractFileReadSummary. case_bool_decide; [lia|].
      rewrite !length_app, lit_length, lit_length. cbn [length String.length].
      pose proof (Hdigits (length (split LF truncated)) ltac:(lia)).
      pose proof (head_tail_length (split LF truncated) 10 0 [] ltac:(lia)) as Hht.
      rewrite Nat.sub_0_r, drop_all in Hht.
      rewrite length_join in Hht |- *. unfold slice0.
      rewrite !fmap_app, !sum_list_with_app, !length_app, length_take in Hht.
      rewrite length_take. cbn [length fmap list_fmap sum_list sum_list_with] in Hht.
      unfold id in *. cbn [length] in *. lia.
    + unfold extractBashSummary. case_bool_decide; [lia|].
      unfold slice0, slice_last.
      pose proof (head_tail_length (split LF truncated) 10 10
                    (lit "... (" ++ Number_toString (length (split LF truncated) - 20)
                     ++ lit " lines omitted)") ltac:(lia)) as Hht.
      rewrite !length_app, !lit_length in Hht. cbn [String.length] in Hht.
      pose proof (Hdigits (length (split LF truncated) - 20) ltac:(lia)).
      match type of Hht with ?X + _ ≤ _ => set (x := X) in Hht; change (x ≤ 2036) end.
      lia.
    + unfold extractEditSummary. lia.
    + unfold extractSearchSummary. case_bool_decide; [lia|].
      unfold slice0.
      set (found := filter_Boolean (split LF truncated)) in *.
      assert (Hfound : length found ≤ length (split LF truncated))
        by apply length_filter.
      pose proof (head_tail_length found 15 0
                    (lit "... and " ++ Number_toString (length found - 15)
                     ++ lit " more results") ltac:(lia)) as Hht.
      rewrite Nat.sub_0_r, drop_all, app_nil_r in Hht.
      rewrite !length_app, !lit_length in Hht. cbn [String.length] in Hht.
      pose proof (Hdigits (length found - 15) ltac:(lia)).
      rewrite (length_join _ found) in Hht. rewrite length_join in Hjoin.
      pose proof (sum_list_filter_Boolean (split LF truncated)) as Hsum.
      fold found in Hsum. cbn [length] in *.
      match type of Hht with ?X + _ ≤ _ => set (x := X) in Hht; change (x ≤ 2036) end.
      lia.
  - intros Hshort Hlines. rewrite (bool_decide_eq_false_2 (2000 < _)) by lia.
    unfold extractFileReadSummary, extractBashSummary, extractEditSummary,
      extractSearchSummary.
    assert (length (filter_Boolean (split LF output)) ≤ length (split LF output))
      by apply length_filter.
    repeat case_bool_decide; done || lia.
Qed.


(** ** More of the classifier, the compressor and the hook *)

(** X5. The classifier never answers decision, solution or pattern; it
    answers bugfix or refactor only for Edit and feature only for
    Write. *)
Theorem classifyObservationType_by_tool `{CaseMapping} (toolName output : jsstring) :
  let type := classifyObservationType toolName output in
  (type ∉ [Decision; Solution; Pattern]) ∧
  (type ∈ [Bugfix; Refactor] → toolName = lit "Edit") ∧
  (type = Feature → toolName = lit "Write").
Proof.
  unfold classifyObservationType.
  repeat (case_match || case_bool_decide);
    (split; [compute_done|split]); try done;
    intros Hin; exfalso; revert Hin; compute_done.
Qed.

Section HookMore.
Context `{CaseMapping} `{JSONParser}.

Lemma compressToolOutput_size toolName toolInput output result :
  compressToolOutput toolName toolInput output = Some result →
  CompressionResult.originalSize result = length output ∧
  if CompressionResult.wasCompressed result
  then COMPRESSION_THRESHOLD < length output ∧
       length (CompressionResult.compressed result) ≤ TARGET_COMPRESSED_SIZE
  else length output ≤ COMPRESSION_THRESHOLD ∧
       CompressionResult.compressed result = output.
Proof.
  unfold compressToolOutput. case_bool_decide as Hshort.
  - by intros [= <-].
  - destruct (render toolName toolInput output) as [rendered|]; [|done].
    intros [= <-]. simpl. split; [done|].
    split; [lia | apply truncateToTarget_length].
Qed.

Lemma extractMetadata_unset toolName toolInput :
  let metadata := extractMetadata toolName toolInput in
  Metadata.compressed metadata = None ∧ Metadata.originalSize metadata = None ∧
  Metadata.compressedSize metadata = None ∧ Metadata.sessionId metadata = None ∧
  Metadata.observationId metadata = None ∧ Metadata.timestamp metadata = None ∧
  Metadata.tool metadata = None ∧ Metadata.type metadata = None.
Proof.
  unfold extractMetadata. repeat (case_match || case_bool_decide); done.
Qed.
End HookMore.

(** X6. Compressing twice changes nothing: whatever [compressToolOutput]
    returns is short enough to pass through a second call unchanged,
    for any tool and input. *)
Theorem compressToolOutput_idempotent `{CaseMapping} `{JSONParser}
    (toolName toolName' : jsstring) (toolInput toolInput' : option ToolInput.t)
    (output : jsstring) (result : CompressionResult.t) :
  compressToolOutput toolName toolInput output = Some result →
  compressToolOutput toolName' toolInput' (CompressionResult.compressed result) =
    Some {| CompressionResult.compressed := CompressionResult.compressed result;
            CompressionResult.wasCompressed := false;
            CompressionResult.originalSize :=
              length (CompressionResult.compressed result) |}.
Proof.
  intros Hresult.
  destruct (compressToolOutput_size _ _ _ _ Hresult) as [_ Hsize].
  unfold compressToolOutput at 1. rewrite bool_decide_eq_true_2; [done|].
  unfold COMPRESSION_THRESHOLD, TARGET_COMPRESSED_SIZE in *.
  destruct (CompressionResult.wasCompressed result);
    destruct Hsize as [Hlen Hcompressed]; [lia | by rewrite Hcompressed].
Qed.

Lemma compressToolOutput_idempotent_witness :
  ∃ result,
    @compressToolOutput basic_latin JSONText.parse (lit "Bash") None output_3001
      = Some result ∧
    @compressToolOutput basic_latin JSONText.parse (lit "Read") None
      (CompressionResult.compressed result) =
      Some {| CompressionResult.compressed := CompressionResult.compressed result;
              CompressionResult.wasCompressed := false;
              CompressionResult.originalSize :=
                length (CompressionResult.compressed result) |}.
Proof.
  destruct (@compressToolOutput basic_latin JSONText.parse (lit "Bash") None output_3001)
    as [result|] eqn:Hresult; [|vm_compute in Hresult; discriminate].
  exists result. split; [reflexivity|].
  exact (@compressToolOutput_idempotent basic_latin JSONText.parse _ _ _ _ _ _ Hresult).
Defined.

(** X7. What the hook stores about compression is consistent.  A record
    flagged as compressed comes from an output of more than 3000 code
    units, whose length is its original size; its content is the
    compressed text, uncut, of at most 2000 code units, and the
    compressed size is that content's length.  Any other record carries
    no compression key, and its content is the output itself up to 2500
    code units. *)
Theorem main_compression_metadata `{CaseMapping} `{JSONParser}
    (hookInput : option HookInput.t) (memory : list Remembered.t)
    (observation : Remembered.t) :
  (main hookInput memory).1 = memory ++ [observation] →
  ∃ event tool_name,
    hookInput = Some event ∧ HookInput.tool_name event = Some tool_name ∧
    let output :=
      effectiveOutput_of tool_name (HookInput.tool_input event)
        (tool_output_of (HookInput.tool_response event)) in
    let metadata := Remembered.metadata observation in
    let content := Remembered.content observation in
    if bool_decide (3000 < length output)
    then Metadata.compressed metadata = Some true ∧
         Metadata.originalSize metadata = Some (length output) ∧
         Metadata.compressedSize metadata = Some (length content) ∧
         length content ≤ 2000
    else Metadata.compressed metadata = None ∧
         Metadata.originalSize metadata = None ∧
         Metadata.compressedSize metadata = None ∧
         (length output ≤ 2500 → content = output).
Proof.
  intros Hstored.
  destruct (main_stored hookInput memory)
    as [Hsame|(event & tool_name & stored & -> & _ & Hname & Hobserve & Hmain)].
  { rewrite Hsame in Hstored. apply (f_equal length) in Hstored.
    rewrite length_app in Hstored. simpl in Hstored. lia. }
  rewrite Hmain in Hstored. apply app_inj_tail in Hstored as [_ ->].
  exists event, tool_name. split; [done|]. split; [done|].
  cbv zeta. unfold observe in Hobserve.
  destruct (compressToolOutput _ _ _) as [result|] eqn:Hresult; [|done].
  simpl in Hobserve. injection Hobserve as <-. simpl.
  destruct (compressToolOutput_size _ _ _ _ Hresult) as [Horiginal Hsize].
  destruct (extractMetadata_unset tool_name (HookInput.tool_input event))
    as (Hc & Ho & Hs & _).
  unfold COMPRESSION_THRESHOLD, TARGET_COMPRESSED_SIZE in *.
  destruct (CompressionResult.wasCompressed result);
    destruct Hsize as [Hlen Hcompressed].
  - rewrite bool_decide_eq_true_2 by lia. simpl.
    assert (content_of (CompressionResult.compressed result)
            = CompressionResult.compressed result) as ->.
    { unfold content_of, MAX_OUTPUT_LENGTH. by rewrite bool_decide_eq_false_2 by lia. }
    by rewrite Horiginal.
  - rewrite bool_decide_eq_false_2 by lia. rewrite Hcompressed.
    repeat split; try done.
    intros Hshort. unfold content_of, MAX_OUTPUT_LENGTH.
    by rewrite bool_decide_eq_false_2 by lia.
Qed.

Lemma main_compression_metadata_witness :
  ∃ observation,
    (@main basic_latin JSONText.parse (Some (event "Bash" output_3001)) []).1
      = [] ++ [observation] ∧
    Metadata.originalSize (Remembered.metadata observation) = Some 3001 ∧
    Metadata.compressedSize (Remembered.metadata observation)
      = Some (length (Remembered.content observation)).
Proof.
  assert (Hstored : ∃ observation,
            (@main basic_latin JSONText.parse (Some (event "Bash" output_3001)) []).1
              = [] ++ [observation])
    by (eexists; vm_compute; reflexivity).
  destruct Hstored as [observation Hstored]. exists observation.
  split; [exact Hstored|].
  destruct (@main_compression_metadata basic_latin JSONText.parse _ _ _ Hstored)
    as (input & tool_name & Hinput & Hname & Hmetadata).
  injection Hinput as <-. injection Hname as <-.
  vm_compute in Hmetadata. destruct Hmetadata as (_ & Horiginal & Hsize & _).
  split; [exact Horiginal | exact Hsize].
Defined.

(** X8. The keys [extractMetadata] sets depend on the tool alone: the file
    (one path, as given) for Read, Edit and Write, and for no other
    tool; the command, cut to 200 code units, for Bash; the pattern and
    the search path for Grep and Glob.  An empty or missing field sets
    no key. *)
Theorem extractMetadata_keys `{CaseMapping} `{JSONParser}
    (toolName : jsstring) (toolInput : option ToolInput.t) :
  let metadata := extractMetadata toolName toolInput in
  (∀ files, Metadata.files metadata = Some files →
     toolName ∈ lit <$> ["Read"; "Edit"; "Write"]%string ∧
     ∃ path, toolInput ≫= ToolInput.file_path = Some path ∧ path ≠ [] ∧
       files = [path]) ∧
  (∀ command, Metadata.command metadata = Some command →
     toolName = lit "Bash" ∧
     ∃ cmd, toolInput ≫= ToolInput.command = Some cmd ∧ cmd ≠ [] ∧
       command = take 200 cmd) ∧
  (∀ pattern, Metadata.pattern metadata = Some pattern →
     toolName ∈ lit <$> ["Grep"; "Glob"]%string ∧ pattern ≠ [] ∧
     toolInput ≫= ToolInput.pattern = Some pattern) ∧
  (∀ searchPath, Metadata.searchPath metadata = Some searchPath →
     toolName ∈ lit <$> ["Grep"; "Glob"]%string ∧ searchPath ≠ [] ∧
     toolInput ≫= ToolInput.path = Some searchPath).
Proof.
  unfold extractMetadata.
  destruct toolInput as [toolInput|];
    repeat (case_match || case_bool_decide); subst;
    (split; [|split; [|split]]); intros key Hkey; simpl in Hkey;
    try discriminate; injection Hkey as <-;
    (split; [done|]); try done; by eexists.
Qed.

(** ** More of the extractors and of the glob renderer *)

Lemma trimStart_clean (s : jsstring) :
  match trimStart s with c :: _ => is_space c = false | [] => True end.
Proof.
  induction s as [|c s IH]; [done|]. simpl.
  destruct (is_space c) eqn:Hc; [done|]. by rewrite Hc.
Qed.

Lemma trimStart_fixed (s : jsstring) :
  match s with c :: _ => is_space c = false | [] => True end → trimStart s = s.
Proof. destruct s as [|c s]; [done|]. simpl. by intros ->. Qed.

Lemma trimStart_suffix (s : jsstring) : ∃ spaces, s = spaces ++ trimStart s.
Proof.
  induction s as [|c s [spaces IH]]; [by exists []|]. simpl.
  destruct (is_space c); [|by exists []].
  exists (c :: spaces). simpl. by rewrite <- IH.
Qed.

Lemma trim_trim (s : jsstring) : trim (trim s) = trim s.
Proof.
  unfold trim.
  pose proof (trimStart_clean s) as Hhead.
  destruct (trimStart_suffix (reverse (trimStart s))) as [spaces Htail].
  set (kept := trimStart (reverse (trimStart s))) in *.
  assert (Hkept : match kept with c :: _ => is_space c = false | [] => True end)
    by apply trimStart_clean.
  apply (f_equal reverse) in Htail. rewrite reverse_involutive, reverse_app in Htail.
  rewrite (trimStart_fixed (reverse kept)).
  - by rewrite reverse_involutive, (trimStart_fixed kept).
  - rewrite Htail in Hhead. by destruct (reverse kept).
Qed.

(** X9. Every name [extractExports] returns is non-empty and has no white
    space at either end. *)
Theorem extractExports_trimmed (code name : jsstring) :
  name ∈ extractExports code → name ≠ [] ∧ trim name = name.
Proof.
  unfold extractExports. intros Hname.
  apply (Set_of_first_occurrences (export_matches code)) in Hname.
  unfold export_matches, pushed_by in Hname.
  apply list_elem_of_bind in Hname as (pattern & Hname & _).
  apply list_elem_of_bind in Hname as (m & Hname & _).
  unfold export_names, filter_Boolean in Hname.
  apply list_elem_of_filter in Hname as [Hfull Hname].
  apply list_elem_of_fmap in Hname as (raw & -> & _).
  split; [done | apply trim_trim].
Qed.

Lemma extractExports_trimmed_witness :
  lit "a" ∈ extractExports (lit "export { a , b }") ∧ trim (lit "a") = lit "a".
Proof.
  assert (Hin : lit "a" ∈ extractExports (lit "export { a , b }"))
    by (vm_compute; apply list_elem_of_here).
  split; [exact Hin | exact (proj2 (extractExports_trimmed _ _ Hin))].
Defined.
Lemma byDir_push_known byDir f :
  NoDup byDir.*1 → directory_of f ∈ byDir.*1 →
  ∃ byDir', byDir_push byDir f = Some byDir' ∧ byDir'.*1 = byDir.*1 ∧
    entries_total byDir' = S (entries_total byDir) ∧
    ∀ entry, entry ∈ byDir' → entry.2 ≠ [] ∨ entry ∈ byDir.
Proof.
  intros Hdup Hin. unfold byDir_push. fold (directory_of f).
  rewrite (bool_decide_eq_true_2 _ Hin). eexists. split; [done|].
  set (file := or_else _ f). clearbody file.
  induction byDir as [|[dir files] byDir IH]; [by apply elem_of_nil in Hin|].
  rewrite fmap_cons in Hdup, Hin. apply NoDup_cons in Hdup as [Hfresh Hdup].
  unfold entries_total in *. rewrite !fmap_cons. cbn [fst snd] in *.
  case_bool_decide as Hdir.
  - subst dir. cbn [fst snd sum_list sum_list_with].
    assert (Hrest : ((λ kv : jsstring * list jsstring,
                if bool_decide (kv.1 = directory_of f) then (kv.1, kv.2 ++ [file]) else kv)
             <$> byDir) = byDir).
    { clear -Hfresh. induction byDir as [|[d fs] byDir IH]; [done|].
      rewrite !fmap_cons in *. cbn [fst snd] in *.
      apply not_elem_of_cons in Hfresh as [? ?].
      rewrite bool_decide_eq_false_2 by done. by rewrite IH. }
    rewrite Hrest. split; [done|]. split; [rewrite length_app; simpl; lia|].
    intros entry [->|?]%elem_of_cons; [left; simpl; by destruct files | right; by right].
  - apply elem_of_cons in Hin as [Hin|Hin]; [done|].
    destruct (IH Hdup Hin) as (Hkeys & Htotal & Hentries).
    cbn [fst snd sum_list sum_list_with].
    split; [by rewrite Hkeys|]. split; [unfold sum_list in *; rewrite Htotal; lia|].
    intros entry [->|Hentry]%elem_of_cons; [right; by left|].
    destruct (Hentries _ Hentry); [by left | right; by right].
Qed.

Lemma byDir_push_new byDir f :
  directory_of f ∉ byDir.*1 →
  byDir_push byDir f =
    if bool_decide (directory_of f ∈ Object_prototype_names) then None
    else Some (byDir ++ [(directory_of f, [or_else (Some (split_pop slash f)) f])]).
Proof.
  intros Hnew. unfold byDir_push. fold (directory_of f).
  by rewrite (bool_decide_eq_false_2 _ Hnew).
Qed.

Lemma byDir_push_grouping n byDir f :
  grouping_of n byDir →
  if bool_decide (directory_of f ∈ Object_prototype_names)
  then byDir_push byDir f = None
  else ∃ byDir', byDir_push byDir f = Some byDir' ∧ grouping_of (S n) byDir'.
Proof.
  intros (Hdup & Htotal & Hentries).
  destruct (decide (directory_of f ∈ byDir.*1)) as [Hin|Hnew].
  - destruct (byDir_push_known byDir f Hdup Hin)
      as (byDir' & Hpush & Hkeys & Htotal' & Hentries').
    assert (Hproper : directory_of f ∉ Object_prototype_names).
    { apply list_elem_of_fmap in Hin as (entry & -> & Hentry).
      by apply Hentries. }
    rewrite (bool_decide_eq_false_2 _ Hproper).
    exists byDir'. split; [done|]. split; [by rewrite Hkeys|]. split; [lia|].
    intros entry Hentry. split.
    + destruct (Hentries' _ Hentry) as [?|Hold]; [done | by apply Hentries].
    + assert (Hkey : entry.1 ∈ byDir.*1)
        by (rewrite <- Hkeys; apply list_elem_of_fmap; by exists entry).
      apply list_elem_of_fmap in Hkey as (old & -> & Hold). by apply Hentries.
  - rewrite (byDir_push_new _ _ Hnew). case_bool_decide as Hproper; [done|].
    eexists. split; [done|]. split; [|split].
    + rewrite fmap_app. apply NoDup_app. split; [done|]. split.
      * intros dir Hdir [->|[]%elem_of_nil]%elem_of_cons. done.
      * apply NoDup_singleton.
    + unfold entries_total in *. rewrite fmap_app, sum_list_with_app, Htotal.
      simpl. lia.
    + intros entry [Hentry|[->|[]%elem_of_nil]%elem_of_cons]%elem_of_app;
        [by apply Hentries | done].
Qed.

Lemma grouped_snoc files f :
  grouped (files ++ [f]) = grouped files ≫= λ byDir, byDir_push byDir f.
Proof. unfold grouped. by rewrite foldl_snoc. Qed.

Lemma grouped_spec files :
  if bool_decide (Exists (λ f, directory_of f ∈ Object_prototype_names) files)
  then grouped files = None
  else ∃ byDir, grouped files = Some byDir ∧ grouping_of (length files) byDir.
Proof.
  induction files as [|f files IH] using rev_ind.
  - rewrite bool_decide_eq_false_2 by (by intros ?%Exists_nil).
    exists []. split; [done|]. split; [apply NoDup_nil_2|]. split; [done|].
    by intros entry ?%elem_of_nil.
  - rewrite grouped_snoc, length_app. simpl. rewrite Nat.add_1_r.
    case_bool_decide as Hsome.
    + rewrite IH. rewrite bool_decide_eq_true_2; [done|].
      apply Exists_app. by left.
    + destruct IH as (byDir & -> & Hgrouping). simpl.
      pose proof (byDir_push_grouping _ _ f Hgrouping) as Hpush.
      case_bool_decide as Hf.
      * rewrite Hpush. rewrite bool_decide_eq_true_2; [done|].
        apply Exists_app. right. by apply Exists_cons_hd.
      * rewrite bool_decide_eq_false_2; [done|].
        intros [?|[?|?%Exists_nil]%Exists_cons]%Exists_app; done.
Qed.

Lemma entries_total_ge byDir :
  (∀ entry, entry ∈ byDir → entry.2 ≠ []) → length byDir ≤ entries_total byDir.
Proof.
  unfold entries_total. induction byDir as [|[dir files] byDir IH]; [done|].
  intros Hentries. rewrite fmap_cons. simpl.
  assert (files ≠ []) by (apply (Hentries (dir, files)); by left).
  assert (length byDir ≤ sum_list ((λ entry, length entry.2) <$> byDir))
    by (apply IH; intros; apply Hentries; by right).
  destruct files; [done|]. simpl. unfold sum_list in *. lia.
Qed.

(** X10. The glob renderer raises exactly when the listing is not an array
    of strings or one of its files lies in a directory named like a
    member every object inherits ("constructor", "toString", ...). *)
Theorem compressGlobOutput_raises_iff `{JSONParser}
    (toolInput : option ToolInput.t) (output : jsstring) :
  compressGlobOutput toolInput output = None ↔
  match string_elements (glob_files output) with
  | None => True
  | Some files => ∃ f, f ∈ files ∧ directory_of f ∈ Object_prototype_names
  end.
Proof.
  unfold compressGlobOutput.
  destruct (string_elements (glob_files output)) as [files|]; [|done].
  simpl. fold (grouped files). pose proof (grouped_spec files) as Hgrouped.
  case_bool_decide as Hsome.
  - rewrite Hgrouped. simpl. split; [intros _|done].
    by apply Exists_exists in Hsome.
  - destruct Hgrouped as (byDir & -> & _). simpl. split; [done|].
    intros Hf. destruct Hsome. by apply Exists_exists.
Qed.

(** X11. The header of the glob summary adds up: when the grouping loop
    ends, no directory is listed twice, none is empty, and the files of
    all directories are as many as the listing has, so that the
    directories are at most as many as the files. *)
Theorem grouped_counts (files : list jsstring)
    (byDir : list (jsstring * list jsstring)) :
  grouped files = Some byDir →
  NoDup byDir.*1 ∧ entries_total byDir = length files ∧
  (∀ entry, entry ∈ byDir → entry.2 ≠ []) ∧ length byDir ≤ length files.
Proof.
  intros Hgrouped. pose proof (grouped_spec files) as Hspec.
  rewrite Hgrouped in Hspec. case_bool_decide; [done|].
  destruct Hspec as (? & [= <-] & Hdup & Htotal & Hentries).
  assert (Hfull : ∀ entry, entry ∈ byDir → entry.2 ≠ [])
    by (intros; by apply Hentries).
  split; [done|]. split; [done|]. split; [done|].
  rewrite <- Htotal. by apply entries_total_ge.
Qed.

Lemma grouped_counts_witness :
  grouped three_files =
    Some [(lit "src", [lit "a.ts"; lit "b.ts"]); (lit "test", [lit "a.test.ts"])] ∧
  entries_total [(lit "src", [lit "a.ts"; lit "b.ts"]); (lit "test", [lit "a.test.ts"])]
    = length three_files.
Proof.
  assert (Hgrouped : grouped three_files =
            Some [(lit "src", [lit "a.ts"; lit "b.ts"]); (lit "test", [lit "a.test.ts"])])
    by (vm_compute; reflexivity).
  split; [exact Hgrouped|].
  exact (proj1 (proj2 (grouped_counts _ _ Hgrouped))).
Defined.

(** ** More of the context assembler *)

Lemma estimateTokens_nonneg (text : jsstring) : (0 ≤ estimateTokens text)%Z.
Proof. unfold estimateTokens. lia. Qed.

Lemma tokens_of_nonneg l : (0 ≤ tokens_of l)%Z.
Proof.
  unfold tokens_of. induction l as [|obs l IH]; simpl; [done|].
  pose proof (estimateTokens_nonneg (context_line obs)). lia.
Qed.

Lemma within_budget_ge maxTokens l parts count :
  (count ≤ (within_budget maxTokens l parts count).2)%Z.
Proof.
  revert parts count. induction l as [|obs l IH]; intros parts count; simpl; [done|].
  destruct (maxTokens <? count + estimateTokens (context_line obs))%Z; [done|].
  etrans; [|apply IH]. pose proof (estimateTokens_nonneg (context_line obs)). lia.
Qed.

Lemma within_budget_mono b1 b2 l parts1 parts2 count :
  (b1 ≤ b2)%Z →
  ((within_budget b1 l parts1 count).2 ≤ (within_budget b2 l parts2 count).2)%Z.
Proof.
  intros Hle. revert parts1 parts2 count.
  induction l as [|obs l IH]; intros parts1 parts2 count; simpl; [done|].
  destruct (Z.ltb_spec b1 (count + estimateTokens (context_line obs))) as [Hover|Hfits].
  - simpl. apply (within_budget_ge b2 (obs :: l) parts2 count).
  - destruct (Z.ltb_spec b2 (count + estimateTokens (context_line obs))); [lia|].
    apply IH.
Qed.

Lemma within_budget_all maxTokens l parts count :
  (count + tokens_of l ≤ maxTokens)%Z →
  (within_budget maxTokens l parts count).2 = (count + tokens_of l)%Z.
Proof.
  revert parts count. induction l as [|obs l IH]; intros parts count; simpl.
  - intros _. unfold tokens_of. simpl. lia.
  - change (tokens_of (obs :: l))
      with (estimateTokens (context_line obs) + tokens_of l)%Z.
    pose proof (tokens_of_nonneg l). intros Hfits.
    destruct (Z.ltb_spec maxTokens (count + estimateTokens (context_line obs)));
      [lia|].
    rewrite IH by lia. lia.
Qed.

Lemma within_budget_none maxTokens l parts :
  (maxTokens < 0)%Z → (within_budget maxTokens l parts 0).2 = 0%Z.
Proof.
  intros Hneg. destruct l as [|obs l]; simpl; [done|].
  pose proof (estimateTokens_nonneg (context_line obs)).
  by destruct (Z.ltb_spec maxTokens (0 + estimateTokens (context_line obs))); [|lia].
Qed.

(** X12. The token count grows with the budget and does not depend on the
    query: the relevant memories are never counted.  It is never
    negative, so under a negative budget it is 0 and over the budget;
    and when all recent observations fit, it is their whole estimate. *)
Theorem getContext_budget_monotone (mind : Mind.t) (query1 query2 : option jsstring)
    (budget1 budget2 : Z) :
  (budget1 ≤ budget2)%Z →
  (0 ≤ InjectedContext.tokenCount (getContext (with_budget budget1 mind) query1)
     ≤ InjectedContext.tokenCount (getContext (with_budget budget2 mind) query2))%Z ∧
  ((budget1 < 0)%Z →
   InjectedContext.tokenCount (getContext (with_budget budget1 mind) query1) = 0%Z) ∧
  ((tokens_of (InjectedContext.recentObservations (getContext mind query1))
      ≤ budget1)%Z →
   InjectedContext.tokenCount (getContext (with_budget budget1 mind) query1) =
     tokens_of (InjectedContext.recentObservations (getContext mind query1))).
Proof.
  intros Hle.
  destruct (getContext_fields (with_budget budget1 mind) query1) as (_ & _ & ->).
  destruct (getContext_fields (with_budget budget2 mind) query2) as (_ & _ & ->).
  destruct (getContext_fields mind query1) as (-> & _ & _).
  simpl. split; [split|split].
  - apply (within_budget_ge budget1 _ [] 0%Z).
  - by apply within_budget_mono.
  - apply within_budget_none.
  - intros Hfits. by rewrite within_budget_all.
Qed.

Lemma getContext_budget_monotone_witness :
  (220 ≤ 2000)%Z ∧
  InjectedContext.tokenCount (getContext (with_budget 220 mind_30) None) = 200%Z ∧
  InjectedContext.tokenCount (getContext (with_budget 2000 mind_30) (Some (lit "memvid")))
    = 1500%Z ∧
  (200 ≤ 1500)%Z.
Proof.
  assert (Hle : (220 ≤ 2000)%Z) by lia.
  destruct (getContext_budget_monotone mind_30 None (Some (lit "memvid")) 220 2000 Hle)
    as ([_ Hmono] & _).
  assert (Hlow : InjectedContext.tokenCount (getContext (with_budget 220 mind_30) None)
                 = 200%Z) by (vm_compute; reflexivity).
  assert (Hhigh : InjectedContext.tokenCount
                    (getContext (with_budget 2000 mind_30) (Some (lit "memvid")))
                  = 1500%Z) by (vm_compute; reflexivity).
  split; [exact Hle|]. split; [exact Hlow|]. split; [exact Hhigh|].
  rewrite Hlow, Hhigh in Hmono. exact Hmono.
Defined.

(** ** Storing and reading back *)

Section TitleTag.
Context {R : Type}.

Lemma trimStart_drop (s : jsstring) :
  trimStart s = drop (length s - length (trimStart s)) s ∧
  length (trimStart s) ≤ length s.
Proof.
  induction s as [|c s [IH Hle]]; [done|]. simpl.
  destruct (is_space c); [|by rewrite Nat.sub_diag].
  split; [|lia]. by replace (S (length s) - length (trimStart s))
    with (S (length s - length (trimStart s))) by lia.
Qed.

(** [\s*] ahead of a continuation that accepts anything takes all the
    white space there is. *)
Lemma rep_loop_ws (k : cont (R:=R)) fuel pos s caps :
  (∀ pos' s' caps', is_Some (k pos' s' caps')) → length s ≤ fuel →
  rep_loop (run ws) true k fuel 0 pos s caps =
    k (pos + (length s - length (trimStart s))) (trimStart s) caps.
Proof.
  intros Htotal. revert fuel pos. induction s as [|c s IH]; intros fuel pos Hfuel.
  - destruct fuel; simpl; by rewrite Nat.add_0_r.
  - destruct fuel as [|fuel]; [simpl in Hfuel; lia|].
    pose proof (trimStart_drop s) as [_ Hle].
    cbn [rep_loop run ws trimStart length]. change (0 <? 0) with false.
    cbn [orb]. destruct (is_space c) eqn:Hc.
    + assert ((pos <? S pos) = true) as -> by (apply Nat.ltb_lt; lia).
      cbn [Nat.pred]. rewrite IH by (simpl in Hfuel; lia).
      replace ((pos + (S (length s) - length (trimStart s))))
        with (S pos + (length s - length (trimStart s))) by lia.
      by destruct (Htotal (S pos + (length s - length (trimStart s))) (trimStart s) caps)
        as [res ->].
    + cbn [first_of length]. by rewrite Nat.sub_diag, Nat.add_0_r.
Qed.

(** [.*?] ahead of a continuation that needs [stop] next goes up to the
    first [stop] on the line. *)
Lemma rep_loop_lazy_dot (k : cont (R:=R)) (stop : code_unit) tag rest fuel pos caps :
  (∀ pos' c s' caps', c ≠ stop → k pos' (c :: s') caps' = None) →
  stop ∉ tag → Forall (λ c, is_line_terminator c = false) tag →
  length tag ≤ fuel →
  is_Some (k (pos + length tag) (stop :: rest) caps) →
  rep_loop (run dot) false k fuel 0 pos (tag ++ stop :: rest) caps =
    k (pos + length tag) (stop :: rest) caps.
Proof.
  intros Hstop. revert fuel pos.
  induction tag as [|c tag IH]; intros fuel pos Hfresh Hline Hfuel [res Hres].
  - simpl in *. rewrite Nat.add_0_r in *.
    destruct fuel; simpl; by rewrite Hres.
  - destruct fuel as [|fuel]; [simpl in Hfuel; lia|].
    apply not_elem_of_cons in Hfresh as [Hc Hfresh].
    apply Forall_cons in Hline as [Hcline Hline].
    cbn [rep_loop run dot app]. change (0 <? 0) with false. cbn [orb].
    rewrite (Hstop pos c _ caps) by done. rewrite Hcline. cbn [negb first_of].
    assert ((pos <? S pos) = true) as -> by (apply Nat.ltb_lt; lia).
    cbn [Nat.pred].
    replace (pos + length (c :: tag)) with (S pos + length tag) in * by (simpl; lia).
    apply IH; [done|done|simpl in Hfuel; lia|by eexists].
Qed.
End TitleTag.

Lemma search_here r pos s m :
  match_at r pos s = Some m → RegExp.search r pos s = Some m.
Proof. intros Hm. destruct s; simpl; by rewrite Hm. Qed.

(** Stripping the tag of a title: what is left of "[tag]rest" is [rest]
    without its leading white space, for a tag on one line without a
    closing bracket. *)
Lemma replace_title_tag (tag rest : jsstring) :
  93%N ∉ tag → Forall (λ c, is_line_terminator c = false) tag →
  replace_empty (lit "[" ++ tag ++ lit "]" ++ rest) title_tag = trimStart rest.
Proof.
  intros Hfresh Hline. unfold replace_empty, exec.
  cbn [Nat.leb drop RegExp.search].
  set (s := lit "[" ++ tag ++ lit "]" ++ rest).
  set (final := λ (pos' : nat) (_ : jsstring) (caps : captures),
         Some {| index := 0; lastIndex := pos';
                 groups := set_capture 0 (take (pos' - 0) s) caps |}).
  assert (Hmatch : match_at title_tag 0 s =
            final (1 + length tag + 1 + (length rest - length (trimStart rest)))
                  (trimStart rest) []).
  { unfold match_at. fold final. unfold title_tag, sequence, s, LazyStar, Star.
    change (lit "[") with [91%N]. change (lit "]") with [93%N].
    cbn [run app strip_prefix length Nat.add Nat.eqb].
    change (91 =? 91)%N with true. cbv iota.
    rewrite (rep_loop_lazy_dot _ 93%N tag rest); try done.
    - change (93 =? 93)%N with true. cbv iota.
      rewrite rep_loop_ws by done. f_equal; lia.
    - intros pos' c s' caps' Hc.
      destruct (93 =? c)%N eqn:H93; [|done]. apply N.eqb_eq in H93. by subst.
    - rewrite length_app. lia.
    - change (93 =? 93)%N with true. cbv iota.
      rewrite rep_loop_ws by done. by eexists. }
  rewrite drop_0, (search_here _ _ _ _ Hmatch). cbn [index lastIndex take app].
  unfold s. replace (1 + length tag + 1 + (length rest - length (trimStart rest)))
    with (length (lit "[" ++ tag ++ lit "]") + (length rest - length (trimStart rest)))
    by (rewrite !length_app; simpl; lia).
  replace (lit "[" ++ tag ++ lit "]" ++ rest) with ((lit "[" ++ tag ++ lit "]") ++ rest)
    by (by rewrite <- !app_assoc).
  rewrite drop_app_add. symmetry. apply trimStart_drop.
Qed.

Lemma type_name_plain (type : ObservationType) :
  type_name type ≠ [] ∧ (93%N ∉ type_name type) ∧
  Forall (λ c, is_line_terminator c = false) (type_name type).
Proof. destruct type; (split; [done|split; [compute_done|by repeat constructor]]). Qed.

Lemma spread_metadata_sessionId (base over : Metadata.t) (id : jsstring) :
  Metadata.sessionId over = Some id →
  Metadata.sessionId (spread_metadata base over) = Some id.
Proof. intros Hid. unfold spread_metadata. simpl. by rewrite Hid. Qed.

(** The observation [getContext] makes of the frame of a remembered
    record. *)
Lemma observation_of_remembered (mind : Mind.t) (id : jsstring) (now : Z)
    (input : Remembered.t) (frame : Frame.t) :
  carries (remember_request mind id now input) frame →
  let obs := observation_of_frame frame in
  Observation.type obs = Some (type_name (Remembered.type input)) ∧
  Observation.metadata obs ≫= Metadata.sessionId = Some (Mind.sessionId mind) ∧
  Observation.summary obs =
    or_else (or_undef (Some (trimStart (Remembered.summary input)))
                      (slice0 100 <$> Frame.preview frame)) [] ∧
  Observation.content obs =
    or_else (or_undef (Some (Remembered.content input)) (Frame.preview frame)) [].
Proof.
  intros (Htitle & Hlabel & Htext & Hmetadata).
  destruct (type_name_plain (Remembered.type input)) as (Hname & Hfresh & Hline).
  assert (Hstrip :
    replace_empty (PutRequest.title (remember_request mind id now input)) title_tag
    = trimStart (Remembered.summary input)).
  { unfold remember_request. cbn [PutRequest.title].
    change (lit "] " ++ Remembered.summary input)
      with (lit "]" ++ 32%N :: Remembered.summary input).
    by rewrite replace_title_tag. }
  unfold observation_of_frame. rewrite Htitle, Hlabel, Htext, Hmetadata.
  cbn [fmap option_fmap option_map]. rewrite Hstrip.
  cbn -[trimStart or_else or_undef].
  split; [by destruct (type_name (Remembered.type input))|]. by repeat split.
Qed.

(** X13. What [getContext] reads back of a remembered record.  The type is
    the record's and the session is the mind's, whatever the record's
    metadata said.  The summary comes back without its leading white
    space, and the content as it was; an empty one is replaced by the
    store's preview. *)
Theorem remember_read_back (mind : Mind.t) (id : jsstring) (now : Z)
    (input : Remembered.t) (frame : Frame.t) :
  carries (remember_request mind id now input) frame →
  let obs := observation_of_frame frame in
  Observation.type obs = Some (type_name (Remembered.type input)) ∧
  Observation.metadata obs ≫= Metadata.sessionId = Some (Mind.sessionId mind) ∧
  (trimStart (Remembered.summary input) ≠ [] →
   Observation.summary obs = trimStart (Remembered.summary input)) ∧
  (trimStart (Remembered.summary input) = [] →
   Observation.summary obs = or_else (slice0 100 <$> Frame.preview frame) []) ∧
  (Remembered.content input ≠ [] →
   Observation.content obs = Remembered.content input) ∧
  (Remembered.content input = [] →
   Observation.content obs = or_else (Frame.preview frame) []).
Proof.
  intros Hcarries.
  destruct (observation_of_remembered mind id now input frame Hcarries)
    as (Htype & Hsession & Hsummary & Hcontent).
  cbv zeta. rewrite Hsummary, Hcontent.
  split; [done|]. split; [done|].
  split; [by destruct (trimStart (Remembered.summary input))|].
  split; [intros ->; by destruct (Frame.preview frame) as [[|]|]|].
  split; [by destruct (Remembered.content input)|].
  intros ->. by destruct (Frame.preview frame) as [[|]|].
Qed.

Lemma remember_read_back_witness :
  carries (remember_request (fresh_mind "0123456789abcdef") (lit "a1") 1762128000000
             indented_note)
    (frame_of (remember_request (fresh_mind "0123456789abcdef") (lit "a1") 1762128000000
                 indented_note)) ∧
  Observation.summary
    (observation_of_frame
       (frame_of (remember_request (fresh_mind "0123456789abcdef") (lit "a1")
                    1762128000000 indented_note)))
    = lit "Chose Postgres".
Proof.
  assert (Hcarries :
    carries (remember_request (fresh_mind "0123456789abcdef") (lit "a1") 1762128000000
               indented_note)
      (frame_of (remember_request (fresh_mind "0123456789abcdef") (lit "a1")
                   1762128000000 indented_note))) by done.
  split; [exact Hcarries|].
  destruct (remember_read_back _ _ _ _ _ Hcarries) as (_ & _ & Hsummary & _).
  apply Hsummary. vm_compute. discriminate.
Defined.

Section HookReadBack.
Context `{CaseMapping} `{JSONParser}.

(** The captions of the observed tools start with a letter. *)
Lemma generateSummary_clean tool_name tool_input tool_output :
  tool_name ∈ OBSERVED_TOOLS →
  trimStart (generateSummary tool_name tool_input tool_output)
    = generateSummary tool_name tool_input tool_output ∧
  generateSummary tool_name tool_input tool_output ≠ [].
Proof.
  intros Hobserved. unfold OBSERVED_TOOLS in Hobserved.
  repeat (apply elem_of_cons in Hobserved as [->|Hobserved]);
    [..|by apply elem_of_nil in Hobserved];
    unfold generateSummary; cbn [bool_decide decide_rel]; simpl;
    repeat case_match; done.
Qed.

Lemma observe_fields tool_name tool_input effectiveOutput observation :
  observe tool_name tool_input effectiveOutput = Some observation →
  Remembered.tool observation = tool_name ∧
  Remembered.summary observation = generateSummary tool_name tool_input effectiveOutput ∧
  Metadata.observationId (Remembered.metadata observation) = None ∧
  Metadata.timestamp (Remembered.metadata observation) = None ∧
  Metadata.tool (Remembered.metadata observation) = None ∧
  Metadata.files (Remembered.metadata observation)
    = Metadata.files (extractMetadata tool_name tool_input).
Proof.
  unfold observe. destruct (compressToolOutput _ _ _) as [result|]; [|done].
  simpl. intros [= <-]. simpl.
  destruct (extractMetadata_unset tool_name tool_input)
    as (_ & _ & _ & _ & Hid & Hts & Htool & _).
  by destruct (CompressionResult.wasCompressed result).
Qed.
End HookReadBack.

(** X14. From the hook through the store and back.  A record the
    post-tool-use hook stored, once remembered and fetched again, comes
    back as an observation with the identifier and the time it was given
    on the way in, with the hook's type, tool and summary, with its
    content and the files of its metadata, and under the remembering
    mind's session. *)
Theorem hook_observation_read_back `{CaseMapping} `{JSONParser}
    (hookInput : option HookInput.t) (memory : list Remembered.t)
    (input : Remembered.t) (mind : Mind.t) (id : jsstring) (now : Z)
    (frame : Frame.t) :
  (main hookInput memory).1 = memory ++ [input] →
  carries (remember_request mind id now input) frame →
  id ≠ [] → (4102444800 ≤ now)%Z →
  let obs := observation_of_frame frame in
  Observation.id obs = Some id ∧
  Observation.timestamp obs = now ∧
  Observation.type obs = Some (type_name (Remembered.type input)) ∧
  Observation.tool obs = Some (Remembered.tool input) ∧
  Observation.summary obs = Remembered.summary input ∧
  (Remembered.content input ≠ [] →
   Observation.content obs = Remembered.content input) ∧
  Observation.metadata obs ≫= Metadata.files
    = Metadata.files (Remembered.metadata input) ∧
  Observation.metadata obs ≫= Metadata.sessionId = Some (Mind.sessionId mind).
Proof.
  intros Hstored Hcarries Hid Hnow.
  destruct (main_stored hookInput memory)
    as [Hsame|(event & tool_name & stored & -> & Hgates & Hname & Hobserve & Hmain)].
  { rewrite Hsame in Hstored. apply (f_equal length) in Hstored.
    rewrite length_app in Hstored. simpl in Hstored. lia. }
  rewrite Hmain in Hstored. apply app_inj_tail in Hstored as [_ ->].
  destruct Hgates as (tool_name' & Hname' & Hobserved & _).
  rewrite Hname in Hname'. injection Hname' as <-.
  destruct (observe_fields _ _ _ _ Hobserve)
    as (Htool & Hsummary & Hmid & Hmts & Hmtool & _).
  destruct (generateSummary_clean tool_name (HookInput.tool_input event)
              (effectiveOutput_of tool_name (HookInput.tool_input event)
                 (tool_output_of (HookInput.tool_response event))) Hobserved)
    as [Hclean Hfull].
  rewrite <- Hsummary in Hclean, Hfull.
  destruct (observation_of_remembered mind id now input frame Hcarries)
    as (Htype & Hsession & Hkept & Hcontent).
  destruct Hcarries as (_ & _ & _ & Hmetadata).
  cbv zeta. split; [|split; [|split; [done|split; [|split; [|split; [|split]]]]]].
  - unfold observation_of_frame. rewrite Hmetadata. cbn.
    rewrite Hmid. cbn. by destruct id.
  - unfold observation_of_frame. rewrite Hmetadata. cbn.
    rewrite Hmts. cbn. destruct now as [|now|now]; [lia| |lia]. cbn.
    rewrite bool_decide_eq_false_2; [done|lia].
  - unfold observation_of_frame. rewrite Hmetadata. cbn. by rewrite Hmtool.
  - rewrite Hkept, Hclean. by destruct (Remembered.summary input).
  - intros Hfilled. rewrite Hcontent. by destruct (Remembered.content input).
  - unfold observation_of_frame. rewrite Hmetadata. cbn.
    by destruct (Metadata.files (Remembered.metadata input)).
  - done.
Qed.

Lemma hook_observation_read_back_witness :
  ∃ input,
    (@main basic_latin JSONText.parse (Some (event "Bash" output_60)) []).1
      = [] ++ [input] ∧
    Observation.summary
      (observation_of_frame
         (frame_of (remember_request (fresh_mind "0123456789abcdef") (lit "a1")
                      1762128000000 input)))
      = lit "Ran: command".
Proof.
  assert (Hstored : ∃ input,
            (@main basic_latin JSONText.parse (Some (event "Bash" output_60)) []).1
              = [] ++ [input] ∧ Remembered.summary input = lit "Ran: command")
    by (eexists; split; vm_compute; reflexivity).
  destruct Hstored as (input & Hstored & Hsummary). exists input.
  split; [exact Hstored|].
  destruct (@hook_observation_read_back basic_latin JSONText.parse _ _ _
              (fresh_mind "0123456789abcdef") (lit "a1") 1762128000000
              (frame_of (remember_request (fresh_mind "0123456789abcdef") (lit "a1")
                           1762128000000 input))
              Hstored)
    as (_ & _ & _ & _ & Hback & _); [done|done|lia|].
  rewrite Hback. exact Hsummary.
Defined.

(** ** More of the session synthesizer and the stop hook *)

Section NarrativeFacts.
Context `{CaseMapping}.

Lemma typeCounts_step (typeCounts : gmap jsstring nat) observations key :
  foldl (λ typeCounts obs,
           let key := template (Observation.type obs) in
           <[key := default 0 (typeCounts !! key) + 1]> typeCounts)
        typeCounts observations !! key =
    match count_type key observations with
    | 0 => typeCounts !! key
    | S n => Some (default 0 (typeCounts !! key) + S n)
    end.
Proof.
  unfold count_type. revert typeCounts.
  induction observations as [|obs observations IH]; intros typeCounts; [done|].
  cbn [foldl]. rewrite IH. cbv zeta.
  destruct (decide (template (Observation.type obs) = key)) as [Hkey|Hkey].
  - rewrite filter_cons_True by done. rewrite <- Hkey, lookup_insert_eq.
    cbn [length default]. rewrite Hkey.
    unfold id. destruct (length (filter _ observations)); f_equal; lia.
  - rewrite filter_cons_False by done. by rewrite lookup_insert_ne.
Qed.

Lemma typeCounts_of_lookup observations key :
  typeCounts_of observations !! key =
    match count_type key observations with 0 => None | S n => Some (S n) end.
Proof.
  unfold typeCounts_of. rewrite typeCounts_step, lookup_empty.
  by destruct (count_type key observations).
Qed.

Lemma clause_count observations before key after :
  clause (typeCounts_of observations) before key after =
    narrative_clause before (count_type (lit key) observations) after.
Proof.
  unfold clause, narrative_clause. rewrite typeCounts_of_lookup.
  by destruct (count_type (lit key) observations).
Qed.

Lemma narrative_clauses_nil (count : string → nat) :
  narrative_clauses count = [] ↔
  count "feature"%string = 0 ∧ count "bugfix"%string = 0 ∧ count "refactor"%string = 0 ∧
  count "discovery"%string = 0 ∧ count "problem"%string = 0 ∧ count "solution"%string = 0.
Proof.
  unfold narrative_clauses, narrative_clause. split.
  - destruct (count "feature"%string), (count "bugfix"%string), (count "refactor"%string),
      (count "discovery"%string), (count "problem"%string), (count "solution"%string); done.
  - by intros (-> & -> & -> & -> & -> & ->).
Qed.

Lemma count_type_zero key observations :
  count_type key observations = 0 ↔
  ∀ obs, obs ∈ observations → template (Observation.type obs) ≠ key.
Proof.
  unfold count_type. rewrite length_zero_iff_nil. split.
  - intros Hnone obs Hobs Hkey.
    assert (Hin : obs ∈ filter (λ obs, template (Observation.type obs) = key) observations)
      by (by apply list_elem_of_filter).
    rewrite Hnone in Hin. by apply elem_of_nil in Hin.
  - intros Hnone. induction observations as [|obs observations IH]; [done|].
    rewrite filter_cons_False by (apply Hnone; by left).
    apply IH. intros. apply Hnone. by right.
Qed.
End NarrativeFacts.

(** X15. The narrative of a session counts right and reads nothing but the
    types: each of its clauses carries the true number of observations
    of its type, a clause appears exactly for the types that occur, and
    the fallback sentence with the number of observations stands in
    exactly when no observation is a feature, bugfix, refactor,
    discovery, problem or solution; the transcript plays no part. *)
Theorem generateSessionSummary_narrative `{CaseMapping}
    (observations : list Observation.t) (transcript : option jsstring) :
  let summary :=
    SessionSummaryDraft.summary (generateSessionSummary observations transcript) in
  let clauses := narrative_clauses (λ key, count_type (lit key) observations) in
  ((∀ obs, obs ∈ observations → template (Observation.type obs) ∉ narrated_types) →
   summary = lit "Session with " ++ Number_toString (length observations) ++
             lit " observations.") ∧
  ((∃ obs, obs ∈ observations ∧ template (Observation.type obs) ∈ narrated_types) →
   clauses ≠ [] ∧ summary = join (lit ". ") clauses ++ lit ".").
Proof.
  cbv zeta. unfold generateSessionSummary. cbn [SessionSummaryDraft.summary].
  rewrite !clause_count.
  fold (narrative_clauses (λ key, count_type (lit key) observations)).
  pose proof (narrative_clauses_nil (λ key, count_type (lit key) observations))
    as Hnil.
  rewrite !count_type_zero in Hnil. split.
  - intros Hnone. assert (Hempty : narrative_clauses
      (λ key, count_type (lit key) observations) = []).
    { apply Hnil. repeat split; intros obs Hobs Hkey;
        apply (Hnone obs Hobs); rewrite Hkey; compute_done. }
    by rewrite Hempty.
  - intros (obs & Hobs & Hkey).
    assert (Hclauses : narrative_clauses
      (λ key, count_type (lit key) observations) ≠ []).
    { intros Hempty. apply Hnil in Hempty as (H1 & H2 & H3 & H4 & H5 & H6).
      unfold narrated_types in Hkey.
      repeat (apply elem_of_cons in Hkey as [Hkey|Hkey]);
        [by eapply H1|by eapply H2|by eapply H3|by eapply H4|by eapply H5|
         by eapply H6|by apply elem_of_nil in Hkey]. }
    split; [done|]. rewrite bool_decide_eq_true_2; [done|].
    destruct (narrative_clauses _); [done | simpl; lia].
Qed.

Section StopFacts.
Context `{CaseMapping}.

Lemma keyDecisions_of_elem observations decision :
  decision ∈ keyDecisions_of observations →
  ∃ obs, obs ∈ observations ∧ Observation.summary obs = decision.
Proof.
  unfold keyDecisions_of. intros (obs & -> & Hobs)%list_elem_of_fmap.
  apply list_elem_of_filter in Hobs as [_ Hobs]. by exists obs.
Qed.

Lemma elem_of_sessionObservations mind context obs :
  obs ∈ StopHook.sessionObservations mind context ↔
  Observation.metadata obs ≫= Metadata.sessionId = Some (Mind.sessionId mind) ∧
  obs ∈ InjectedContext.recentObservations context.
Proof. unfold StopHook.sessionObservations. by rewrite list_elem_of_filter. Qed.
End StopFacts.

(** X16. The stop hook sums up its own session only.  It saves a summary
    exactly when at least three of the fetched observations carry the
    session identifier of its mind; every key decision of that summary
    is the summary of such an observation, and without a transcript
    every modified file is a file of such an observation. *)
Theorem StopHook_main_own_session `{CaseMapping} (mind : Mind.t)
    (transcriptContent : jsstring) :
  let own obs :=
    obs ∈ InjectedContext.recentObservations (getContext mind None) ∧
    Observation.metadata obs ≫= Metadata.sessionId = Some (Mind.sessionId mind) in
  (StopHook.main mind transcriptContent = None ↔
   length (StopHook.sessionObservations mind (getContext mind None)) < 3) ∧
  ∀ draft, StopHook.main mind transcriptContent = Some draft →
    (∀ decision, decision ∈ SessionSummaryDraft.keyDecisions draft →
       ∃ obs, own obs ∧ Observation.summary obs = decision) ∧
    (transcriptContent = [] →
     ∀ file, file ∈ SessionSummaryDraft.filesModified draft →
       ∃ obs files, own obs ∧
         Observation.metadata obs ≫= Metadata.files = Some files ∧ file ∈ files).
Proof.
  cbv zeta. unfold StopHook.main, MIN_OBSERVATIONS_FOR_SUMMARY.
  case_bool_decide as Henough; (split; [split; [done || lia | done || lia]|]);
    [|done].
  intros draft [= <-]. unfold generateSessionSummary.
  cbn [SessionSummaryDraft.keyDecisions SessionSummaryDraft.filesModified]. split.
  - intros decision Hdecision. apply (subseteq_take 10) in Hdecision.
    apply keyDecisions_of_elem in Hdecision as (obs & Hobs & Hsummary).
    apply elem_of_sessionObservations in Hobs as [Hsession Hobs]. by exists obs.
  - intros -> file Hfile. apply (subseteq_take 20) in Hfile.
    unfold filesModified_of, transcript_paths in Hfile. rewrite app_nil_r in Hfile.
    apply (Set_of_first_occurrences (observed_files _)) in Hfile.
    apply elem_of_observed_files in Hfile as (obs & files & Hobs & Hfiles & Hfile).
    apply elem_of_sessionObservations in Hobs as [Hsession Hobs].
    by exists obs, files.
Qed.

Lemma search_title_tag_later (pos : nat) (s : jsstring) :
  0 < pos → RegExp.search title_tag pos s = None.
Proof.
  revert pos. induction s as [|c s IH]; intros pos Hpos; simpl;
    (destruct pos; [lia|]); [done|].
  unfold match_at, title_tag. simpl. apply IH. lia.
Qed.

Lemma replace_title_tag_none (c : code_unit) (s : jsstring) :
  c ≠ 91%N → replace_empty (c :: s) title_tag = c :: s.
Proof.
  intros Hc. unfold replace_empty, exec. cbn [Nat.leb drop RegExp.search].
  assert (match_at title_tag 0 (c :: s) = None) as ->.
  { unfold match_at, title_tag. cbn [sequence run Nat.eqb].
    change (lit "[") with [91%N]. cbn [strip_prefix].
    destruct (91 =? c)%N eqn:H91; [|done]. apply N.eqb_eq in H91. by subst. }
  by rewrite search_title_tag_later by lia.
Qed.

(** The observation [getContext] makes of the frame of a saved session
    summary. *)
Lemma observation_of_session_summary (isoNow text : jsstring) (frame : Frame.t) :
  carries (saveSessionSummary_request isoNow text) frame →
  let obs := observation_of_frame frame in
  Observation.type obs = Some (lit "session") ∧
  Observation.metadata obs = Some Metadata.empty ∧
  Observation.summary obs =
    lit "Session Summary: " ++ template (head (split 84%N isoNow)).
Proof.
  intros (Htitle & Hlabel & Htext & Hmetadata).
  assert (Hstrip :
    replace_empty (PutRequest.title (saveSessionSummary_request isoNow text)) title_tag
    = lit "Session Summary: " ++ template (head (split 84%N isoNow)))
    by (by apply replace_title_tag_none).
  unfold observation_of_frame. rewrite Htitle, Hlabel, Htext, Hmetadata.
  cbn [fmap option_fmap option_map]. rewrite Hstrip. by cbn.
Qed.

(** X17. A saved session summary comes back as an observation of the type
    "session", which is none of the types the narrative counts, under
    its title as the summary and under no session: the stop hook of no
    mind counts it among the observations of its session. *)
Theorem session_summary_read_back (isoNow text : jsstring) (frame : Frame.t) :
  carries (saveSessionSummary_request isoNow text) frame →
  let obs := observation_of_frame frame in
  Observation.type obs = Some (lit "session") ∧
  (template (Observation.type obs) ∉ narrated_types) ∧
  Observation.summary obs =
    lit "Session Summary: " ++ template (head (split 84%N isoNow)) ∧
  ∀ mind context, obs ∉ StopHook.sessionObservations mind context.
Proof.
  intros Hcarries.
  destruct (observation_of_session_summary isoNow text frame Hcarries)
    as (Htype & Hmetadata & Hsummary).
  cbv zeta. rewrite Htype. split; [done|]. split; [compute_done|]. split; [done|].
  intros mind context Hin. apply elem_of_sessionObservations in Hin as [Hsession _].
  by rewrite Hmetadata in Hsession.
Qed.

Lemma session_summary_read_back_witness :
  carries (saveSessionSummary_request (lit "2025-11-03T10:00:00.000Z") (lit "{}"))
    (frame_of (saveSessionSummary_request (lit "2025-11-03T10:00:00.000Z") (lit "{}"))) ∧
  Observation.summary
    (observation_of_frame
       (frame_of (saveSessionSummary_request (lit "2025-11-03T10:00:00.000Z")
                    (lit "{}"))))
    = lit "Session Summary: 2025-11-03".
Proof.
  assert (Hcarries :
    carries (saveSessionSummary_request (lit "2025-11-03T10:00:00.000Z") (lit "{}"))
      (frame_of (saveSessionSummary_request (lit "2025-11-03T10:00:00.000Z")
                   (lit "{}")))) by done.
  split; [exact Hcarries|].
  destruct (session_summary_read_back _ _ _ Hcarries) as (_ & _ & Hsummary & _).
  rewrite Hsummary. vm_compute. reflexivity.
Defined.

(** X18. Across sessions nothing is summed up: when every fetched frame is
    a saved session summary or was remembered by a mind with another
    session identifier, the stop hook saves no summary, however many
    frames there are. *)
Theorem StopHook_main_other_sessions `{CaseMapping} (mind : Mind.t)
    (transcriptContent : jsstring) :
  (∀ frame,
     frame ∈ frames_of (Memvid.timeline (Mind.memvid mind)
                          (MindConfig.maxContextObservations (Mind.config mind)) true) →
     (∃ isoNow text, carries (saveSessionSummary_request isoNow text) frame) ∨
     (∃ other id now input,
        carries (remember_request other id now input) frame ∧
        Mind.sessionId other ≠ Mind.sessionId mind)) →
  StopHook.main mind transcriptContent = None.
Proof.
  intros Hframes. unfold StopHook.main.
  assert (Hnone : StopHook.sessionObservations mind (getContext mind None) = []).
  { apply elem_of_nil_inv. intros obs Hobs.
    pose proof Hobs as Hown. apply elem_of_sessionObservations in Hown as [Hsession Hin].
    destruct (getContext_fields mind None) as (Hrecent & _). rewrite Hrecent in Hin.
    apply list_elem_of_fmap in Hin as (frame & -> & Hframe).
    destruct (Hframes frame Hframe)
      as [(isoNow & text & Hcarries)|(other & id & now & input & Hcarries & Hother)].
    - destruct (observation_of_session_summary _ _ _ Hcarries) as (_ & Hmetadata & _).
      by rewrite Hmetadata in Hsession.
    - destruct (observation_of_remembered other id now input frame Hcarries)
        as (_ & Hsession' & _).
      rewrite Hsession in Hsession'. congruence. }
  rewrite Hnone. by rewrite bool_decide_eq_false_2 by (unfold MIN_OBSERVATIONS_FOR_SUMMARY; simpl; lia).
Qed.

Lemma StopHook_main_other_sessions_witness :
  @StopHook.main basic_latin (mind_over "cccc" four_frames) [] = None.
Proof.
  apply (@StopHook_main_other_sessions basic_latin).
  intros frame Hframe. right.
  change (frame ∈ four_frames) in Hframe. unfold four_frames in Hframe.
  apply elem_of_cons in Hframe as [->|Hframe];
    [exists (fresh_mind "aaaa"); do 3 eexists; split;
       [repeat split | vm_compute; discriminate]|].
  apply elem_of_cons in Hframe as [->|Hframe];
    [exists (fresh_mind "bbbb"); do 3 eexists; split;
       [repeat split | vm_compute; discriminate]|].
  apply elem_of_cons in Hframe as [->|Hframe];
    [exists (fresh_mind "aaaa"); do 3 eexists; split;
       [repeat split | vm_compute; discriminate]|].
  apply elem_of_cons in Hframe as [->|Hframe];
    [exists (fresh_mind "aaaa"); do 3 eexists; split;
       [repeat split | vm_compute; discriminate]|].
  by apply elem_of_nil in Hframe.
Defined.

(** ** The session-start hook *)

Lemma slice_to_length {A} (e : Z) (x : list A) :
  length (slice_to e x) =
    if (e <? 0)%Z then length x - Z.to_nat (- e) else Z.to_nat e `min` length x.
Proof.
  unfold slice_to. destruct (e <? 0)%Z eqn:He; rewrite length_take; [|done].
  apply Z.ltb_lt in He. lia.
Qed.

(** X19. "Recent Activity" holds to its limit of eight lines as long as
    there are at most eight file edits.  With more, the limit turns
    into a count from the end: all other observations are printed but
    the last ones, as many as there are file edits beyond eight.  No
    Bash observation is printed in either section. *)
Theorem SessionStart_recent_activity (recentObservations : list Observation.t) :
  let edits := SessionStart.fileEdits recentObservations in
  let other := SessionStart.otherObs recentObservations in
  let shown_edits := SessionStart.shown_file_edits recentObservations in
  let shown_other := SessionStart.shown_other recentObservations in
  length shown_edits ≤ 5 ∧
  (length edits ≤ 8 → length shown_edits + length shown_other ≤ 8) ∧
  (8 < length edits → shown_other = slice_but_last (length edits - 8) other) ∧
  ∀ obs, Observation.tool obs = Some (lit "Bash") →
    (obs ∉ shown_edits) ∧ (obs ∉ shown_other).
Proof.
  cbv zeta. unfold SessionStart.shown_file_edits, SessionStart.shown_other,
    MAX_RECENT_MEMORIES, slice0.
  split; [rewrite length_take; lia|]. split; [|split].
  - intros Hfew. rewrite slice_to_length, length_take.
    destruct (Z.ltb_spec (8 - Z.of_nat (length (SessionStart.fileEdits recentObservations))) 0);
      lia.
  - intros Hmany. unfold slice_to, slice_but_last.
    destruct (Z.ltb_spec (8 - Z.of_nat (length (SessionStart.fileEdits recentObservations))) 0);
      [f_equal; lia | lia].
  - intros obs Hbash. split.
    + intros Hin%(subseteq_take 5). unfold SessionStart.fileEdits in Hin.
      apply list_elem_of_filter in Hin as [Hedit _].
      unfold SessionStart.is_file_edit in Hedit. rewrite Hbash in Hedit.
      by vm_compute in Hedit.
    + assert (Hsub : ∀ e (l : list Observation.t), slice_to e l ⊆ l)
        by (intros; unfold slice_to; case_match; apply subseteq_take).
      intros Hin%Hsub. unfold SessionStart.otherObs in Hin.
      apply list_elem_of_filter in Hin as [Hother _].
      unfold SessionStart.is_other in Hother. rewrite Hbash in Hother.
      rewrite (bool_decide_eq_true_2 (Some (lit "Bash") = Some (lit "Bash"))) in Hother
        by done.
      by rewrite andb_false_r in Hother.
Qed.

(** X20. An Edit or Write observation is both a file edit and an other
    observation, so it can be printed twice; and the limit of eight
    lines does not hold: of more than eight such observations thirteen
    lines are printed, five under "Files Edited" and eight under "Other
    Activity". *)
Theorem SessionStart_edits_listed_twice (recentObservations : list Observation.t) :
  Forall (λ obs, Observation.tool obs ∈ [Some (lit "Edit"); Some (lit "Write")] ∧
                 includes (Observation.summary obs) (lit "Command:") = false)
         recentObservations →
  SessionStart.fileEdits recentObservations = recentObservations ∧
  SessionStart.otherObs recentObservations = recentObservations ∧
  (8 < length recentObservations →
   length (SessionStart.shown_file_edits recentObservations) = 5 ∧
   length (SessionStart.shown_other recentObservations) = 8 ∧
   SessionStart.shown_file_edits recentObservations
     = take 5 (SessionStart.shown_other recentObservations)).
Proof.
  intros Hall.
  assert (Hedits : SessionStart.fileEdits recentObservations = recentObservations).
  { unfold SessionStart.fileEdits. induction Hall as [|obs l [Htool _] _ IH]; [done|].
    rewrite filter_cons_True; [f_equal; apply IH|]. unfold SessionStart.is_file_edit.
    apply elem_of_cons in Htool as [->|Htool];
      [|apply elem_of_cons in Htool as [->|Htool]; [|by apply elem_of_nil in Htool]];
      by vm_compute. }
  assert (Hother : SessionStart.otherObs recentObservations = recentObservations).
  { clear Hedits. unfold SessionStart.otherObs. induction Hall as [|obs l [Htool Hcommand] _ IH]; [done|].
    rewrite filter_cons_True; [f_equal; apply IH|]. unfold SessionStart.is_other.
    rewrite Hcommand.
    apply elem_of_cons in Htool as [->|Htool];
      [|apply elem_of_cons in Htool as [->|Htool]; [|by apply elem_of_nil in Htool]];
      by vm_compute. }
  split; [done|]. split; [done|]. intros Hmany.
  unfold SessionStart.shown_file_edits, SessionStart.shown_other, MAX_RECENT_MEMORIES,
    slice0, slice_to.
  rewrite Hedits, Hother.
  destruct (Z.ltb_spec (8 - Z.of_nat (length recentObservations)) 0); [|lia].
  replace (Z.to_nat (Z.of_nat (length recentObservations)
                     + (8 - Z.of_nat (length recentObservations)))) with 8 by lia.
  rewrite !length_take. split; [lia|]. split; [lia|].
  by rewrite take_take.
Qed.

Lemma SessionStart_edits_listed_twice_witness :
  length (SessionStart.shown_file_edits twenty_edits)
  + length (SessionStart.shown_other twenty_edits) = 13.
Proof.
  assert (Hall : Forall (λ obs,
            Observation.tool obs ∈ [Some (lit "Edit"); Some (lit "Write")] ∧
            includes (Observation.summary obs) (lit "Command:") = false) twenty_edits).
  { apply Forall_replicate. split; [by left | vm_compute; reflexivity]. }
  destruct (SessionStart_edits_listed_twice twenty_edits Hall) as (_ & _ & Hshown).
  destruct Hshown as (-> & -> & _); [vm_compute; lia | reflexivity].
Defined.

(** X21. [formatFileSize] prints bytes below 1024, and from there on the
    nearest tenth of the unit, ties upwards: kilobytes below 1024 * 1024
    bytes, megabytes from there on.  The last 51 byte counts of the
    kilobyte range round up to "1024.0 KB". *)
Theorem formatFileSize_units (bytes : nat) :
  (bytes < 1024 →
   SessionStart.formatFileSize bytes = Number_toString bytes ++ lit " B") ∧
  (1024 ≤ bytes < 1024 * 1024 →
   ∃ tenths, 10 ≤ tenths ≤ 10 * 1024 ∧
     1024 * tenths ≤ 10 * bytes + 512 < 1024 * (tenths + 1) ∧
     SessionStart.formatFileSize bytes =
       Number_toString (tenths / 10) ++ lit "." ++ Number_toString (tenths mod 10)
       ++ lit " KB") ∧
  (1024 * 1024 - 51 ≤ bytes < 1024 * 1024 →
   SessionStart.formatFileSize bytes = lit "1024.0 KB") ∧
  (1024 * 1024 ≤ bytes →
   ∃ tenths, 10 ≤ tenths ∧
     1024 * 1024 * tenths ≤ 10 * bytes + 512 * 1024 < 1024 * 1024 * (tenths + 1) ∧
     SessionStart.formatFileSize bytes =
       Number_toString (tenths / 10) ++ lit "." ++ Number_toString (tenths mod 10)
       ++ lit " MB").
Proof.
  unfold SessionStart.formatFileSize, SessionStart.toFixed1.
  replace (1024 / 2) with 512 by (apply (Nat.div_unique _ _ _ 0); lia).
  replace (1024 * 1024 / 2) with (512 * 1024)
    by (apply (Nat.div_unique _ _ _ 0); lia).
  pose proof (Nat.div_mod_eq (10 * bytes + 512) 1024) as Hkb.
  pose proof (Nat.mod_upper_bound (10 * bytes + 512) 1024 ltac:(lia)) as Hkb'.
  pose proof (Nat.div_mod_eq (10 * bytes + 512 * 1024) (1024 * 1024)) as Hmb.
  pose proof (Nat.mod_upper_bound (10 * bytes + 512 * 1024) (1024 * 1024) ltac:(lia))
    as Hmb'.
  split; [|split; [|split]].
  - intros ?. by rewrite bool_decide_eq_true_2.
  - intros ?. rewrite bool_decide_eq_false_2, bool_decide_eq_true_2 by lia.
    exists ((10 * bytes + 512) / 1024). rewrite <- !app_assoc. repeat split; nia.
  - intros ?. rewrite bool_decide_eq_false_2, bool_decide_eq_true_2 by lia.
    replace ((10 * bytes + 512) / 1024) with (10 * 1024) by nia. by vm_compute.
  - intros ?. rewrite !bool_decide_eq_false_2 by lia.
    exists ((10 * bytes + 512 * 1024) / (1024 * 1024)).
    rewrite <- !app_assoc. repeat split; nia.
Qed.

(** ** Searching and fetching *)

(** X22. A hit of [search] and the recent observation of [getContext] made
    of the same frame agree in everything but the time, for a frame
    with a label, a text, a title that is more than a tag and a time in
    its metadata: [getContext] takes a time below 4102444800 for seconds
    and multiplies it by 1000, [search] leaves it as it is. *)
Theorem search_agrees_with_getContext (frame : Frame.t) (ts : Z) :
  truthy (Frame.label frame) = true →
  truthy (Frame.text frame) = true →
  Observation.summary (observation_of_hit frame) ≠ [] →
  Frame.metadata frame ≫= Metadata.timestamp = Some ts → ts ≠ 0%Z →
  let hit := observation_of_hit frame in
  let recent := observation_of_frame frame in
  Observation.id hit = Observation.id recent ∧
  Observation.type hit = Observation.type recent ∧
  Observation.tool hit = Observation.tool recent ∧
  Observation.summary hit = Observation.summary recent ∧
  Observation.content hit = Observation.content recent ∧
  Observation.metadata hit = Observation.metadata recent ∧
  Observation.timestamp hit = ts ∧
  Observation.timestamp recent =
    (if bool_decide (0 < ts < 4102444800)%Z then ts * 1000 else ts)%Z.
Proof.
  intros Hlabel Htext Hsummary Hts Hnonzero.
  unfold observation_of_hit, observation_of_frame in *.
  cbn [Observation.id Observation.type Observation.tool Observation.summary
       Observation.content Observation.metadata Observation.timestamp] in *.
  rewrite Hts.
  assert (first_nonzero (Some ts) None = ts ∧
          first_nonzero (Some ts) (Frame.timestamp frame) = ts) as [-> ->]
    by (by destruct ts).
  split; [done|]. split.
  { unfold or_undef. rewrite Hlabel. by destruct (Frame.label frame) as [[|]|]. }
  split; [done|]. split.
  { destruct ((λ t, replace_empty t title_tag) <$> Frame.title frame) as [[|c stripped]|];
      [done| |done].
    unfold or_undef. done. }
  split.
  { unfold or_undef. by rewrite Htext. }
  by repeat split.
Qed.

Lemma search_agrees_with_getContext_witness :
  Observation.timestamp
    (observation_of_frame
       (frame_of (remember_request (fresh_mind "0123456789abcdef") (lit "a1")
                    1762128000 indented_note)))
  = 1762128000000%Z ∧
  Observation.timestamp
    (observation_of_hit
       (frame_of (remember_request (fresh_mind "0123456789abcdef") (lit "a1")
                    1762128000 indented_note)))
  = 1762128000%Z.
Proof.
  destruct (search_agrees_with_getContext
              (frame_of (remember_request (fresh_mind "0123456789abcdef") (lit "a1")
                           1762128000 indented_note))
              1762128000)
    as (_ & _ & _ & _ & _ & _ & Hhit & Hrecent);
    [reflexivity | reflexivity | vm_compute; discriminate | reflexivity | lia |].
  split; [exact Hrecent | exact Hhit].
Defined.

(** ** What the scans capture *)

Lemma filled_set_capture_eq (i : nat) (v : jsstring) (caps : captures) :
  v ≠ [] → filled i (set_capture i v caps).
Proof.
  intros Hv. exists v. split; [|done]. unfold set_capture.
  apply list_lookup_insert_eq. rewrite length_app, length_replicate. lia.
Qed.

Lemma filled_set_capture_ne (i j : nat) (v : jsstring) (caps : captures) :
  j ≠ i → filled j caps → filled j (set_capture i v caps).
Proof.
  intros Hne (w & Hw & Hfull). exists w. split; [|done]. unfold set_capture.
  transitivity ((caps ++ replicate (S i - length caps) None) !! j).
  - apply list_lookup_insert_ne. congruence.
  - by apply lookup_app_l_Some.
Qed.

Section CaptureFacts.
Context {R : Type}.

Lemma rep_loop_tracks n sets
    (body : cont (R:=R) → nat → jsstring → captures → option R) greedy :
  tracks n sets body →
  ∀ k fuel need pos s caps res,
    rep_loop body greedy k fuel need pos s caps = Some res →
    ∃ pos' s' caps', k pos' s' caps' = Some res ∧
      pos + (if need =? 0 then 0 else n) ≤ pos' ∧
      pos' + length s' = pos + length s ∧
      (∀ i, filled i caps → filled i caps') ∧
      ∀ i, need ≠ 0 → sets i = true → filled i caps'.
Proof.
  intros Hbody k fuel.
  induction fuel as [|fuel IH]; intros need pos s caps res Hres.
  - simpl in Hres. destruct need as [|need]; simpl in Hres; [|done].
    exists pos, s, caps. simpl. split; [by destruct greedy, (k pos s caps)|].
    repeat split; done || lia.
  - simpl in Hres.
    assert (Hagain : ∀ res',
      body (λ pos' s' caps',
              if (0 <? need) || (pos <? pos')
              then rep_loop body greedy k fuel (pred need) pos' s' caps'
              else None) pos s caps = Some res' →
      ∃ pos' s' caps', k pos' s' caps' = Some res' ∧
        pos + n ≤ pos' ∧ pos' + length s' = pos + length s ∧
        (∀ i, filled i caps → filled i caps') ∧
        ∀ i, sets i = true → filled i caps').
    { intros res' Hb.
      apply Hbody in Hb as (pos1 & s1 & caps1 & Hk & Hpos & Hlen & Hkept & Hsets).
      destruct ((0 <? need) || (pos <? pos1)); [|done].
      apply IH in Hk as (pos' & s' & caps' & Hk & Hpos' & Hlen' & Hkept' & _).
      exists pos', s', caps'. split; [done|]. split; [lia|]. split; [lia|].
      split; [by intros i Hi; apply Hkept', Hkept|].
      intros i Hi. by apply Hkept', Hsets. }
    destruct need as [|need]; simpl in Hres.
    + destruct greedy; apply first_of_Some in Hres as [Hres|Hres];
        try (exists pos, s, caps; simpl; split; [done|]; repeat split; done || lia);
        apply Hagain in Hres as (pos' & s' & caps' & ? & ? & ? & ? & ?);
        exists pos', s', caps'; simpl; (split; [done|]); repeat split; done || lia.
    + apply Hagain in Hres as (pos' & s' & caps' & ? & ? & ? & ? & Hsets).
      exists pos', s', caps'. simpl. split; [done|].
      split; [lia|]. split; [lia|]. split; [done|]. intros i _. apply Hsets.
Qed.

Lemma run_tracks r :
  solid r = true →
  tracks (R:=R) (min_length r) (λ i, captures_group i r) (run r).
Proof.
  induction r as [l|p|r1 IH1 r2 IH2|r1 IH1 r2 IH2|r1 IH1|greedy min r1 IH1|j r1 IH1|];
    intros Hsolid k pos s caps res Hres; simpl in Hres, Hsolid.
  - destruct (strip_prefix l s) as [s'|] eqn:Hs; [|done].
    apply strip_prefix_length in Hs. exists (pos + length l), s', caps.
    simpl. split; [done|]. repeat split; done || lia.
  - destruct s as [|c s]; [done|]. destruct (p c); [|done].
    exists (S pos), s, caps. simpl. split; [done|]. repeat split; done || lia.
  - apply andb_true_iff in Hsolid as [Hs1 Hs2].
    apply (IH1 Hs1) in Hres as (pos1 & s1 & caps1 & Hres & ? & ? & Hkept1 & Hsets1).
    apply (IH2 Hs2) in Hres as (pos2 & s2 & caps2 & Hres & ? & ? & Hkept2 & Hsets2).
    exists pos2, s2, caps2. simpl. split; [done|]. split; [lia|]. split; [lia|].
    split; [by intros i Hi; apply Hkept2, Hkept1|].
    intros i [Hi|Hi]%orb_true_iff; [apply Hkept2, Hsets1, Hi | apply Hsets2, Hi].
  - apply andb_true_iff in Hsolid as [Hs1 Hs2].
    apply first_of_Some in Hres as [Hres|Hres];
      [apply (IH1 Hs1) in Hres | apply (IH2 Hs2) in Hres];
      destruct Hres as (pos' & s' & caps' & ? & ? & ? & ? & Hsets);
      exists pos', s', caps'; simpl; (split; [done|]);
      (split; [lia|]); (split; [lia|]); (split; [done|]);
      intros i [? ?]%andb_true_iff; by apply Hsets.
  - apply first_of_Some in Hres as [Hres|Hres].
    + apply (IH1 Hsolid) in Hres as (pos' & s' & caps' & Hres & ? & ? & ? & ?).
      destruct (pos <? pos'); [|done].
      exists pos', s', caps'. simpl. split; [done|]. repeat split; done || lia.
    + exists pos, s, caps. simpl. split; [done|]. repeat split; done || lia.
  - apply (rep_loop_tracks _ _ _ _ (IH1 Hsolid)) in Hres
      as (pos' & s' & caps' & ? & ? & ? & ? & Hsets).
    exists pos', s', caps'. simpl. split; [done|].
    split; [destruct (min =? 0); lia|]. split; [lia|]. split; [done|].
    intros i [Hmin Hi]%andb_true_iff. apply Hsets; [|done].
    by destruct min.
  - apply andb_true_iff in Hsolid as [Hmin Hs1].
    assert (1 ≤ min_length r1) by (destruct (min_length r1); [done|lia]).
    apply (IH1 Hs1) in Hres as (pos' & s' & caps' & Hres & ? & ? & Hkept & Hsets).
    assert (Hmatched : take (pos' - pos) s ≠ []).
    { intros Hnil%(f_equal length). rewrite length_take in Hnil. simpl in Hnil. lia. }
    eexists pos', s', _. simpl. split; [done|]. split; [lia|]. split; [lia|]. split.
    + intros i Hi. destruct (decide (i = j)) as [->|Hne].
      * by apply filled_set_capture_eq.
      * by apply filled_set_capture_ne, Hkept.
    + intros i [Hi|Hi]%orb_true_iff.
      * apply Nat.eqb_eq in Hi as ->. by apply filled_set_capture_eq.
      * destruct (decide (i = j)) as [->|Hne].
        -- by apply filled_set_capture_eq.
        -- by apply filled_set_capture_ne, Hsets.
  - destruct (pos =? 0); [|done]. exists pos, s, caps. simpl.
    split; [done|]. repeat split; done || lia.
Qed.
End CaptureFacts.

Lemma match_at_filled r pos s m :
  solid r = true → match_at r pos s = Some m →
  (1 ≤ min_length r → filled 0 (groups m)) ∧
  ∀ i, i ≠ 0 → captures_group i r = true → filled i (groups m).
Proof.
  intros Hsolid Hm. unfold match_at in Hm.
  apply (run_tracks r Hsolid) in Hm
    as (pos' & s' & caps' & [= <-] & Hpos & Hlen & _ & Hsets).
  simpl. split.
  - intros Hmin. apply filled_set_capture_eq.
    intros Hnil%(f_equal length). rewrite length_take in Hnil. simpl in Hnil. lia.
  - intros i Hi Hgroup. by apply filled_set_capture_ne, Hsets.
Qed.

Lemma search_filled r pos s m :
  solid r = true → RegExp.search r pos s = Some m →
  (1 ≤ min_length r → filled 0 (groups m)) ∧
  ∀ i, i ≠ 0 → captures_group i r = true → filled i (groups m).
Proof.
  intros Hsolid. revert pos. induction s as [|c s IH]; intros pos; simpl.
  - destruct (match_at r pos []) eqn:Hm; [|done]. intros [= ->].
    by apply (match_at_filled r pos []).
  - destruct (match_at r pos (c :: s)) eqn:Hm.
    + intros [= ->]. by apply (match_at_filled r pos (c :: s)).
    + apply IH.
Qed.

Lemma exec_all_filled r code m :
  solid r = true → m ∈ exec_all r code →
  (1 ≤ min_length r → filled 0 (groups m)) ∧
  ∀ i, i ≠ 0 → captures_group i r = true → filled i (groups m).
Proof.
  intros Hsolid. unfold exec_all.
  generalize (S (length code)) at 1. generalize 0 at 1.
  intros from fuel. revert from.
  induction fuel as [|fuel IH]; intros from; simpl;
    [by intros ?%elem_of_nil|].
  destruct (exec r code from) as [m'|] eqn:Hexec; [|by intros ?%elem_of_nil].
  intros [->|Hin]%elem_of_cons; [|by apply (IH (lastIndex m'))].
  unfold exec in Hexec. destruct (from <=? length code); [|done].
  by apply (search_filled r from (drop from code)).
Qed.

Lemma filled_group m i : filled i (groups m) → ∃ v, group m i = Some v ∧ v ≠ [].
Proof.
  intros (v & Hv & Hfull). exists v. split; [|done]. unfold group.
  transitivity (mjoin (Some (Some v))); [by f_equal | done].
Qed.

(** X23. The scans of imports, function signatures and class names never
    push undefined or an empty string: every entry of
    [extractImports], [extractFunctionSignatures] and
    [extractClassNames] is a non-empty string. *)
Theorem extractors_defined (code : jsstring) (entry : option jsstring) :
  entry ∈ extractImports code ∨ entry ∈ extractFunctionSignatures code ∨
  entry ∈ extractClassNames code →
  ∃ name, entry = Some name ∧ name ≠ [].
Proof.
  assert (Hpushed : ∀ patterns (pushed : MatchResult → list (option jsstring)),
    (∀ r m, r ∈ patterns → m ∈ exec_all r code →
       ∀ x, x ∈ pushed m → ∃ name, x = Some name ∧ name ≠ []) →
    entry ∈ Set_of (pushed_by patterns pushed code) →
    ∃ name, entry = Some name ∧ name ≠ []).
  { intros patterns pushed Hall Hentry.
    apply (Set_of_first_occurrences (pushed_by patterns pushed code)) in Hentry.
    unfold pushed_by in Hentry.
    apply list_elem_of_bind in Hentry as (r & Hentry & Hr).
    apply list_elem_of_bind in Hentry as (m & Hentry & Hm).
    by apply (Hall r m). }
  assert (Hfirst : ∀ patterns,
    Forall (λ r, solid r = true ∧ captures_group 1 r = true) patterns →
    entry ∈ Set_of (pushed_by patterns (λ m, [group m 1]) code) →
    ∃ name, entry = Some name ∧ name ≠ []).
  { intros patterns Hpatterns. apply Hpushed.
    intros r m Hr Hm x ->%list_elem_of_singleton.
    rewrite Forall_forall in Hpatterns. destruct (Hpatterns r Hr) as [Hsolid Hgroup].
    apply filled_group.
    destruct (exec_all_filled r code m Hsolid Hm) as [_ Hgroups]. by apply Hgroups. }
  intros [Himport|[Hfunction|Hclass]].
  - unfold extractImports, import_matches in Himport.
    apply (Hpushed import_patterns (λ m, [import_of m])); [|done].
    intros r m Hr Hm x ->%list_elem_of_singleton.
    assert (Hwhole : ∃ v, group m 0 = Some v ∧ v ≠ []).
    { apply filled_group.
      assert (Hpatterns : Forall (λ r, solid r = true ∧ 1 ≤ min_length r)
                            import_patterns).
      { unfold import_patterns. repeat constructor; vm_compute; lia. }
      rewrite Forall_forall in Hpatterns. pose proof (Hpatterns r Hr) as Hpattern.
      destruct Hpattern as [Hsolid Hmin].
      destruct (exec_all_filled r code m Hsolid Hm) as [Hzero _]. by apply Hzero. }
    destruct Hwhole as (v & Hv & Hfull). unfold import_of, or_undef. rewrite Hv.
    destruct (group m 3) as [[|]|], (group m 1) as [[|]|], (group m 2) as [[|]|];
      simpl; destruct v; by eauto.
  - apply (Hfirst function_patterns); [|done].
    unfold function_patterns. repeat constructor.
  - apply (Hfirst class_patterns); [|done].
    unfold class_patterns. repeat constructor.
Qed.

Lemma extractors_defined_witness :
  Some (lit "f") ∈ extractFunctionSignatures (lit "function f() {}") ∧
  ∃ name, Some (lit "f") = Some name ∧ name ≠ [].
Proof.
  assert (Hin : Some (lit "f") ∈ extractFunctionSignatures (lit "function f() {}"))
    by (vm_compute; apply list_elem_of_here).
  split; [exact Hin|].
  apply (extractors_defined (lit "function f() {}")). right. left. exact Hin.
Defined.

(** ** The files of a grep listing *)

Section GreedyClass.
Context {R : Type}.

(** A greedy repetition of a class ahead of a continuation that fails
    on the units of the class runs to the end of the units it can take. *)
Lemma rep_loop_greedy_class (p : code_unit → bool) (k : cont (R:=R))
    prefix rest fuel need pos caps :
  (∀ pos' c s' caps', p c = true → k pos' (c :: s') caps' = None) →
  Forall (λ c, p c = true) prefix →
  match rest with c :: _ => p c = false | [] => True end →
  length prefix ≤ fuel →
  rep_loop (run (Class p)) true k fuel need pos (prefix ++ rest) caps =
    if need <=? length prefix then k (pos + length prefix) rest caps else None.
Proof.
  intros Hfail Hprefix Hrest. revert fuel need pos.
  induction Hprefix as [|c prefix Hc _ IH]; intros fuel need pos Hfuel.
  - cbn [app length]. rewrite Nat.add_0_r.
    destruct fuel, need; destruct rest as [|c rest]; simpl; rewrite ?Hrest;
      try done; by destruct (k pos _ caps).
  - destruct fuel as [|fuel]; [simpl in Hfuel; lia|].
    cbn [rep_loop run app length]. rewrite Hc.
    assert ((pos <? S pos) = true) as -> by (apply Nat.ltb_lt; lia).
    rewrite orb_true_r, IH by (simpl in Hfuel; lia).
    replace (S pos + length prefix) with (pos + S (length prefix)) by lia.
    destruct need as [|need]; cbn [Nat.ltb Nat.leb Nat.pred].
    + rewrite (Hfail pos c _ caps Hc). by destruct (k _ rest caps).
    + done.
Qed.
End GreedyClass.

(** The unit a line is cut at, and the text ahead of it. *)
Lemma until_colon (line : jsstring) :
  ∃ name rest, line = name ++ rest ∧ (58%N ∉ name) ∧
    match rest with c :: _ => c = 58%N | [] => True end.
Proof.
  induction line as [|c line (name & rest & -> & Hname & Hrest)].
  - exists [], []. split; [done|]. split; [apply not_elem_of_nil|done].
  - destruct (decide (c = 58%N)) as [->|Hc].
    + exists [], (58%N :: name ++ rest). split; [done|]. split; [|done].
      apply not_elem_of_nil.
    + exists (c :: name), rest. split; [done|]. split; [|done].
      by apply not_elem_of_cons.
Qed.

Lemma search_grep_file_later (pos : nat) (s : jsstring) :
  0 < pos → RegExp.search grep_file_pattern pos s = None.
Proof.
  revert pos. induction s as [|c s IH]; intros pos Hpos; simpl;
    (destruct pos; [lia|]); [done|].
  unfold match_at, grep_file_pattern. simpl. apply IH. lia.
Qed.

Lemma search_grep_file_none (s : jsstring) :
  match_at grep_file_pattern 0 s = None →
  RegExp.search grep_file_pattern 0 s = None.
Proof.
  intros Hnone. destruct s as [|c s]; cbn [RegExp.search]; rewrite Hnone; [done|].
  apply search_grep_file_later. lia.
Qed.

(** What [line.match(/^([^:]+):/)] captures: the text ahead of the
    first colon, if there is a colon and it is not the first unit. *)
Lemma match_grep_file (name rest : jsstring) :
  58%N ∉ name → match rest with c :: _ => c = 58%N | [] => True end →
  match match_ (name ++ rest) grep_file_pattern with
  | Some m => name ≠ [] ∧ rest ≠ [] ∧ group m 1 = Some name
  | None => name = [] ∨ rest = []
  end.
Proof.
  intros Hname Hrest. unfold match_, exec.
  cbn [Nat.leb drop RegExp.search].
  set (line := name ++ rest).
  set (final := λ (pos' : nat) (_ : jsstring) (caps : captures),
         Some {| index := 0; lastIndex := pos';
                 groups := set_capture 0 (take (pos' - 0) line) caps |}).
  assert (Hmatch : match_at grep_file_pattern 0 line =
            if 1 <=? length name
            then match rest with
                 | _ :: rest' =>
                     final (length name + 1) rest'
                           (set_capture 1 (take (length name - 0) line) [])
                 | [] => None
                 end
            else None).
  { unfold match_at. fold final. unfold grep_file_pattern, sequence, Plus, none_of.
    change (lit ":") with [58%N]. cbn [run Nat.eqb length Nat.add]. unfold line.
    match goal with
    | |- rep_loop _ true ?k ?fuel ?need ?pos _ ?caps = _ =>
        pose proof (rep_loop_greedy_class (λ c, bool_decide (c ∉ [58%N])) k
                      name rest fuel need pos caps) as Hloop
    end.
    etrans; [apply Hloop|].
    - intros pos' c s' caps' Hc. cbn [strip_prefix].
      apply bool_decide_eq_true in Hc. rewrite not_elem_of_cons in Hc.
      destruct Hc as [Hc _]. destruct (58 =? c)%N eqn:H58; [|done].
      apply N.eqb_eq in H58. by subst.
    - apply Forall_forall. intros c Hc. apply bool_decide_eq_true.
      intros [->|[]%elem_of_nil]%elem_of_cons. done.
    - destruct rest as [|c rest']; [done|]. subst c. by vm_compute.
    - rewrite length_app. lia.
    - cbn [Nat.add]. destruct (1 <=? length name); [|done].
      destruct rest as [|c rest']; [done|]. subst c. cbn [strip_prefix].
      change (58 =? 58)%N with true. cbv iota. done. }
  rewrite drop_0. destruct name as [|c name].
  - rewrite search_grep_file_none by done. by left.
  - cbn [length Nat.leb] in Hmatch. destruct rest as [|c' rest'].
    + rewrite search_grep_file_none by done. by right.
    + rewrite (search_here _ _ _ _ Hmatch).
      split; [done|]. split; [done|].
      unfold group. cbn [groups]. unfold line.
      cbn. by rewrite take_app_length.
Qed.

Lemma Set_of_length {A} `{EqDecision A} (l : list A) : length (Set_of l) ≤ length l.
Proof.
  unfold Set_of.
  enough (∀ acc, length (foldl Set_add acc l) ≤ length acc + length l) as Hacc
    by apply (Hacc []).
  induction l as [|x l IH]; intros acc; simpl; [lia|].
  etrans; [apply IH|]. unfold Set_add. case_decide; [lia|].
  rewrite length_app. simpl. lia.
Qed.

(** X24. The files of a grep summary are the texts ahead of the first colon
    of the lines that have one, where that text is not empty; each is
    listed once, and there are at most as many files as matches. *)
Theorem grep_files_names (output : jsstring) :
  (∀ file, file ∈ grep_files output ↔
     ∃ line name rest,
       line ∈ filter_Boolean (split LF output) ∧ line = name ++ 58%N :: rest ∧
       name ≠ [] ∧ (58%N ∉ name) ∧ file = Some name) ∧
  NoDup (grep_files output) ∧
  length (grep_files output) ≤ length (filter_Boolean (split LF output)).
Proof.
  unfold grep_files. set (lines := filter_Boolean (split LF output)).
  set (raw := lines ≫= _).
  destruct (Set_of_first_occurrences raw) as (Hdup & Hin & _).
  split; [|split; [done|]].
  - intros file. rewrite Hin. unfold raw. rewrite list_elem_of_bind. split.
    + intros (line & Hfile & Hline).
      destruct (until_colon line) as (name & rest & -> & Hname & Hrest).
      pose proof (match_grep_file name rest Hname Hrest) as Hmatch.
      destruct (match_ (name ++ rest) grep_file_pattern) as [m|];
        [|by apply elem_of_nil in Hfile].
      destruct Hmatch as (Hfull & Hcolon & Hgroup).
      apply list_elem_of_singleton in Hfile as ->.
      destruct rest as [|c rest]; [done|]. subst c.
      by exists (name ++ 58%N :: rest), name, rest.
    + intros (line & name & rest & Hline & -> & Hfull & Hname & ->).
      exists (name ++ 58%N :: rest). split; [|done].
      pose proof (match_grep_file name (58%N :: rest) Hname eq_refl) as Hmatch.
      match type of Hmatch with
      | match ?x with _ => _ end =>
          change (match_ (name ++ 58%N :: rest) grep_file_pattern) with x;
          destruct x as [m|]
      end.
      * destruct Hmatch as (_ & _ & ->). apply list_elem_of_here.
      * by destruct Hmatch.
  - etrans; [apply Set_of_length|]. unfold raw. clear.
    induction lines as [|line lines IH]; [done|].
    cbn [mbind list_bind]. rewrite length_app. cbn [length].
    destruct (match_ line grep_file_pattern); simpl; lia.
Qed.

Lemma grep_files_names_witness :
  grep_files grep_listing = [Some (lit "src/a.ts")] ∧
  Some (lit "src/a.ts") ∈ grep_files grep_listing.
Proof.
  split; [vm_compute; reflexivity|].
  apply (proj1 (grep_files_names grep_listing)).
  exists (lit "src/a.ts:1:const a = 1"), (lit "src/a.ts"), (lit "1:const a = 1").
  split; [vm_compute; apply list_elem_of_here|].
  split; [reflexivity|]. split; [discriminate|]. split; [compute_done|reflexivity].
Defined.

(** ** Large edits *)

Lemma startsWith_app (w rest : jsstring) : startsWith (w ++ rest) w = true.
Proof. induction w as [|c w IH]; [by destruct rest|]. simpl. by rewrite N.eqb_refl. Qed.

Lemma includes_here (s w : jsstring) : startsWith s w = true → includes s w = true.
Proof. intros Hs. destruct s; cbn [includes]; by rewrite Hs. Qed.

Lemma includes_app (before w rest : jsstring) :
  includes (before ++ w ++ rest) w = true.
Proof.
  induction before as [|c before IH].
  - cbn [app]. apply includes_here, startsWith_app.
  - cbn [app includes]. rewrite IH. apply orb_true_r.
Qed.

Lemma startsWith_fmap (f : code_unit → code_unit) (s w : jsstring) :
  startsWith s w = true → startsWith (f <$> s) (f <$> w) = true.
Proof.
  revert s. induction w as [|a w IH]; intros s; [by destruct s|].
  destruct s as [|c s]; [done|]. simpl.
  destruct (a =? c)%N eqn:Hac; [|done]. apply N.eqb_eq in Hac as ->.
  rewrite N.eqb_refl. apply IH.
Qed.

Lemma includes_fmap (f : code_unit → code_unit) (s w : jsstring) :
  includes s w = true → includes (f <$> s) (f <$> w) = true.
Proof.
  induction s as [|c s IH]; cbn [includes fmap list_fmap].
  - rewrite !orb_false_r. apply (startsWith_fmap f []).
  - intros [Hhere|Hlater]%orb_true_iff.
    + apply orb_true_iff. left. by apply (startsWith_fmap f (c :: s)).
    + apply orb_true_iff. right. by apply IH.
Qed.

Lemma basic_latin_keeps_success : @keeps_text basic_latin (lit "success").
Proof.
  intros s Hs. apply (includes_fmap basic_latin_lower) in Hs. exact Hs.
Qed.

Lemma split_piece_length (sep : code_unit) (s piece : jsstring) :
  piece ∈ split sep s → length piece ≤ length s.
Proof.
  revert piece. induction s as [|c s IH]; intros piece; simpl.
  - by intros ->%list_elem_of_singleton.
  - destruct (c =? sep)%N.
    + intros [->|Hin]%elem_of_cons; [simpl; lia|]. apply IH in Hin. lia.
    + destruct (split sep s) as [|h t].
      * intros ->%list_elem_of_singleton. simpl. lia.
      * intros [->|Hin]%elem_of_cons.
        -- assert (length h ≤ length s) by (apply IH; by left). simpl. lia.
        -- assert (length piece ≤ length s) by (apply IH; by right). lia.
Qed.

Lemma split_pop_length (sep : code_unit) (s : jsstring) :
  length (split_pop sep s) ≤ length s.
Proof.
  unfold split_pop. destruct (last (split sep s)) as [piece|] eqn:Hlast; [|simpl; lia].
  apply last_Some in Hlast as [pieces Hlast]. simpl.
  apply (split_piece_length sep). rewrite Hlast. apply elem_of_app. right. by left.
Qed.

Lemma or_else_length (v : option jsstring) (d : jsstring) (n : nat) :
  length (default [] v) ≤ n → length d ≤ n → length (or_else v d) ≤ n.
Proof. destruct v as [[|c s]|]; simpl; lia. Qed.

Section LargeEdits.
Context `{CaseMapping} `{JSONParser}.

Lemma compressEditOutput_success toolInput output :
  length (default [] (toolInput ≫= ToolInput.file_path)) ≤ 1900 →
  includes (truncateToTarget (compressEditOutput toolInput output)) (lit "success")
    = true.
Proof.
  intros Hpath. unfold compressEditOutput.
  set (filePath := or_else (toolInput ≫= ToolInput.file_path) (lit "unknown")).
  set (fileName := or_else (Some (split_pop slash filePath)) (lit "file")).
  assert (Hname : length fileName ≤ 1900).
  { apply or_else_length; [|rewrite lit_length; cbn [String.length]; lia].
    cbn [default]. etrans; [apply split_pop_length|].
    apply or_else_length; [done|]. rewrite lit_length. cbn [String.length]. lia. }
  clearbody fileName.
  set (ahead := [0x270F%N; 0xFE0F%N] ++ lit " Edited: " ++ fileName ++ [LF] ++
                astral 0x1F4DD ++ lit " Changes applied ").
  assert (Htext :
    join [LF] [[0x270F%N; 0xFE0F%N] ++ lit " Edited: " ++ fileName;
               astral 0x1F4DD ++ lit " Changes applied successfully";
               slice0 500 output]
    = ahead ++ lit "success" ++ (lit "fully" ++ [LF] ++ slice0 500 output)).
  { unfold ahead. cbn [join]. by rewrite <- !app_assoc. }
  rewrite Htext.
  assert (Hahead : length ahead + 7 ≤ 1980).
  { unfold ahead. rewrite !length_app, !lit_length. cbn [length String.length astral].
    lia. }
  unfold truncateToTarget. case_bool_decide; [apply includes_app|].
  unfold slice0, TARGET_COMPRESSED_SIZE.
  replace (2000 - 20) with (length ahead + (7 + (1980 - length ahead - 7))) by lia.
  rewrite take_app_add, (take_app_add' (lit "success")) by done.
  rewrite <- !app_assoc. apply includes_app.
Qed.

Lemma classifyObservationType_success toolName text :
  keeps_text (lit "success") → includes text (lit "success") = true →
  classifyObservationType toolName text ∈ [Problem; Success].
Proof.
  intros Hkeeps Htext. unfold classifyObservationType.
  rewrite (Hkeeps _ Htext). cbn [orb].
  destruct (includes _ (lit "error") || _ || _); [by left | right; by left].
Qed.
End LargeEdits.

(** X25. An Edit or Write output of more than 3000 code units is never stored
    as a bugfix, a refactor or a feature: its compressed form carries the
    line "Changes applied successfully", and the classifier, which reads
    the compressed text, finds "success" in it; the record is a problem
    or a success.  This holds for a file path of at most 1900 code units
    and every case mapping that keeps the text "success". *)
Theorem main_large_edit_type `{CaseMapping} `{JSONParser}
    (event : HookInput.t) (memory : list Remembered.t) (observation : Remembered.t) :
  keeps_text (lit "success") →
  (main (Some event) memory).1 = memory ++ [observation] →
  HookInput.tool_name event ∈ [Some (lit "Edit"); Some (lit "Write")] →
  3000 < length (default [] (tool_output_of (HookInput.tool_response event))) →
  length (default [] (HookInput.tool_input event ≫= ToolInput.file_path)) ≤ 1900 →
  Remembered.type observation ∈ [Problem; Success].
Proof.
  intros Hkeeps Hstored Htool Hlong Hpath.
  destruct (main_stored (Some event) memory)
    as [Hsame|(event' & tool_name & stored & [= <-] & _ & Hname & Hobserve & Hmain)].
  { rewrite Hsame in Hstored. apply (f_equal length) in Hstored.
    rewrite length_app in Hstored. simpl in Hstored. lia. }
  rewrite Hmain in Hstored. apply app_inj_tail in Hstored as [_ ->].
  rewrite Hname in Htool.
  destruct (effectiveOutput_of_cases tool_name (HookInput.tool_input event)
              (tool_output_of (HookInput.tool_response event))) as [_ Houtput].
  rewrite Houtput in Hobserve by (right; lia).
  unfold observe, compressToolOutput, COMPRESSION_THRESHOLD in Hobserve.
  rewrite bool_decide_eq_false_2 in Hobserve by lia.
  assert (Hrender : render tool_name (HookInput.tool_input event)
            (default [] (tool_output_of (HookInput.tool_response event)))
          = Some (compressEditOutput (HookInput.tool_input event)
                    (default [] (tool_output_of (HookInput.tool_response event))))).
  { unfold render.
    apply elem_of_cons in Htool as [[= ->]|Htool];
      [|apply elem_of_cons in Htool as [[= ->]|Htool];
        [|by apply elem_of_nil in Htool]];
      by vm_compute. }
  rewrite Hrender in Hobserve. simpl in Hobserve. injection Hobserve as <-.
  cbn [Remembered.type].
  by apply classifyObservationType_success, compressEditOutput_success.
Qed.

Lemma main_large_edit_type_witness :
  ∃ observation,
    (@main basic_latin JSONText.parse (Some (event "Edit" output_3001)) []).1
      = [] ++ [observation] ∧
    Remembered.type observation ∈ [Problem; Success].
Proof.
  assert (Hstored : ∃ observation,
            (@main basic_latin JSONText.parse (Some (event "Edit" output_3001)) []).1
              = [] ++ [observation])
    by (eexists; vm_compute; reflexivity).
  destruct Hstored as [observation Hstored]. exists observation.
  split; [exact Hstored|].
  apply (@main_large_edit_type basic_latin JSONText.parse
           (event "Edit" output_3001) [] observation).
  - exact basic_latin_keeps_success.
  - exact Hstored.
  - by left.
  - vm_compute. lia.
  - vm_compute. lia.
Defined.

(** ** Large command outputs *)

Lemma basic_latin_lowers_Error : @lowers basic_latin (lit "Error") (lit "error").
Proof.
  intros s Hs. apply (includes_fmap basic_latin_lower) in Hs. exact Hs.
Qed.

Lemma join_nil_cons (part : jsstring) (parts : list jsstring) :
  join [] (part :: parts) = part ++ join [] parts.
Proof. destruct parts; simpl; by rewrite ?app_nil_r. Qed.

Section LargeCommands.
Context `{CaseMapping} `{JSONParser}.

Lemma compressBashOutput_errors toolInput output line :
  line ∈ split LF output → is_error_line line = true →
  includes (truncateToTarget (compressBashOutput toolInput output)) (lit "Error")
    = true.
Proof.
  intros Hline Herror. unfold compressBashOutput.
  set (command := or_else (toolInput ≫= ToolInput.command) (lit "command")).
  set (shortCmd := slice0 100 (default [] (head (split LF command)))).
  assert (Hshort : length shortCmd ≤ 100)
    by (unfold shortCmd, slice0; rewrite length_take; lia).
  clearbody shortCmd.
  set (errorLines := filter (λ l, is_error_line l) (split LF output)).
  assert (Herrors : 0 < length errorLines).
  { assert (Hin : line ∈ errorLines)
      by (apply list_elem_of_filter; split; [by rewrite Herror | done]).
    destruct errorLines; [by apply elem_of_nil in Hin | simpl; lia]. }
  rewrite (bool_decide_eq_true_2 _ Herrors).
  set (ahead := astral 0x1F5A5 ++ [0xFE0F%N] ++ lit " Command: " ++ shortCmd ++
                [LF; 0x274C%N] ++ lit " ").
  match goal with
  | |- includes (truncateToTarget (join [] ([?first] ++ [?header; ?listed] ++ ?more)))
         _ = _ =>
      assert (Htext : join [] ([first] ++ [header; listed] ++ more)
                = ahead ++ lit "Error" ++
                  (lit "s (" ++ Number_toString (length errorLines) ++ lit "):" ++
                   join [] (listed :: more)))
        by (change ([first] ++ [header; listed] ++ more)
              with (first :: header :: listed :: more);
            rewrite 2 join_nil_cons; generalize (join [] (listed :: more));
            intros tail; unfold ahead;
            change (lit " Errors (") with (lit " " ++ lit "Error" ++ lit "s (");
            by rewrite <- !app_assoc)
  end.
  rewrite Htext. clear Htext.
  set (tail := lit "s (" ++ _). clearbody tail.
  assert (Hahead : length ahead + 5 ≤ 1980).
  { unfold ahead. rewrite !length_app, !lit_length. cbn [length String.length astral].
    lia. }
  unfold truncateToTarget. case_bool_decide; [apply includes_app|].
  unfold slice0, TARGET_COMPRESSED_SIZE.
  replace (2000 - 20) with (length ahead + (5 + (1980 - length ahead - 5))) by lia.
  rewrite take_app_add, (take_app_add' (lit "Error")) by done.
  rewrite <- !app_assoc. apply includes_app.
Qed.

Lemma classifyObservationType_error toolName text :
  lowers (lit "Error") (lit "error") → includes text (lit "Error") = true →
  classifyObservationType toolName text = Problem.
Proof.
  intros Hlowers Htext. unfold classifyObservationType.
  by rewrite (Hlowers _ Htext).
Qed.
End LargeCommands.

(** X26. A Bash output of more than 3000 code units with a line that
    mentions a warning, an error, a failure or an exception is stored as
    a problem, a warning included: the compressed text lists such lines
    under the header "Errors (N):", and the classifier, which reads the
    compressed text, finds "error" in the header.  This holds for every
    case mapping that lowers "Error" to "error". *)
Theorem main_large_command_problem `{CaseMapping} `{JSONParser}
    (event : HookInput.t) (memory : list Remembered.t) (observation : Remembered.t)
    (line : jsstring) :
  lowers (lit "Error") (lit "error") →
  (main (Some event) memory).1 = memory ++ [observation] →
  HookInput.tool_name event = Some (lit "Bash") →
  3000 < length (default [] (tool_output_of (HookInput.tool_response event))) →
  line ∈ split LF (default [] (tool_output_of (HookInput.tool_response event))) →
  is_error_line line = true →
  Remembered.type observation = Problem.
Proof.
  intros Hlowers Hstored Htool Hlong Hline Herror.
  destruct (main_stored (Some event) memory)
    as [Hsame|(event' & tool_name & stored & [= <-] & _ & Hname & Hobserve & Hmain)].
  { rewrite Hsame in Hstored. apply (f_equal length) in Hstored.
    rewrite length_app in Hstored. simpl in Hstored. lia. }
  rewrite Hmain in Hstored. apply app_inj_tail in Hstored as [_ ->].
  assert (Hbash : tool_name = lit "Bash") by congruence.
  destruct (effectiveOutput_of_cases tool_name (HookInput.tool_input event)
              (tool_output_of (HookInput.tool_response event))) as [_ Houtput].
  rewrite Houtput in Hobserve by (right; lia).
  unfold observe, compressToolOutput, COMPRESSION_THRESHOLD in Hobserve.
  rewrite bool_decide_eq_false_2 in Hobserve by lia.
  assert (Hrender : render tool_name (HookInput.tool_input event)
            (default [] (tool_output_of (HookInput.tool_response event)))
          = Some (compressBashOutput (HookInput.tool_input event)
                    (default [] (tool_output_of (HookInput.tool_response event)))))
    by (by rewrite Hbash).
  rewrite Hrender in Hobserve. simpl in Hobserve. injection Hobserve as <-.
  cbn [Remembered.type].
  apply classifyObservationType_error; [done|].
  by apply (compressBashOutput_errors _ _ line).
Qed.

Lemma main_large_command_problem_witness :
  ∃ observation,
    (@main basic_latin JSONText.parse (Some (event "Bash" warning_log)) []).1
      = [] ++ [observation] ∧
    Remembered.type observation = Problem.
Proof.
  assert (Hstored : ∃ observation,
            (@main basic_latin JSONText.parse (Some (event "Bash" warning_log)) []).1
              = [] ++ [observation])
    by (eexists; vm_compute; reflexivity).
  destruct Hstored as [observation Hstored]. exists observation.
  split; [exact Hstored|].
  apply (@main_large_command_problem basic_latin JSONText.parse
           (event "Bash" warning_log) [] observation (lit "warning: unused variable")).
  - exact basic_latin_lowers_Error.
  - exact Hstored.
  - reflexivity.
  - vm_compute. lia.
  - vm_compute. apply list_elem_of_here.
  - vm_compute. reflexivity.
Defined.
